(** * Airtable MCP gateway: session, identity and dispatch layer

    A shallow embedding of [src/server/server.ts].  The process-wide maps of
    the server (token store, pending-authorization store, delegated-header
    cache, transport registry) are the fields of one [World] record; every
    handler is a computation in a state-and-exception monad over that record.
    The outside world (the OAuth token endpoint, the Airtable REST API, the
    wall clock, the file system, the random source) enters through explicit
    oracles, so every handler is an executable function.

    Conventions.
    - Strings are byte strings (UTF-8) and [length] counts bytes; numbers
      carried by JSON values and all instants are integers ([Z]), in
      milliseconds where they are times.
    - The keys of an object are listed in the order they were written.
    - A handler runs to completion: tasks of other requests are not
      interleaved at its [await] points.
    - A [throw] keeps the writes made before it, as in JavaScript.
    - Response headers (CORS, content type of pages) are not part of the
      responses modelled here; a request target that [new URL] rejects is
      outside the model. *)

From Stdlib Require Import ZArith NArith Ascii String List Lia.
From stdpp Require Import base option list gmap strings pretty sorting.

Local Open Scope Z_scope.
Set Warnings "-register-all".

(* ===================================================================== *)
(** * Text primitives of the platform                                     *)
(* ===================================================================== *)

Module Text.

Definition hex_digit (upper : bool) (n : N) : ascii :=
  if (n <? 10)%N then ascii_of_N (48 + n)
  else ascii_of_N ((if upper then 55 else 87) + n).

Definition hex_byte (upper : bool) (c : ascii) : string :=
  let n := N_of_ascii c in
  String (hex_digit upper (n / 16)) (String (hex_digit upper (n mod 16)) "").

(** [Buffer.toString("hex")]: two lower-case digits per byte. *)
Fixpoint to_hex (bytes : list ascii) : string :=
  match bytes with
  | [] => ""
  | b :: bs => hex_byte false b +:+ to_hex bs
  end.

(** The byte serializer of [application/x-www-form-urlencoded], which
    [URLSearchParams.prototype.toString] applies to names and values. *)
Definition form_safe (n : N) : bool :=
  ((n =? 42) || (n =? 45) || (n =? 46) || (n =? 95)
   || ((48 <=? n) && (n <=? 57))
   || ((65 <=? n) && (n <=? 90))
   || ((97 <=? n) && (n <=? 122)))%N.

Fixpoint form_encode (s : string) : string :=
  match s with
  | EmptyString => ""
  | String c s' =>
      let n := N_of_ascii c in
      (if (n =? 32)%N then "+"
       else if form_safe n then String c ""
       else String "%"%char (hex_byte true c)) +:+ form_encode s'
  end.

Fixpoint join (sep : string) (l : list string) : string :=
  match l with
  | [] => ""
  | [x] => x
  | x :: rest => x +:+ sep +:+ join sep rest
  end.

(** [new URLSearchParams(...).toString()] on an ordered parameter list. *)
Definition search_params (ps : list (string * string)) : string :=
  join "&" (map (fun p => form_encode p.1 +:+ "=" +:+ form_encode p.2) ps).

(** [s.startsWith(p)], [s.endsWith(p)], [s.substring(n)]. *)
Fixpoint startsWith (s p : string) {struct p} : bool :=
  match p, s with
  | EmptyString, _ => true
  | String a p', String b s' => if Ascii.eqb a b then startsWith s' p' else false
  | String _ _, EmptyString => false
  end.

Definition endsWith (s p : string) : bool :=
  startsWith (String.rev s) (String.rev p).

Fixpoint substring_from (n : nat) (s : string) : string :=
  match n, s with
  | O, _ => s
  | S n', String _ s' => substring_from n' s'
  | S _, EmptyString => ""
  end.

(** [s.split(sep)] for a one-character separator: the pieces between the
    separators, in order; there is always at least one. *)
Fixpoint split (sep : ascii) (s : string) : list string :=
  match s with
  | EmptyString => [""]
  | String c s' =>
      if Ascii.eqb c sep then "" :: split sep s'
      else match split sep s' with
           | piece :: rest => String c piece :: rest
           | [] => [String c ""]
           end
  end.

(** [Array.prototype.sort()] without a comparator orders strings by their
    UTF-16 code units.  On UTF-8 bytes that is the order of the bytes,
    except that the characters outside the BMP (lead bytes [F0] to [F4],
    surrogate pairs in UTF-16) come before those of [U+E000] to [U+FFFF]
    (lead bytes [EE] and [EF]).  [sort_key] exchanges the lead bytes [EE]
    and [EF] with [FE] and [FF], two bytes that UTF-8 does not use, so
    that the order of the keys is the order of the code units. *)
Definition sort_key (c : ascii) : ascii :=
  let n := N_of_ascii c in
  if (n =? 238)%N then ascii_of_N 254
  else if (n =? 239)%N then ascii_of_N 255
  else if (n =? 254)%N then ascii_of_N 238
  else if (n =? 255)%N then ascii_of_N 239
  else c.

Fixpoint sort_keys (s : string) : string :=
  match s with
  | EmptyString => ""
  | String c s' => String (sort_key c) (sort_keys s')
  end.

Definition code_unit_le (s t : string) : Prop := String.le (sort_keys s) (sort_keys t).

#[global] Instance code_unit_le_dec : RelDecision code_unit_le.
Proof. intros s t. unfold code_unit_le. apply _. Defined.

Definition is_empty (s : string) : bool :=
  match s with EmptyString => true | _ => false end.

End Text.

(* ===================================================================== *)
(** * JavaScript values as the handlers see them                          *)
(* ===================================================================== *)

(** Parsed JSON.  [undefined] is the [None] of [option JSON]. *)
Inductive JSON : Type :=
| JNull
| JBool (b : bool)
| JNum (n : Z)
| JStr (s : string)
| JArr (items : list JSON)
| JObj (fields : list (string * JSON)).

Module Js.

(** Own property of an object literal; the last binding of a key wins, as
    after [JSON.parse]. *)
Fixpoint field (k : string) (fs : list (string * JSON)) : option JSON :=
  match fs with
  | [] => None
  | (k', v) :: rest =>
      match field k rest with
      | Some v' => Some v'
      | None => if decide (k = k') then Some v else None
      end
  end.

(** Truthiness of a value ([undefined] is falsy). *)
Definition truthy (v : option JSON) : bool :=
  match v with
  | None | Some JNull => false
  | Some (JBool b) => b
  | Some (JNum n) => negb (n =? 0)
  | Some (JStr s) => negb (Text.is_empty s)
  | Some (JArr _) | Some (JObj _) => true
  end.

(** [a || b]. *)
Definition or_else (a : option JSON) (b : option JSON) : option JSON :=
  if truthy a then a else b.

(** String conversion of a template literal [`${v}`]. *)
Definition to_string_flat (v : option JSON) : string :=
  match v with
  | None => "undefined"
  | Some JNull => "null"
  | Some (JBool true) => "true"
  | Some (JBool false) => "false"
  | Some (JNum n) => pretty n
  | Some (JStr s) => s
  | Some (JArr _) => ""
  | Some (JObj _) => "[object Object]"
  end.

Fixpoint to_string_json (v : JSON) : string :=
  match v with
  | JArr items =>
      Text.join "," (map (fun x => match x with
                                   | JNull => ""
                                   | _ => to_string_json x
                                   end) items)
  | _ => to_string_flat (Some v)
  end.

Definition to_string (v : option JSON) : string :=
  match v with
  | Some j => to_string_json j
  | None => "undefined"
  end.

(** [n.toString()] of an array index. *)
Definition index_of_key (k : string) (len : nat) : option nat :=
  list_find (fun i => bool_decide (pretty (Z.of_nat i) = k)) (seq 0 len) ≫= (fun p => Some p.1).

Fixpoint chars (s : string) : list JSON :=
  match s with
  | EmptyString => []
  | String c s' => JStr (String c "") :: chars s'
  end.

(** [v[k]] on a value that is neither [null] nor [undefined]: own data
    properties, the elements and [length] of arrays and strings.  Methods
    inherited from prototypes are not values of this model. *)
Definition prop (v : JSON) (k : string) : option JSON :=
  match v with
  | JObj fs => field k fs
  | JArr items =>
      if decide (k = "length") then Some (JNum (Z.of_nat (length items)))
      else index_of_key k (length items) ≫= (fun i => items !! i)
  | JStr s =>
      if decide (k = "length") then Some (JNum (Z.of_nat (String.length s)))
      else index_of_key k (String.length s) ≫= (fun i => chars s !! i)
  | _ => None
  end.

(** [v?.k]. *)
Definition opt_prop (v : option JSON) (k : string) : option JSON :=
  match v with
  | None | Some JNull => None
  | Some j => prop j k
  end.

(** An object literal; a property whose value is [undefined] does not
    survive serialization and is left out. *)
Definition obj (fs : list (string * option JSON)) : JSON :=
  JObj (omap (fun p => match p.2 with Some v => Some (p.1, v) | None => None end) fs).

(** [typeof v]. *)
Definition typeof (v : JSON) : string :=
  match v with
  | JNull | JArr _ | JObj _ => "object"
  | JBool _ => "boolean"
  | JNum _ => "number"
  | JStr _ => "string"
  end.

Definition isArray (v : JSON) : bool :=
  match v with JArr _ => true | _ => false end.

(** [v > 0] for a number or a boolean; other operands, which JavaScript
    would first convert to a number, compare as false here. *)
Definition gt_zero (v : option JSON) : bool :=
  match v with
  | Some (JNum n) => 0 <? n
  | Some (JBool b) => b
  | _ => false
  end.

(** [JSON.stringify] of a string. *)
Definition escape_char (c : ascii) : string :=
  let n := N_of_ascii c in
  if (n =? 34)%N then String "\"%char (String (ascii_of_N 34) "")
  else if (n =? 92)%N then "\\"
  else if (n =? 8)%N then "\b"
  else if (n =? 9)%N then "\t"
  else if (n =? 10)%N then "\n"
  else if (n =? 12)%N then "\f"
  else if (n =? 13)%N then "\r"
  else if (n <? 32)%N then "\u00" +:+ Text.hex_byte false c
  else String c "".

Fixpoint escape (s : string) : string :=
  match s with
  | EmptyString => ""
  | String c s' => escape_char c +:+ escape s'
  end.

Definition quote (s : string) : string :=
  String (ascii_of_N 34) (escape s +:+ String (ascii_of_N 34) "").

End Js.

(* ===================================================================== *)
(** * Process state and the outside world                                 *)
(* ===================================================================== *)

(** Value type of [authSessions]. *)
Record AuthSession : Type := {
  accessToken : string;
  refreshToken : string;
  expiresAt : Z
}.

(** Value type of [pendingAuthStates]. *)
Record PendingAuth : Type := {
  sessionId : string;
  createdAt : Z
}.

(** Value type of [sessions].  The MCP [Server] object of a record is
    determined by the session id it was created for; the transport by the
    key of the record. *)
Record SessionRecord : Type := {
  server : string;
  authHeader : option string
}.

(** An entry of the file system: a regular file with its UTF-8 content, or
    a directory. *)
Inductive FsNode : Type :=
| File (content : string)
| Dir.

(** A request sent with [fetch]. *)
Record ApiRequest : Type := {
  url : string;
  method : string;
  bearer : string;
  body : option JSON
}.

Inductive NetRequest : Type :=
| TokenRequest (form : list (string * string))
| ApiCall (req : ApiRequest).

(** The payload the token endpoint returns on success, at the type the
    source declares for it. *)
Record TokenData : Type := {
  access_token : string;
  refresh_token : string;
  expires_in : Z
}.

(** Outcome of one [fetch]: the promise rejects, or it resolves to a
    response with a status, a text body, and the value [response.json()]
    yields ([None] when the body is not JSON and [json()] rejects). *)
Inductive HttpReply (P : Type) : Type :=
| FetchFailed
| Http (status : Z) (text : string) (json : option P).
Arguments FetchFailed {P}.
Arguments Http {P} status text json.

(** The network: the reply to the [n]-th request of the process, and the
    time that request takes. *)
Record Network : Type := {
  token_endpoint : nat -> list (string * string) -> HttpReply TokenData;
  api_endpoint : nat -> ApiRequest -> HttpReply JSON;
  latency : nat -> N
}.

(** Process configuration: the environment variables read at start-up, the
    directory of the running module and the working directory. *)
Record Config : Type := {
  AIRTABLE_CLIENT_ID : string;
  AIRTABLE_CLIENT_SECRET : string;
  AIRTABLE_REDIRECT_URI : string;
  dirname : string;
  cwd : string
}.

Definition AIRTABLE_API_BASE : string := "https://api.airtable.com/v0".

(** The module-level maps, with the clock, the log of the requests sent so
    far and the file system. *)
Record World : Type := {
  authSessions : gmap string AuthSession;
  pendingAuthStates : gmap string PendingAuth;
  sessions : gmap string SessionRecord;
  sessionAuthHeaders : gmap string string;
  transportToSessionId : gmap string string;
  clock : Z;
  netlog : list NetRequest;
  files : gmap string FsNode
}.

Definition with_authSessions (f : gmap string AuthSession -> gmap string AuthSession)
    (w : World) : World :=
  {| authSessions := f (authSessions w);
     pendingAuthStates := pendingAuthStates w;
     sessions := sessions w;
     sessionAuthHeaders := sessionAuthHeaders w;
     transportToSessionId := transportToSessionId w;
     clock := clock w; netlog := netlog w; files := files w |}.

Definition with_pendingAuthStates
    (f : gmap string PendingAuth -> gmap string PendingAuth) (w : World) : World :=
  {| authSessions := authSessions w;
     pendingAuthStates := f (pendingAuthStates w);
     sessions := sessions w;
     sessionAuthHeaders := sessionAuthHeaders w;
     transportToSessionId := transportToSessionId w;
     clock := clock w; netlog := netlog w; files := files w |}.

Definition with_sessions
    (f : gmap string SessionRecord -> gmap string SessionRecord) (w : World) : World :=
  {| authSessions := authSessions w;
     pendingAuthStates := pendingAuthStates w;
     sessions := f (sessions w);
     sessionAuthHeaders := sessionAuthHeaders w;
     transportToSessionId := transportToSessionId w;
     clock := clock w; netlog := netlog w; files := files w |}.

Definition with_sessionAuthHeaders
    (f : gmap string string -> gmap string string) (w : World) : World :=
  {| authSessions := authSessions w;
     pendingAuthStates := pendingAuthStates w;
     sessions := sessions w;
     sessionAuthHeaders := f (sessionAuthHeaders w);
     transportToSessionId := transportToSessionId w;
     clock := clock w; netlog := netlog w; files := files w |}.

Definition with_transportToSessionId
    (f : gmap string string -> gmap string string) (w : World) : World :=
  {| authSessions := authSessions w;
     pendingAuthStates := pendingAuthStates w;
     sessions := sessions w;
     sessionAuthHeaders := sessionAuthHeaders w;
     transportToSessionId := f (transportToSessionId w);
     clock := clock w; netlog := netlog w; files := files w |}.

(** One request goes out: it is logged and the clock advances by the time
    the exchange takes. *)
Definition after_request (net : Network) (r : NetRequest) (w : World) : World :=
  {| authSessions := authSessions w;
     pendingAuthStates := pendingAuthStates w;
     sessions := sessions w;
     sessionAuthHeaders := sessionAuthHeaders w;
     transportToSessionId := transportToSessionId w;
     clock := clock w + Z.of_N (latency net (length (netlog w)));
     netlog := netlog w ++ [r];
     files := files w |}.

(* ===================================================================== *)
(** * The handler monad: state and exceptions                             *)
(* ===================================================================== *)

(** What a handler can throw. *)
Inductive Exception : Type :=
| Error (message : string)          (* [throw new Error(message)] *)
| ZodError (issues : list string)   (* [parser.parse] failed, offending paths *)
| TypeError (message : string)      (* property read on null or undefined *)
| SyntaxError                       (* [response.json()] on a non-JSON body *)
| FetchError.                       (* [fetch] rejected *)

(** [error.message] as a [catch] block reads it.  The texts of the three
    platform errors stand for whatever the runtime words them as. *)
Definition message_of (e : Exception) : string :=
  match e with
  | Error m => m
  | ZodError issues => "Invalid input: " +:+ Text.join ", " issues
  | TypeError m => m
  | SyntaxError => "Unexpected token in JSON"
  | FetchError => "fetch failed"
  end.

Inductive Outcome (A : Type) : Type :=
| Return (a : A)
| Throw (e : Exception).
Arguments Return {A} a.
Arguments Throw {A} e.

Definition M (A : Type) : Type := World -> Outcome A * World.

Definition ret {A} (a : A) : M A := fun w => (Return a, w).

Definition bind {A B} (m : M A) (k : A -> M B) : M B :=
  fun w => match m w with
           | (Return a, w') => k a w'
           | (Throw e, w') => (Throw e, w')
           end.

Definition throw {A} (e : Exception) : M A := fun w => (Throw e, w).

(** [try { m } catch (error) { h error }]. *)
Definition try_catch {A} (m : M A) (h : Exception -> M A) : M A :=
  fun w => match m w with
           | (Return a, w') => (Return a, w')
           | (Throw e, w') => h e w'
           end.

Definition get_world : M World := fun w => (Return w, w).

Definition modify (f : World -> World) : M unit := fun w => (Return tt, f w).

(** [Date.now()]. *)
Definition Date_now : M Z := fun w => (Return (clock w), w).

#[global] Instance M_ret : MRet M := @ret.
#[global] Instance M_bind : MBind M := fun A B k m => bind m k.

(** [response.ok]. *)
Definition ok (status : Z) : bool := (200 <=? status) && (status <=? 299).

(** [await fetch(...)] against the token endpoint and against the API. *)
Definition fetch_token (net : Network) (form : list (string * string))
    : M (HttpReply TokenData) :=
  fun w => (Return (token_endpoint net (length (netlog w)) form),
            after_request net (TokenRequest form) w).

Definition fetch_api (net : Network) (req : ApiRequest) : M (HttpReply JSON) :=
  fun w => (Return (api_endpoint net (length (netlog w)) req),
            after_request net (ApiCall req) w).

(* ===================================================================== *)
(** * OAuth helper functions                                              *)
(* ===================================================================== *)

Definition scopes : list string :=
  [ "data.records:read"; "data.records:write"; "data.recordComments:read";
    "data.recordComments:write"; "schema.bases:read"; "webhook:manage" ].

Definition generateAuthUrl (cfg : Config) (state : string) : string :=
  let params :=
    [ ("client_id", AIRTABLE_CLIENT_ID cfg);
      ("redirect_uri", AIRTABLE_REDIRECT_URI cfg);
      ("response_type", "code");
      ("state", state);
      ("scope", Text.join " " scopes) ] in
  "https://airtable.com/oauth2/v1/authorize?" +:+ Text.search_params params.

Definition exchange_form (cfg : Config) (code : string) : list (string * string) :=
  [ ("grant_type", "authorization_code");
    ("code", code);
    ("redirect_uri", AIRTABLE_REDIRECT_URI cfg);
    ("client_id", AIRTABLE_CLIENT_ID cfg);
    ("client_secret", AIRTABLE_CLIENT_SECRET cfg) ].

Definition refresh_form (cfg : Config) (refreshToken : string) : list (string * string) :=
  [ ("grant_type", "refresh_token");
    ("refresh_token", refreshToken);
    ("client_id", AIRTABLE_CLIENT_ID cfg);
    ("client_secret", AIRTABLE_CLIENT_SECRET cfg) ].

(** The tail shared by the two token calls: a non-ok response throws with
    its status and text, an ok one is decoded. *)
Definition token_response (what : string) (r : HttpReply TokenData) : M TokenData :=
  match r with
  | FetchFailed => throw FetchError
  | Http status text json =>
      if negb (ok status) then
        throw (Error (what +:+ pretty status +:+ " " +:+ text))
      else match json with
           | Some data => mret data
           | None => throw SyntaxError
           end
  end.

Definition exchangeCodeForToken (cfg : Config) (net : Network) (code : string)
    : M TokenData :=
  response ← fetch_token net (exchange_form cfg code);
  token_response "Failed to exchange code for token: " response.

Definition refreshAccessToken (cfg : Config) (net : Network) (refreshToken : string)
    : M TokenData :=
  response ← fetch_token net (refresh_form cfg refreshToken);
  token_response "Failed to refresh token: " response.

Definition getValidAccessToken (cfg : Config) (net : Network) (sessionId : string)
    : M string :=
  w ← get_world;
  match authSessions w !! sessionId with
  | None => throw (Error "Not authenticated. Please authenticate with Airtable first.")
  | Some session =>
      now ← Date_now;
      if now >=? expiresAt session - 5 * 60 * 1000 then
        tokenData ← refreshAccessToken cfg net (refreshToken session);
        now' ← Date_now;
        let session' := {| accessToken := access_token tokenData;
                           refreshToken := refreshToken session;
                           expiresAt := now' + expires_in tokenData * 1000 |} in
        modify (with_authSessions (insert sessionId session'));;
        mret (accessToken session')
      else mret (accessToken session)
  end.

(** [airtableApiRequest]; status 204 yields [null]. *)
Definition airtableApiRequest (cfg : Config) (net : Network) (sessionId : string)
    (endpoint : string) (method : string) (body : option JSON)
    (accessTokenOverride : option string) : M JSON :=
  accessToken ←
    match accessTokenOverride with
    | Some t => if Text.is_empty t then getValidAccessToken cfg net sessionId
                else mret t
    | None => getValidAccessToken cfg net sessionId
    end;
  response ← fetch_api net {| url := AIRTABLE_API_BASE +:+ endpoint;
                              method := method;
                              bearer := accessToken;
                              body := body |};
  match response with
  | FetchFailed => throw FetchError
  | Http status text json =>
      if negb (ok status) then
        throw (Error ("Airtable API error: " +:+ pretty status +:+ " " +:+ text))
      else if status =? 204 then mret JNull
      else match json with
           | Some data => mret data
           | None => throw SyntaxError
           end
  end.

(* ===================================================================== *)
(** * Argument parsers (zod)                                              *)
(* ===================================================================== *)

(** The zod combinators the server uses. *)
Inductive ZodType : Type :=
| z_string
| z_number_max (bound : Z)               (* [z.number().max(bound)] *)
| z_boolean
| z_enum (values : list string)
| z_record_unknown                        (* [z.record(z.unknown())] *)
| z_optional (inner : ZodType)            (* [inner.optional()] *)
| z_array (element : ZodType) (max : option nat)
| z_object (shape : list (string * ZodType)).

Module Zod.

Definition sub_path (path key : string) : string :=
  if Text.is_empty path then key else path +:+ "." +:+ key.

(** Gather the issues and the parsed values of a list of results. *)
Fixpoint collect {A} (rs : list (list string + A)) : list string + list A :=
  match rs with
  | [] => inr []
  | r :: rest =>
      match r, collect rest with
      | inr a, inr l => inr (a :: l)
      | inr _, inl issues => inl issues
      | inl issues, inr _ => inl issues
      | inl issues, inl issues' => inl (issues ++ issues')
      end
  end.

(** [schema.safeParse(v)]: the parsed value, or the paths of the issues.
    Keys of an object that its shape does not declare are stripped. *)
Fixpoint check (t : ZodType) (path : string) (v : option JSON)
    : list string + option JSON :=
  match t with
  | z_string =>
      match v with Some (JStr _) => inr v | _ => inl [path] end
  | z_number_max bound =>
      match v with
      | Some (JNum n) => if n <=? bound then inr v else inl [path]
      | _ => inl [path]
      end
  | z_boolean =>
      match v with Some (JBool _) => inr v | _ => inl [path] end
  | z_enum values =>
      match v with
      | Some (JStr s) => if bool_decide (s ∈ values) then inr v else inl [path]
      | _ => inl [path]
      end
  | z_record_unknown =>
      match v with Some (JObj _) => inr v | _ => inl [path] end
  | z_optional inner =>
      match v with None => inr None | Some _ => check inner path v end
  | z_array element max =>
      match v with
      | Some (JArr items) =>
          let too_long :=
            match max with
            | Some m => if decide (length items ≤ m)%nat then [] else [path]
            | None => []
            end in
          let results :=
            imap (fun i x =>
                    match check element (sub_path path (pretty (Z.of_nat i))) (Some x) with
                    | inr (Some x') => inr x'
                    | inr None => inr JNull
                    | inl issues => inl issues
                    end) items in
          match collect results, too_long with
          | inr items', [] => inr (Some (JArr items'))
          | inr _, issues => inl issues
          | inl issues, issues' => inl (issues' ++ issues)
          end
      | _ => inl [path]
      end
  | z_object shape =>
      match v with
      | Some (JObj fs) =>
          let results :=
            (fix fields (shape : list (string * ZodType))
               : list (list string + (string * option JSON)) :=
               match shape with
               | [] => []
               | (k, t') :: rest =>
                   match check t' (sub_path path k) (Js.field k fs) with
                   | inr v' => inr (k, v')
                   | inl issues => inl issues
                   end :: fields rest
               end) shape in
          match collect results with
          | inr kvs => inr (Some (Js.obj kvs))
          | inl issues => inl issues
          end
      | _ => inl [path]
      end
  end.

(** [schema.parse(v)]. *)
Definition parse (t : ZodType) (v : JSON) : M JSON :=
  match check t "" (Some v) with
  | inr (Some parsed) => mret parsed
  | inr None => mret JNull
  | inl issues => throw (ZodError issues)
  end.

End Zod.

Definition baseId_tableId : list (string * ZodType) :=
  [ ("baseId", z_string); ("tableId", z_string) ].

Definition baseId_tableId_recordId : list (string * ZodType) :=
  baseId_tableId ++ [ ("recordId", z_string) ].

Definition sortSchema : ZodType :=
  z_optional (z_array (z_object [ ("field", z_string);
                                  ("direction", z_optional (z_enum ["asc"; "desc"])) ])
                      None).

Definition listBasesParser : ZodType := z_object [].
Definition getBaseSchemaParser : ZodType := z_object [ ("baseId", z_string) ].
Definition listTablesParser : ZodType := z_object [ ("baseId", z_string) ].
Definition listFieldsParser : ZodType := z_object baseId_tableId.
Definition listViewsParser : ZodType := z_object baseId_tableId.
Definition listRecordsParser : ZodType :=
  z_object (baseId_tableId ++
            [ ("view", z_optional z_string);
              ("filterByFormula", z_optional z_string);
              ("maxRecords", z_optional (z_number_max 100));
              ("pageSize", z_optional (z_number_max 100));
              ("offset", z_optional z_string);
              ("sort", sortSchema);
              ("fields", z_optional (z_array z_string None)) ]).
Definition getRecordParser : ZodType := z_object baseId_tableId_recordId.
Definition createRecordParser : ZodType :=
  z_object (baseId_tableId ++ [ ("fields", z_record_unknown) ]).
Definition updateRecordParser : ZodType :=
  z_object (baseId_tableId_recordId ++ [ ("fields", z_record_unknown) ]).
Definition replaceRecordParser : ZodType :=
  z_object (baseId_tableId_recordId ++ [ ("fields", z_record_unknown) ]).
Definition deleteRecordParser : ZodType := z_object baseId_tableId_recordId.
Definition batchCreateRecordsParser : ZodType :=
  z_object (baseId_tableId ++
            [ ("records", z_array (z_object [ ("fields", z_record_unknown) ]) (Some 10%nat)) ]).
Definition batchUpdateRecordsParser : ZodType :=
  z_object (baseId_tableId ++
            [ ("records", z_array (z_object [ ("id", z_string);
                                              ("fields", z_record_unknown) ])
                                  (Some 10%nat)) ]).
Definition batchDeleteRecordsParser : ZodType :=
  z_object (baseId_tableId ++ [ ("recordIds", z_array z_string (Some 10%nat)) ]).
Definition queryRecordsParser : ZodType :=
  z_object (baseId_tableId ++
            [ ("filterByFormula", z_optional z_string);
              ("view", z_optional z_string);
              ("maxRecords", z_optional (z_number_max 100));
              ("sort", sortSchema);
              ("fields", z_optional (z_array z_string None)) ]).
Definition getViewRecordsParser : ZodType :=
  z_object (baseId_tableId ++
            [ ("viewId", z_string); ("maxRecords", z_optional (z_number_max 100)) ]).
Definition uploadAttachmentParser : ZodType :=
  z_object (baseId_tableId_recordId ++
            [ ("fieldName", z_string); ("url", z_string);
              ("filename", z_optional z_string) ]).
Definition listAttachmentsParser : ZodType :=
  z_object (baseId_tableId_recordId ++ [ ("fieldName", z_string) ]).
Definition getCommentsParser : ZodType := z_object baseId_tableId_recordId.
Definition createCommentParser : ZodType :=
  z_object (baseId_tableId_recordId ++ [ ("text", z_string) ]).
Definition upsertRecordParser : ZodType :=
  z_object (baseId_tableId ++
            [ ("fields", z_record_unknown);
              ("typecast", z_optional z_boolean);
              ("uniqueField", z_string);
              ("uniqueValue", z_string) ]).
Definition validateSchemaCompatibilityParser : ZodType :=
  z_object (baseId_tableId ++ [ ("fields", z_record_unknown) ]).

(* ===================================================================== *)
(** * Widgets and the tool catalog                                        *)
(* ===================================================================== *)

Record AirtableWidget : Type := {
  wid : string;            (* the [id] property *)
  title : string;
  templateUri : string;
  invoking : string;
  invoked : string;
  html : string;
  responseText : string
}.

Definition widgets : list AirtableWidget :=
  [ {| wid := "list-records"; title := "List Records";
       templateUri := "ui://widget/list-records.html";
       invoking := "Loading Airtable records"; invoked := "Loaded Airtable records";
       html := ""; responseText := "Found Airtable records" |};
    {| wid := "create-records"; title := "Create Records";
       templateUri := "ui://widget/create-records.html";
       invoking := "Creating Airtable records"; invoked := "Created Airtable records";
       html := ""; responseText := "Created Airtable records" |};
    {| wid := "update-record"; title := "Update Record";
       templateUri := "ui://widget/update-record.html";
       invoking := "Updating Airtable record"; invoked := "Updated Airtable record";
       html := ""; responseText := "Updated Airtable record" |};
    {| wid := "get-record"; title := "Get Record";
       templateUri := "ui://widget/get-record.html";
       invoking := "Loading Airtable record"; invoked := "Loaded Airtable record";
       html := ""; responseText := "Found Airtable record" |};
    {| wid := "create-comment"; title := "Create Comment";
       templateUri := "ui://widget/create-comment.html";
       invoking := "Creating comment"; invoked := "Created comment";
       html := ""; responseText := "Created comment" |} ].

(** [widgets.forEach(widget => { widgetsById.set(...); widgetsByUri.set(...) })]. *)
Definition widgetsById : gmap string AirtableWidget :=
  foldl (fun m widget => <[wid widget := widget]> m) ∅ widgets.

Definition widgetsByUri : gmap string AirtableWidget :=
  foldl (fun m widget => <[templateUri widget := widget]> m) ∅ widgets.

(** [widgetMeta(widget)]; the argument is [undefined] when a lookup that the
    source asserts non-null found nothing. *)
Definition widgetMeta (widget : option AirtableWidget) : M JSON :=
  match widget with
  | None => throw (TypeError "Cannot read properties of undefined (reading 'templateUri')")
  | Some widget =>
      mret (JObj [ ("openai/outputTemplate", JStr (templateUri widget));
                   ("openai/toolInvocation/invoking", JStr (invoking widget));
                   ("openai/toolInvocation/invoked", JStr (invoked widget));
                   ("openai/widgetAccessible", JBool true);
                   ("openai/resultCanProduceWidget", JBool true) ])
  end.

(** The names of the [tools] array, in declaration order. *)
Definition tools : list string :=
  [ "list_bases"; "get_base_schema"; "list_tables"; "list_fields"; "list_views";
    "list_records"; "get_record"; "create_record"; "update_record";
    "replace_record"; "delete_record"; "batch_create_records";
    "batch_update_records"; "batch_delete_records"; "query_records";
    "get_view_records"; "upload_attachment"; "list_attachments"; "get_comments";
    "create_comment"; "upsert_record"; "validate_schema_compatibility" ].

(** The result of a tool call: one text item, the structured payload and
    the widget metadata, the last two optional. *)
Record CallToolResult : Type := {
  text : string;
  structuredContent : option JSON;
  _meta : option JSON
}.

Definition text_only (t : string) : CallToolResult :=
  {| text := t; structuredContent := None; _meta := None |}.

Definition structured (t : string) (payload : JSON) : CallToolResult :=
  {| text := t; structuredContent := Some payload; _meta := None |}.

Definition with_widget (t : string) (payload : JSON) (meta : JSON) : CallToolResult :=
  {| text := t; structuredContent := Some payload; _meta := Some meta |}.

(* ===================================================================== *)
(** * Reading the backend's answers                                       *)
(* ===================================================================== *)

(** [v.k] where [v] may be [null] or [undefined]: the read throws then. *)
Definition read (v : option JSON) (k : string) : M (option JSON) :=
  match v with
  | None =>
      throw (TypeError ("Cannot read properties of undefined (reading '" +:+ k +:+ "')"))
  | Some JNull =>
      throw (TypeError ("Cannot read properties of null (reading '" +:+ k +:+ "')"))
  | Some j => mret (Js.prop j k)
  end.

(** [`${v?.length || 0}`]. *)
Definition count_of (v : option JSON) : string :=
  Js.to_string (Js.or_else (Js.opt_prop v "length") (Some (JNum 0))).

(** [v || []]. *)
Definition or_empty (v : option JSON) : option JSON :=
  Js.or_else v (Some (JArr [])).

(** [[...v]]: arrays and strings are iterable. *)
Definition spread (v : option JSON) : M (list JSON) :=
  match v with
  | Some (JArr items) => mret items
  | Some (JStr s) => mret (Js.chars s)
  | _ => throw (TypeError "value is not iterable")
  end.

(** [v.map(f)] for a value used as an array. *)
Definition array_map (f : JSON -> M JSON) (v : option JSON) : M JSON :=
  match v with
  | Some (JArr items) => items' ← mapM f items; mret (JArr items')
  | None => throw (TypeError "Cannot read properties of undefined (reading 'map')")
  | Some JNull => throw (TypeError "Cannot read properties of null (reading 'map')")
  | Some _ => throw (TypeError "map is not a function")
  end.

(** [params.append(name, value)] guarded by [if (value)]. *)
Definition when_truthy (name : string) (v : option JSON) : list (string * string) :=
  if Js.truthy v then [(name, Js.to_string v)] else [].

(** [JSON.stringify({ field: s.field, direction: s.direction || "asc" })]
    for an entry of a parsed [sort] array. *)
Definition stringify_sort (s : JSON) : string :=
  "{" +:+ Js.quote "field" +:+ ":" +:+ Js.quote (Js.to_string (Js.prop s "field"))
      +:+ "," +:+ Js.quote "direction" +:+ ":"
      +:+ Js.quote (Js.to_string (Js.or_else (Js.prop s "direction") (Some (JStr "asc"))))
      +:+ "}".

Definition sort_params (sort : option JSON) : list (string * string) :=
  match sort with
  | Some (JArr items) => map (fun s => ("sort[]", stringify_sort s)) items
  | _ => []
  end.

Definition fields_params (name : string) (fields : option JSON) : list (string * string) :=
  match fields with
  | Some (JArr items) => map (fun f => (name, Js.to_string (Some f))) items
  | _ => []
  end.

(* ===================================================================== *)
(** * The tool-call handler of [createAirtableServer]                     *)
(* ===================================================================== *)

Section CallTool.

Context (cfg : Config) (net : Network).

(** The session id the server instance was created for. *)
Context (sessionId : string).

Section Cases.

(** The cases of [switch (toolName)].  The gate was passed with
    [accessToken]; [arguments] is [request.params.arguments ?? {}]. *)
Context (accessToken : string) (arguments : JSON).

Definition api (endpoint method : string) (body : option JSON) : M JSON :=
  airtableApiRequest cfg net sessionId endpoint method body (Some accessToken).

(** [`${args.k}`] and [args.k]. *)
Definition str (args : JSON) (k : string) : string := Js.to_string (Js.prop args k).

Definition record_path (args : JSON) : string :=
  "/" +:+ str args "baseId" +:+ "/" +:+ str args "tableId" +:+ "/" +:+ str args "recordId".

Definition table_path (args : JSON) : string :=
  "/" +:+ str args "baseId" +:+ "/" +:+ str args "tableId".

Definition case_list_bases : M CallToolResult :=
  data ← api "/meta/bases" "GET" None;
  bases ← read (Some data) "bases";
  mret (structured ("Found " +:+ count_of bases +:+ " accessible bases.")
                   (Js.obj [ ("bases", or_empty bases) ])).

Definition case_get_base_schema : M CallToolResult :=
  args ← Zod.parse getBaseSchemaParser arguments;
  data ← api ("/meta/bases/" +:+ str args "baseId" +:+ "/tables") "GET" None;
  tables ← read (Some data) "tables";
  mret (structured ("Retrieved schema for base " +:+ str args "baseId" +:+ " with "
                      +:+ count_of tables +:+ " tables.")
                   (Js.obj [ ("baseId", Js.prop args "baseId");
                             ("tables", or_empty tables) ])).

Definition case_list_tables : M CallToolResult :=
  args ← Zod.parse listTablesParser arguments;
  data ← api ("/meta/bases/" +:+ str args "baseId" +:+ "/tables") "GET" None;
  tables ← read (Some data) "tables";
  mapped ← match tables with
           | None | Some JNull => mret None
           | Some _ =>
               items ← array_map (fun t => i ← read (Some t) "id";
                                          n ← read (Some t) "name";
                                          mret (Js.obj [ ("id", i); ("name", n) ]))
                                 tables;
               mret (Some items)
           end;
  mret (structured ("Found " +:+ count_of tables +:+ " tables in base "
                      +:+ str args "baseId" +:+ ".")
                   (Js.obj [ ("baseId", Js.prop args "baseId");
                             ("tables", or_empty mapped) ])).

Definition case_list_fields : M CallToolResult :=
  args ← Zod.parse listFieldsParser arguments;
  data ← api ("/meta/bases/" +:+ str args "baseId" +:+ "/tables/" +:+ str args "tableId")
             "GET" None;
  fields ← read (Some data) "fields";
  mret (structured ("Found " +:+ count_of fields +:+ " fields in table "
                      +:+ str args "tableId" +:+ ".")
                   (Js.obj [ ("baseId", Js.prop args "baseId");
                             ("tableId", Js.prop args "tableId");
                             ("fields", or_empty fields) ])).

Definition case_list_views : M CallToolResult :=
  args ← Zod.parse listViewsParser arguments;
  data ← api ("/meta/bases/" +:+ str args "baseId" +:+ "/tables/" +:+ str args "tableId")
             "GET" None;
  views ← read (Some data) "views";
  mret (structured ("Found " +:+ count_of views +:+ " views in table "
                      +:+ str args "tableId" +:+ ".")
                   (Js.obj [ ("baseId", Js.prop args "baseId");
                             ("tableId", Js.prop args "tableId");
                             ("views", or_empty views) ])).

Definition case_list_records : M CallToolResult :=
  args ← Zod.parse listRecordsParser arguments;
  let widget := widgetsById !! "list-records" in
  let params :=
    when_truthy "view" (Js.prop args "view")
    ++ when_truthy "filterByFormula" (Js.prop args "filterByFormula")
    ++ when_truthy "maxRecords" (Js.prop args "maxRecords")
    ++ when_truthy "pageSize" (Js.prop args "pageSize")
    ++ when_truthy "offset" (Js.prop args "offset")
    ++ sort_params (Js.prop args "sort")
    ++ fields_params "fields[]" (Js.prop args "fields") in
  data ← api (table_path args +:+ "?" +:+ Text.search_params params) "GET" None;
  records ← read (Some data) "records";
  offset ← read (Some data) "offset";
  meta ← widgetMeta widget;
  mret (with_widget ("Found " +:+ count_of records +:+ " records in table "
                       +:+ str args "tableId" +:+ ".")
                    (Js.obj [ ("baseId", Js.prop args "baseId");
                              ("tableId", Js.prop args "tableId");
                              ("records", or_empty records);
                              ("offset", offset) ])
                    meta).

Definition case_get_record : M CallToolResult :=
  args ← Zod.parse getRecordParser arguments;
  let widget := widgetsById !! "get-record" in
  data ← api (record_path args) "GET" None;
  meta ← widgetMeta widget;
  mret (with_widget ("Retrieved record " +:+ str args "recordId" +:+ " from table "
                       +:+ str args "tableId" +:+ ".")
                    (Js.obj [ ("baseId", Js.prop args "baseId");
                              ("tableId", Js.prop args "tableId");
                              ("record", Some data) ])
                    meta).

Definition case_create_record : M CallToolResult :=
  args ← Zod.parse createRecordParser arguments;
  let widget := widgetsById !! "create-records" in
  data ← api (table_path args) "POST" (Some (Js.obj [ ("fields", Js.prop args "fields") ]));
  meta ← widgetMeta widget;
  mret (with_widget ("Successfully created record in table " +:+ str args "tableId" +:+ ".")
                    (Js.obj [ ("baseId", Js.prop args "baseId");
                              ("tableId", Js.prop args "tableId");
                              ("record", Some data) ])
                    meta).

Definition case_update_record : M CallToolResult :=
  args ← Zod.parse updateRecordParser arguments;
  let widget := widgetsById !! "update-record" in
  data ← api (record_path args) "PATCH" (Some (Js.obj [ ("fields", Js.prop args "fields") ]));
  meta ← widgetMeta widget;
  mret (with_widget ("Successfully updated record " +:+ str args "recordId"
                       +:+ " in table " +:+ str args "tableId" +:+ ".")
                    (Js.obj [ ("baseId", Js.prop args "baseId");
                              ("tableId", Js.prop args "tableId");
                              ("recordId", Js.prop args "recordId");
                              ("record", Some data) ])
                    meta).

Definition case_replace_record : M CallToolResult :=
  args ← Zod.parse replaceRecordParser arguments;
  data ← api (record_path args) "PUT" (Some (Js.obj [ ("fields", Js.prop args "fields") ]));
  mret (structured ("Successfully replaced record " +:+ str args "recordId"
                      +:+ " in table " +:+ str args "tableId" +:+ ".")
                   (Js.obj [ ("baseId", Js.prop args "baseId");
                             ("tableId", Js.prop args "tableId");
                             ("recordId", Js.prop args "recordId");
                             ("record", Some data) ])).

Definition case_delete_record : M CallToolResult :=
  args ← Zod.parse deleteRecordParser arguments;
  api (record_path args) "DELETE" None;;
  mret (text_only ("Successfully deleted record " +:+ str args "recordId"
                     +:+ " from table " +:+ str args "tableId" +:+ ".")).

Definition case_batch_create_records : M CallToolResult :=
  args ← Zod.parse batchCreateRecordsParser arguments;
  data ← api (table_path args) "POST" (Some (Js.obj [ ("records", Js.prop args "records") ]));
  records ← read (Some data) "records";
  mret (structured ("Successfully created " +:+ count_of records +:+ " records in table "
                      +:+ str args "tableId" +:+ ".")
                   (Js.obj [ ("baseId", Js.prop args "baseId");
                             ("tableId", Js.prop args "tableId");
                             ("records", or_empty records) ])).

Definition case_batch_update_records : M CallToolResult :=
  args ← Zod.parse batchUpdateRecordsParser arguments;
  data ← api (table_path args) "PATCH" (Some (Js.obj [ ("records", Js.prop args "records") ]));
  records ← read (Some data) "records";
  mret (structured ("Successfully updated " +:+ count_of records +:+ " records in table "
                      +:+ str args "tableId" +:+ ".")
                   (Js.obj [ ("baseId", Js.prop args "baseId");
                             ("tableId", Js.prop args "tableId");
                             ("records", or_empty records) ])).

Definition case_batch_delete_records : M CallToolResult :=
  args ← Zod.parse batchDeleteRecordsParser arguments;
  let params := fields_params "records[]" (Js.prop args "recordIds") in
  data ← api (table_path args +:+ "?" +:+ Text.search_params params) "DELETE" None;
  records ← read (Some data) "records";
  mret (structured ("Successfully deleted "
                      +:+ Js.to_string (Js.opt_prop (Js.prop args "recordIds") "length")
                      +:+ " records from table " +:+ str args "tableId" +:+ ".")
                   (Js.obj [ ("baseId", Js.prop args "baseId");
                             ("tableId", Js.prop args "tableId");
                             ("deleted", or_empty records) ])).

Definition case_query_records : M CallToolResult :=
  args ← Zod.parse queryRecordsParser arguments;
  let params :=
    when_truthy "filterByFormula" (Js.prop args "filterByFormula")
    ++ when_truthy "view" (Js.prop args "view")
    ++ when_truthy "maxRecords" (Js.prop args "maxRecords")
    ++ sort_params (Js.prop args "sort")
    ++ fields_params "fields[]" (Js.prop args "fields") in
  data ← api (table_path args +:+ "?" +:+ Text.search_params params) "GET" None;
  records ← read (Some data) "records";
  offset ← read (Some data) "offset";
  mret (structured ("Query returned " +:+ count_of records +:+ " records from table "
                      +:+ str args "tableId" +:+ ".")
                   (Js.obj [ ("baseId", Js.prop args "baseId");
                             ("tableId", Js.prop args "tableId");
                             ("records", or_empty records);
                             ("offset", offset) ])).

Definition case_get_view_records : M CallToolResult :=
  args ← Zod.parse getViewRecordsParser arguments;
  let params :=
    [ ("view", str args "viewId") ]
    ++ when_truthy "maxRecords" (Js.prop args "maxRecords") in
  data ← api (table_path args +:+ "?" +:+ Text.search_params params) "GET" None;
  records ← read (Some data) "records";
  mret (structured ("View " +:+ str args "viewId" +:+ " contains " +:+ count_of records
                      +:+ " records.")
                   (Js.obj [ ("baseId", Js.prop args "baseId");
                             ("tableId", Js.prop args "tableId");
                             ("viewId", Js.prop args "viewId");
                             ("records", or_empty records) ])).

(** [args.url.split('/').pop()]. *)
Definition last_segment (u : string) : option JSON :=
  JStr <$> last (Text.split "/" u).

Definition case_upload_attachment : M CallToolResult :=
  args ← Zod.parse uploadAttachmentParser arguments;
  record ← api (record_path args) "GET" None;
  fields ← read (Some record) "fields";
  current ← read fields (str args "fieldName");
  let currentAttachments := or_empty current in
  let newAttachment :=
    Js.obj [ ("url", Js.prop args "url");
             ("filename",
              Js.or_else (Js.or_else (Js.prop args "filename")
                                     (last_segment (str args "url")))
                         (Some (JStr "attachment"))) ] in
  items ← spread currentAttachments;
  let updatedFields := JObj [ (str args "fieldName", JArr (items ++ [newAttachment])) ] in
  api (record_path args) "PATCH" (Some (JObj [ ("fields", updatedFields) ]));;
  mret (structured ("Successfully attached file to record " +:+ str args "recordId" +:+ ".")
                   (Js.obj [ ("baseId", Js.prop args "baseId");
                             ("tableId", Js.prop args "tableId");
                             ("recordId", Js.prop args "recordId");
                             ("attachment", Some newAttachment) ])).

Definition case_list_attachments : M CallToolResult :=
  args ← Zod.parse listAttachmentsParser arguments;
  record ← api (record_path args) "GET" None;
  fields ← read (Some record) "fields";
  current ← read fields (str args "fieldName");
  let attachments := or_empty current in
  mret (structured ("Found " +:+ Js.to_string (Js.opt_prop attachments "length")
                      +:+ " attachments on record " +:+ str args "recordId" +:+ ".")
                   (Js.obj [ ("baseId", Js.prop args "baseId");
                             ("tableId", Js.prop args "tableId");
                             ("recordId", Js.prop args "recordId");
                             ("fieldName", Js.prop args "fieldName");
                             ("attachments", attachments) ])).

Definition case_get_comments : M CallToolResult :=
  args ← Zod.parse getCommentsParser arguments;
  try_catch
    (data ← api (record_path args +:+ "/comments") "GET" None;
     comments ← read (Some data) "comments";
     mret (structured ("Found " +:+ count_of comments +:+ " comments on record "
                         +:+ str args "recordId" +:+ ".")
                      (Js.obj [ ("baseId", Js.prop args "baseId");
                                ("tableId", Js.prop args "tableId");
                                ("recordId", Js.prop args "recordId");
                                ("comments", or_empty comments) ])))
    (fun error =>
       mret (text_only ("Comments API not available or record does not support comments: "
                          +:+ message_of error))).

Definition case_create_comment : M CallToolResult :=
  args ← Zod.parse createCommentParser arguments;
  let widget := widgetsById !! "create-comment" in
  try_catch
    (data ← api (record_path args +:+ "/comments") "POST"
                (Some (Js.obj [ ("text", Js.prop args "text") ]));
     meta ← widgetMeta widget;
     mret (with_widget ("Successfully created comment on record "
                          +:+ str args "recordId" +:+ ".")
                       (Js.obj [ ("baseId", Js.prop args "baseId");
                                 ("tableId", Js.prop args "tableId");
                                 ("recordId", Js.prop args "recordId");
                                 ("comment", Some data) ])
                       meta))
    (fun error => mret (text_only ("Failed to create comment: " +:+ message_of error))).

Definition dquote : string := String (ascii_of_N 34) "".

Definition case_upsert_record : M CallToolResult :=
  args ← Zod.parse upsertRecordParser arguments;
  let searchParams :=
    [ ("filterByFormula",
       "{" +:+ str args "uniqueField" +:+ "}=" +:+ dquote +:+ str args "uniqueValue"
           +:+ dquote) ] in
  searchResult ← api (table_path args +:+ "?" +:+ Text.search_params searchParams) "GET" None;
  records ← read (Some searchResult) "records";
  let payload := Js.obj [ ("fields", Js.prop args "fields");
                          ("typecast", Js.prop args "typecast") ] in
  if Js.truthy records && Js.gt_zero (Js.opt_prop records "length") then
    first ← read records "0";
    recordId ← read first "id";
    data ← api (table_path args +:+ "/" +:+ Js.to_string recordId) "PATCH" (Some payload);
    mret (structured ("Updated existing record " +:+ Js.to_string recordId +:+ " in table "
                        +:+ str args "tableId" +:+ ".")
                     (Js.obj [ ("baseId", Js.prop args "baseId");
                               ("tableId", Js.prop args "tableId");
                               ("recordId", recordId);
                               ("record", Some data);
                               ("action", Some (JStr "updated")) ]))
  else
    data ← api (table_path args) "POST" (Some payload);
    mret (structured ("Created new record in table " +:+ str args "tableId" +:+ ".")
                     (Js.obj [ ("baseId", Js.prop args "baseId");
                               ("tableId", Js.prop args "tableId");
                               ("record", Some data);
                               ("action", Some (JStr "created")) ])).

(** [fieldMap.get(fieldName)] on the entries [[f.name, f]]: the last entry
    whose key is the string [fieldName]. *)
Definition fieldMap_get (entries : list (option JSON * JSON)) (fieldName : string)
    : option JSON :=
  snd <$> last (List.filter (fun e => match e.1 with
                                      | Some (JStr name) => bool_decide (name = fieldName)
                                      | _ => false
                                      end) entries).

(** The inner [switch (field.type)] with its type tests. *)
Definition type_check (type : option JSON) (value : JSON) : bool * JSON :=
  let expect (valid : bool) (what : string) : bool * JSON :=
    (valid, if valid then JNull
            else JStr ("Expected " +:+ what +:+ ", got " +:+ Js.typeof value)) in
  match type with
  | Some (JStr t) =>
      if bool_decide (t ∈ ["singleLineText"; "multilineText"; "email"; "url"; "phoneNumber"])
      then expect (bool_decide (Js.typeof value = "string")) "string"
      else if bool_decide (t ∈ ["number"; "percent"; "currency"])
      then expect (bool_decide (Js.typeof value = "number")) "number"
      else if bool_decide (t ∈ ["date"; "dateTime"])
      then expect (bool_decide (Js.typeof value = "string")) "date string"
      else if bool_decide (t = "checkbox")
      then expect (bool_decide (Js.typeof value = "boolean")) "boolean"
      else if bool_decide (t ∈ ["multipleSelects"; "multipleRecordLinks"])
      then expect (Js.isArray value) "array"
      else (true, JNull)
  | _ => (true, JNull)
  end.

Definition validate_field (entries : list (option JSON * JSON)) (entry : string * JSON)
    : bool * JSON :=
  let '(fieldName, value) := entry in
  let field := fieldMap_get entries fieldName in
  if negb (Js.truthy field) then
    (false, Js.obj [ ("field", Some (JStr fieldName));
                     ("valid", Some (JBool false));
                     ("error", Some (JStr "Field does not exist in table")) ])
  else
    let type := Js.opt_prop field "type" in
    let '(valid, error) := type_check type value in
    (valid, Js.obj [ ("field", Some (JStr fieldName));
                     ("valid", Some (JBool valid));
                     ("error", Some error);
                     ("fieldType", type) ]).

Definition object_entries (v : option JSON) : list (string * JSON) :=
  match v with Some (JObj fs) => fs | _ => [] end.

Definition case_validate_schema_compatibility : M CallToolResult :=
  args ← Zod.parse validateSchemaCompatibilityParser arguments;
  schema ← api ("/meta/bases/" +:+ str args "baseId" +:+ "/tables/" +:+ str args "tableId")
               "GET" None;
  fields ← read (Some schema) "fields";
  entries ← match fields with
            | Some (JArr items) =>
                mapM (fun f => name ← read (Some f) "name"; mret (name, f)) items
            | None => throw (TypeError "Cannot read properties of undefined (reading 'map')")
            | Some JNull => throw (TypeError "Cannot read properties of null (reading 'map')")
            | Some _ => throw (TypeError "schema.fields.map is not a function")
            end;
  let results := map (validate_field entries) (object_entries (Js.prop args "fields")) in
  let allValid := forallb fst results in
  mret (structured (if allValid
                    then "All fields are compatible with the table schema."
                    else "Some fields are incompatible with the table schema.")
                   (Js.obj [ ("baseId", Js.prop args "baseId");
                             ("tableId", Js.prop args "tableId");
                             ("valid", Some (JBool allValid));
                             ("validationResults", Some (JArr (map snd results))) ])).

End Cases.

(** [switch (toolName) { case ...: ... default: throw ... }]. *)
Definition cases (accessToken : string) (arguments : JSON)
    : list (string * M CallToolResult) :=
  [ ("list_bases", case_list_bases accessToken);
    ("get_base_schema", case_get_base_schema accessToken arguments);
    ("list_tables", case_list_tables accessToken arguments);
    ("list_fields", case_list_fields accessToken arguments);
    ("list_views", case_list_views accessToken arguments);
    ("list_records", case_list_records accessToken arguments);
    ("get_record", case_get_record accessToken arguments);
    ("create_record", case_create_record accessToken arguments);
    ("update_record", case_update_record accessToken arguments);
    ("replace_record", case_replace_record accessToken arguments);
    ("delete_record", case_delete_record accessToken arguments);
    ("batch_create_records", case_batch_create_records accessToken arguments);
    ("batch_update_records", case_batch_update_records accessToken arguments);
    ("batch_delete_records", case_batch_delete_records accessToken arguments);
    ("query_records", case_query_records accessToken arguments);
    ("get_view_records", case_get_view_records accessToken arguments);
    ("upload_attachment", case_upload_attachment accessToken arguments);
    ("list_attachments", case_list_attachments accessToken arguments);
    ("get_comments", case_get_comments accessToken arguments);
    ("create_comment", case_create_comment accessToken arguments);
    ("upsert_record", case_upsert_record accessToken arguments);
    ("validate_schema_compatibility",
     case_validate_schema_compatibility accessToken arguments) ].

Fixpoint find_case {A} (name : string) (cs : list (string * A)) : option A :=
  match cs with
  | [] => None
  | (label, body) :: rest =>
      if decide (name = label) then Some body else find_case name rest
  end.

Definition switch (toolName : string) (accessToken : string) (arguments : JSON)
    : M CallToolResult :=
  match find_case toolName (cases accessToken arguments) with
  | Some body => body
  | None => throw (Error ("Unknown tool: " +:+ toolName))
  end.

(** [request.params.arguments ?? {}]. *)
Definition arguments_or_empty (arguments : option JSON) : JSON :=
  match arguments with
  | None | Some JNull => JObj []
  | Some v => v
  end.

(** The authorization gate: the stored token of the session, else the
    bearer value of the header cached for it, which is then adopted into
    [authSessions]; [None] is the [null] the variable starts with. *)
Definition resolve_credential : M (option string) :=
  w ← get_world;
  match authSessions w !! sessionId with
  | Some _ =>
      token ← getValidAccessToken cfg net sessionId;
      mret (Some token)
  | None =>
      match sessionAuthHeaders w !! sessionId with
      | Some storedAuthHeader =>
          if negb (Text.is_empty storedAuthHeader)
             && Text.startsWith storedAuthHeader "Bearer "
          then
            let token := Text.substring_from 7 storedAuthHeader in
            now ← Date_now;
            modify (with_authSessions
                      (insert sessionId {| accessToken := token;
                                           refreshToken := "";
                                           expiresAt := now + 3600000 |}));;
            mret (Some token)
          else mret None
      | None => mret None
      end
  end.

(** No credential: a state is issued for the session and the caller is
    given the authorization URL, as an ordinary result. *)
Definition request_authorization (randomBytes : list ascii) : M CallToolResult :=
  let state := Text.to_hex randomBytes in
  now ← Date_now;
  modify (with_pendingAuthStates (insert state (Build_PendingAuth sessionId now)));;
  mret (text_only ("Please authenticate with Airtable to use this feature. Visit: "
                     +:+ generateAuthUrl cfg state)).

(** The handler registered for [CallToolRequestSchema].  [randomBytes] is
    what [crypto.randomBytes(16)] draws when the call needs a state. *)
Definition callTool (toolName : string) (arguments : option JSON)
    (randomBytes : list ascii) : M CallToolResult :=
  accessToken ← resolve_credential;
  match accessToken with
  | Some token =>
      if Text.is_empty token then request_authorization randomBytes
      else switch toolName token (arguments_or_empty arguments)
  | None => request_authorization randomBytes
  end.

End CallTool.

(* ===================================================================== *)
(** * Paths and the file system                                           *)
(* ===================================================================== *)

(** [node:path] on POSIX. *)
Module Path.

Definition segments (p : string) : list string := Text.split "/" p.

(** One step of [normalizeString]: empty and [.] segments vanish, [..]
    removes the segment before it, or stays when there is none to remove
    and the path may climb above its start. *)
Definition step (allowAboveRoot : bool) (acc : list string) (seg : string) : list string :=
  if decide (seg = "") then acc
  else if decide (seg = ".") then acc
  else if decide (seg = "..") then
    match last acc with
    | Some prev =>
        if decide (prev = "..") then
          (if allowAboveRoot then acc ++ [".."] else acc)
        else removelast acc
    | None => if allowAboveRoot then [".."] else []
    end
  else acc ++ [seg].

Definition normalizeString (p : string) (allowAboveRoot : bool) : string :=
  Text.join "/" (foldl (step allowAboveRoot) [] (segments p)).

Definition isAbsolute (p : string) : bool := Text.startsWith p "/".

Definition normalize (p : string) : string :=
  if Text.is_empty p then "."
  else
    let absolute := isAbsolute p in
    let trailingSeparator := Text.endsWith p "/" in
    let q := normalizeString p (negb absolute) in
    if Text.is_empty q then
      (if absolute then "/" else if trailingSeparator then "./" else ".")
    else
      let q' := if trailingSeparator then q +:+ "/" else q in
      if absolute then "/" +:+ q' else q'.

Definition join (parts : list string) : string :=
  match List.filter (fun p => negb (Text.is_empty p)) parts with
  | [] => "."
  | parts' => normalize (Text.join "/" parts')
  end.

(** The right-to-left scan of [resolve]: parts are prepended until one of
    them is absolute. *)
Fixpoint gather (parts_rev : list string) (acc : string) : string * bool :=
  match parts_rev with
  | [] => (acc, false)
  | p :: rest =>
      if Text.is_empty p then gather rest acc
      else if isAbsolute p then (p +:+ "/" +:+ acc, true)
      else gather rest (p +:+ "/" +:+ acc)
  end.

Definition resolve (cwd : string) (parts : list string) : string :=
  let '(raw, absolute) := gather (rev (cwd :: parts)) "" in
  let q := normalizeString raw (negb absolute) in
  if absolute then "/" +:+ q
  else if Text.is_empty q then "." else q.

(** [path.extname(p).toLowerCase()] for ASCII names. *)
Definition lower (c : ascii) : ascii :=
  let n := N_of_ascii c in
  if ((65 <=? n) && (n <=? 90))%N then ascii_of_N (n + 32) else c.

Fixpoint toLowerCase (s : string) : string :=
  match s with
  | EmptyString => ""
  | String c s' => String (lower c) (toLowerCase s')
  end.

Definition extname (p : string) : string :=
  match last (segments p) with
  | Some (String c rest) =>
      match Text.split "." rest with
      | (_ :: _ :: _) as pieces => "." +:+ default "" (last pieces)
      | _ => ""
      end
  | _ => ""
  end.

End Path.

Definition ROOT_DIR (cfg : Config) : string :=
  Path.resolve (cwd cfg) [dirname cfg; ".."; ".."].

Definition ASSETS_DIR (cfg : Config) : string :=
  Path.resolve (cwd cfg) [ROOT_DIR cfg; "assets"].

(** [node:fs] over the [files] of the world. *)
Module Fs.

Definition existsSync (fs : gmap string FsNode) (p : string) : bool :=
  bool_decide (is_Some (fs !! p)).

(** [fs.statSync(p).isFile()] for a path that exists. *)
Definition isFile (fs : gmap string FsNode) (p : string) : bool :=
  match fs !! p with Some (File _) => true | _ => false end.

(** [fs.readFileSync(p, "utf8")]; [None] when the call throws. *)
Definition readFileSync (fs : gmap string FsNode) (p : string) : option string :=
  match fs !! p with Some (File content) => Some content | _ => None end.

Definition child_name (dir : string) (p : string) : option string :=
  let prefix := dir +:+ "/" in
  if Text.startsWith p prefix then
    let name := Text.substring_from (String.length prefix) p in
    match Text.split "/" name with
    | [n] => if Text.is_empty n then None else Some n
    | _ => None
    end
  else None.

(** [fs.readdirSync(dir)]; [None] when the call throws. *)
Definition readdirSync (fs : gmap string FsNode) (dir : string) : option (list string) :=
  match fs !! dir with
  | Some Dir => Some (omap (child_name dir) (map fst (map_to_list fs)))
  | _ => None
  end.

End Fs.

(* ===================================================================== *)
(** * Widget markup                                                       *)
(* ===================================================================== *)

Definition assets_not_built : string :=
  "<html><body><div id=" +:+ dquote +:+ "root" +:+ dquote
  +:+ "></div><script>console.error('Widget assets not built. Run npm run build:widgets');</script></body></html>".

Definition widget_not_found (componentName : string) : string :=
  "<html><body><div id=" +:+ dquote +:+ "root" +:+ dquote
  +:+ "></div><script>console.error('Widget HTML for " +:+ dquote +:+ componentName
  +:+ dquote +:+ " not found. Run npm run build:widgets');</script></body></html>".

(** The versioned candidates [componentName-*.html], sorted. *)
Definition candidates (componentName : string) (names : list string) : list string :=
  merge_sort Text.code_unit_le
    (List.filter (fun file => Text.startsWith file (componentName +:+ "-")
                              && Text.endsWith file ".html") names).

(** The body of the [try] block of [readWidgetHtml]; the outer [None] is a
    throw, the inner one the [null] that [htmlContents] keeps. *)
Definition versioned_or_nested (cfg : Config) (fs : gmap string FsNode)
    (componentName : string) : option (option string) :=
  names ← Fs.readdirSync fs (ASSETS_DIR cfg);
  match last (candidates componentName names) with
  | Some fallback =>
      Some <$> Fs.readFileSync fs (Path.join [ASSETS_DIR cfg; fallback])
  | None =>
      let nestedPath :=
        Path.join [ASSETS_DIR cfg; "src"; "components"; componentName +:+ ".html"] in
      if Fs.existsSync fs nestedPath
      then Some <$> Fs.readFileSync fs nestedPath
      else Some None
  end.

Definition readWidgetHtml (cfg : Config) (componentName : string) : M string :=
  w ← get_world;
  let fs := files w in
  if negb (Fs.existsSync fs (ASSETS_DIR cfg)) then mret assets_not_built
  else
    let directPath := Path.join [ASSETS_DIR cfg; componentName +:+ ".html"] in
    htmlContents ←
      (if Fs.existsSync fs directPath then
         match Fs.readFileSync fs directPath with
         | Some contents => mret (Some contents)
         | None => throw (Error ("EISDIR: illegal operation on a directory, read"))
         end
       else
         mret (default None (versioned_or_nested cfg fs componentName)));
    match htmlContents with
    | Some contents =>
        if Text.is_empty contents then mret (widget_not_found componentName)
        else mret contents
    | None => mret (widget_not_found componentName)
    end.

(** The content item of a resource read. *)
Record ResourceContents : Type := {
  rc_uri : string;
  rc_mimeType : string;
  rc_text : string;
  rc_meta : JSON
}.

(** The handler registered for [ReadResourceRequestSchema]. *)
Definition readResource (cfg : Config) (uri : string) : M ResourceContents :=
  match widgetsByUri !! uri with
  | None => throw (Error ("Unknown resource: " +:+ uri))
  | Some widget =>
      html ← (if Text.is_empty (html widget) then readWidgetHtml cfg (wid widget)
              else mret (html widget));
      meta ← widgetMeta (Some widget);
      mret {| rc_uri := templateUri widget;
              rc_mimeType := "text/html+skybridge";
              rc_text := html;
              rc_meta := meta |}
  end.

(* ===================================================================== *)
(** * The HTTP layer                                                      *)
(* ===================================================================== *)

(** [new URL(req.url, base)] as the handlers use it.  The WHATWG parser
    that produces [pathname] has already resolved every dot segment. *)
Record URL : Type := {
  pathname : string;
  searchParams : list (string * string)
}.

(** [url.searchParams.get(name)]. *)
Fixpoint searchParams_get (name : string) (ps : list (string * string)) : option string :=
  match ps with
  | [] => None
  | (k, v) :: rest => if decide (k = name) then Some v else searchParams_get name rest
  end.

Record IncomingMessage : Type := {
  req_method : string;
  req_url : option URL;
  authorization : option string      (* [req.headers.authorization] *)
}.

(** What ends up on the wire. *)
Inductive ServerResponse : Type :=
| Plain (status : Z) (body : string)
| Page (status : Z) (heading : string) (detail : string)
| NoContent                                   (* 204 *)
| EventStream                                 (* the SSE stream stays open *)
| FileStream (contentType : string) (path : string)   (* 200 *)
| ByTransport.                                (* written by the SDK transport *)

Definition status_of (r : ServerResponse) : option Z :=
  match r with
  | Plain status _ | Page status _ _ => Some status
  | NoContent => Some 204
  | EventStream | FileStream _ _ => Some 200
  | ByTransport => None
  end.

(** Outcome of an awaited call into the SDK ([server.connect],
    [transport.handlePostMessage]); a failure says whether the response
    head had been sent. *)
Inductive Attempt : Type :=
| Succeeds
| Fails (headersSent : bool).

(** What the environment decides while one request is served. *)
Record Inputs : Type := {
  transportId : string;        (* [transport.sessionId] of a new transport *)
  randomBytes : list ascii;    (* [crypto.randomBytes(16)] *)
  sdk : Attempt
}.

Definition ssePath : string := "/mcp".
Definition postPath : string := "/mcp/messages".
Definition authCallbackPath : string := "/auth/callback".

(** A truthy optional string. *)
Definition present (s : option string) : option string :=
  match s with
  | Some v => if Text.is_empty v then None else Some v
  | None => None
  end.

Definition handleSseRequest (sessionId : option string) (authHeader : option string)
    (inp : Inputs) : M ServerResponse :=
  let actualSessionId := default (Text.to_hex (randomBytes inp)) (present sessionId) in
  modify (with_transportToSessionId (insert (transportId inp) actualSessionId));;
  match present authHeader with
  | Some h => modify (with_sessionAuthHeaders (insert actualSessionId h))
  | None => mret tt
  end;;
  modify (with_sessions (insert (transportId inp)
                                {| server := actualSessionId; authHeader := authHeader |}));;
  match sdk inp with
  | Succeeds => mret EventStream
  | Fails headersSent =>
      modify (with_sessions (delete (transportId inp)));;
      mret (if headersSent then EventStream
            else Plain 500 "Failed to establish SSE connection")
  end.

(** [transport.onclose] of the transport [transportId]. *)
Definition onclose (transportId : string) : M unit :=
  w ← get_world;
  match present (transportToSessionId w !! transportId) with
  | Some mappedSessionId =>
      modify (with_sessionAuthHeaders (delete mappedSessionId));;
      modify (with_transportToSessionId (delete transportId))
  | None => mret tt
  end;;
  modify (with_sessions (delete transportId)).

Definition handlePostMessage (req : IncomingMessage) (url : URL) (inp : Inputs)
    : M ServerResponse :=
  match present (searchParams_get "sessionId" (searchParams url)) with
  | None => mret (Plain 400 "Missing sessionId query parameter")
  | Some sessionId =>
      w ← get_world;
      match sessions w !! sessionId with
      | None => mret (Plain 404 "Unknown session")
      | Some session =>
          match present (authorization req) with
          | Some authHeaderStr =>
              modify (with_sessions
                        (insert sessionId {| server := server session;
                                             authHeader := Some authHeaderStr |}));;
              match present (transportToSessionId w !! sessionId) with
              | Some actualSessionId =>
                  modify (with_sessionAuthHeaders (insert actualSessionId authHeaderStr))
              | None =>
                  modify (with_sessionAuthHeaders (insert sessionId authHeaderStr))
              end
          | None => mret tt
          end;;
          match sdk inp with
          | Succeeds => mret ByTransport
          | Fails headersSent =>
              mret (if headersSent then ByTransport
                    else Plain 500 "Failed to process message")
          end
      end
  end.

(** The sweep of [handleAuthCallback]: states older than ten minutes go. *)
Definition sweep (now : Z) (m : gmap string PendingAuth) : gmap string PendingAuth :=
  filter (fun kv => ¬ (now - createdAt kv.2 > 10 * 60 * 1000)) m.

Definition handleAuthCallback (cfg : Config) (net : Network) (url : URL)
    : M ServerResponse :=
  let code := searchParams_get "code" (searchParams url) in
  let state := searchParams_get "state" (searchParams url) in
  let error := searchParams_get "error" (searchParams url) in
  match present error with
  | Some e => mret (Page 400 "Authentication Failed" ("Error: " +:+ e))
  | None =>
      match present code, present state with
      | Some code, Some state =>
          w ← get_world;
          match pendingAuthStates w !! state with
          | None => mret (Plain 400 "Invalid or expired state parameter")
          | Some pendingAuth =>
              now ← Date_now;
              modify (with_pendingAuthStates (sweep now));;
              try_catch
                (tokenData ← exchangeCodeForToken cfg net code;
                 now' ← Date_now;
                 modify (with_authSessions
                           (insert (sessionId pendingAuth)
                                   {| accessToken := access_token tokenData;
                                      refreshToken := refresh_token tokenData;
                                      expiresAt := now' + expires_in tokenData * 1000 |}));;
                 modify (with_pendingAuthStates (delete state));;
                 mret (Page 200 "Successfully Connected to Airtable!"
                            "You can now close this window and return to your chat."))
                (fun error => mret (Page 500 "Authentication Error" (message_of error)))
          end
      | _, _ => mret (Plain 400 "Missing code or state parameter")
      end
  end.

Definition contentTypes : list (string * string) :=
  [ (".html", "text/html"); (".js", "application/javascript"); (".css", "text/css");
    (".json", "application/json"); (".png", "image/png"); (".jpg", "image/jpeg");
    (".jpeg", "image/jpeg"); (".gif", "image/gif"); (".svg", "image/svg+xml");
    (".ico", "image/x-icon") ].

(** Where a request path lands on disk. *)
Definition resolvedPath (cfg : Config) (url : URL) : string :=
  let assetPath := Text.substring_from 1 (pathname url) in
  let fullPath := Path.join [ASSETS_DIR cfg; assetPath] in
  Path.resolve (cwd cfg) [fullPath].

(** The static-asset branch of the request listener. *)
Definition serveStatic (cfg : Config) (url : URL) : M ServerResponse :=
  w ← get_world;
  let target := resolvedPath cfg url in
  if negb (Text.startsWith target (Path.resolve (cwd cfg) [ASSETS_DIR cfg])) then
    mret (Plain 403 "Forbidden")
  else if Fs.existsSync (files w) target && Fs.isFile (files w) target then
    let ext := Path.toLowerCase (Path.extname target) in
    let contentType :=
      default "application/octet-stream" (present (searchParams_get ext contentTypes)) in
    mret (FileStream contentType target)
  else mret (Plain 404 "Not Found").

(** The request listener passed to [createServer]. *)
Definition httpServer (cfg : Config) (net : Network) (req : IncomingMessage)
    (inp : Inputs) : M ServerResponse :=
  match req_url req with
  | None => mret (Plain 400 "Missing URL")
  | Some url =>
      let method_is m := bool_decide (req_method req = m) in
      let path_is p := bool_decide (pathname url = p) in
      if method_is "OPTIONS" && (path_is ssePath || path_is postPath) then mret NoContent
      else if method_is "GET" && path_is ssePath then
        handleSseRequest None (present (authorization req)) inp
      else if method_is "POST" && path_is postPath then handlePostMessage req url inp
      else if method_is "GET" && path_is authCallbackPath then
        handleAuthCallback cfg net url
      else if method_is "GET" then serveStatic cfg url
      else mret (Plain 404 "Not Found")
  end.

(* ===================================================================== *)
(** * Sample data                                                         *)
(* ===================================================================== *)

Definition sample_cfg : Config :=
  {| AIRTABLE_CLIENT_ID := "client";
     AIRTABLE_CLIENT_SECRET := "secret";
     AIRTABLE_REDIRECT_URI := "http://localhost:8006/auth/callback";
     dirname := "/app/dist/server";
     cwd := "/app" |}.

(** A token endpoint that grants every request, and one that refuses
    every request; the API answers 404 in both. *)
Definition granting_net : Network :=
  {| token_endpoint := fun _ _ =>
       Http 200 "" (Some {| access_token := "fresh"; refresh_token := "again";
                            expires_in := 3600 |});
     api_endpoint := fun _ _ => Http 404 "NOT_FOUND" None;
     latency := fun _ => 7%N |}.

Definition refusing_net : Network :=
  {| token_endpoint := fun _ _ => Http 400 "invalid_grant" None;
     api_endpoint := fun _ _ => Http 404 "NOT_FOUND" None;
     latency := fun _ => 7%N |}.

Definition empty_world (now : Z) : World :=
  {| authSessions := ∅; pendingAuthStates := ∅; sessions := ∅;
     sessionAuthHeaders := ∅; transportToSessionId := ∅;
     clock := now; netlog := []; files := ∅ |}.

Definition sample_bytes : list ascii := ["a"; "b"; "c"; "d"]%char.

Definition sample_session (expiry : Z) : AuthSession :=
  {| accessToken := "stored"; refreshToken := "refresh-1"; expiresAt := expiry |}.

Definition record_args : JSON :=
  JObj [ ("baseId", JStr "appB"); ("tableId", JStr "tblT"); ("recordId", JStr "recR") ].

(** The file system as some other process leaves it. *)
Definition with_files (f : gmap string FsNode -> gmap string FsNode) (w : World) : World :=
  {| authSessions := authSessions w;
     pendingAuthStates := pendingAuthStates w;
     sessions := sessions w;
     sessionAuthHeaders := sessionAuthHeaders w;
     transportToSessionId := transportToSessionId w;
     clock := clock w; netlog := netlog w; files := f (files w) |}.

(** The clock at a later moment. *)
Definition with_clock (now : Z) (w : World) : World :=
  {| authSessions := authSessions w;
     pendingAuthStates := pendingAuthStates w;
     sessions := sessions w;
     sessionAuthHeaders := sessionAuthHeaders w;
     transportToSessionId := transportToSessionId w;
     clock := now; netlog := netlog w; files := files w |}.

(** A world whose asset directory holds one built widget. *)
Definition built_world (markup : string) : World :=
  with_files (fun _ => list_to_map [ ("/app/assets", Dir);
                                     ("/app/assets/list-records.html", File markup) ])
             (empty_world 0).

(** A callback request and a message post. *)
Definition callback_url (code state : string) : URL :=
  {| pathname := authCallbackPath;
     searchParams := [ ("code", code); ("state", state) ] |}.

Definition get_request (u : URL) : IncomingMessage :=
  {| req_method := "GET"; req_url := Some u; authorization := None |}.

Definition post_request (u : URL) : IncomingMessage :=
  {| req_method := "POST"; req_url := Some u; authorization := None |}.

Definition sample_inputs : Inputs :=
  {| transportId := "transport-1"; randomBytes := sample_bytes; sdk := Succeeds |}.

(** A transport is registered for a session: the binding that
    [handleSseRequest] writes, with the non-empty session id it computes. *)
Definition registered (w : World) (transportId sessionId : string) : Prop :=
  transportToSessionId w !! transportId = Some sessionId /\ sessionId <> "".

(** The token endpoint grants a request: an ok status with a JSON body. *)
Definition grants (r : HttpReply TokenData) : bool :=
  match r with
  | Http status _ (Some _) => ok status
  | _ => false
  end.

(** The exception [airtableApiRequest] throws for a non-ok response. *)
Definition upstream_error (status : Z) (text : string) : Exception :=
  Error ("Airtable API error: " +:+ pretty status +:+ " " +:+ text).

(** Request number [i] of the log went to the API and was answered with
    the non-success [status] and the body [text]. *)
Definition refused_at (net : Network) (log : list NetRequest) (i : nat)
    (status : Z) (text : string) : Prop :=
  exists req json,
    log !! i = Some (ApiCall req) /\
    api_endpoint net i req = Http status text json /\
    ok status = false.

(** A computation only appends to the log, and whenever one of the API
    requests it sends is refused it throws the upstream error of that
    refusal. *)
Definition propagates {A} (net : Network) (m : M A) : Prop :=
  forall w : World,
    (exists new, netlog (m w).2 = netlog w ++ new) /\
    (forall i status text,
        (length (netlog w) <= i)%nat ->
        refused_at net (netlog (m w).2) i status text ->
        (m w).1 = Throw (upstream_error status text)).

(** A computation that leaves the world alone. *)
Definition silent {A} (m : M A) : Prop := forall w : World, (m w).2 = w.





(** The segments that [normalizeString] keeps as they are. *)
Definition keep (s : string) : Prop := s <> "" /\ s <> ".".

#[global] Instance keep_dec s : Decision (keep s).
Proof. unfold keep. apply _. Defined.

(* ===================================================================== *)
(** * The tool catalog                                                    *)
(* ===================================================================== *)

(** The [type] keyword of a JSON schema. *)
Inductive JsonType : Type := TString | TNumber | TBoolean | TArray | TObject.

(** An [inputSchema]: each declared property with its [type], the
    [required] names and [additionalProperties]. *)
Record InputSchema : Type := {
  properties : list (string * JsonType);
  required : list string;
  additionalProperties : bool
}.

Record Tool : Type := {
  name : string;
  inputSchema : InputSchema;
  boundWidget : option string;      (* the widget of [_meta: widgetMeta(...)] *)
  destructiveHint : bool;
  openWorldHint : bool;
  readOnlyHint : bool
}.

Definition listBasesSchema : InputSchema :=
  {| properties := [  ];
     required := [  ];
     additionalProperties := false |}.

Definition getBaseSchemaSchema : InputSchema :=
  {| properties := [ ("baseId", TString) ];
     required := [ "baseId" ];
     additionalProperties := false |}.

Definition listTablesSchema : InputSchema :=
  {| properties := [ ("baseId", TString) ];
     required := [ "baseId" ];
     additionalProperties := false |}.

Definition listFieldsSchema : InputSchema :=
  {| properties := [ ("baseId", TString); ("tableId", TString) ];
     required := [ "baseId"; "tableId" ];
     additionalProperties := false |}.

Definition listViewsSchema : InputSchema :=
  {| properties := [ ("baseId", TString); ("tableId", TString) ];
     required := [ "baseId"; "tableId" ];
     additionalProperties := false |}.

Definition listRecordsSchema : InputSchema :=
  {| properties := [ ("baseId", TString); ("tableId", TString);
                     ("view", TString); ("filterByFormula", TString);
                     ("maxRecords", TNumber); ("pageSize", TNumber);
                     ("offset", TString); ("sort", TArray);
                     ("fields", TArray) ];
     required := [ "baseId"; "tableId" ];
     additionalProperties := false |}.

Definition getRecordSchema : InputSchema :=
  {| properties := [ ("baseId", TString); ("tableId", TString);
                     ("recordId", TString) ];
     required := [ "baseId"; "tableId"; "recordId" ];
     additionalProperties := false |}.

Definition createRecordSchema : InputSchema :=
  {| properties := [ ("baseId", TString); ("tableId", TString);
                     ("fields", TObject) ];
     required := [ "baseId"; "tableId"; "fields" ];
     additionalProperties := false |}.

Definition updateRecordSchema : InputSchema :=
  {| properties := [ ("baseId", TString); ("tableId", TString);
                     ("recordId", TString); ("fields", TObject) ];
     required := [ "baseId"; "tableId"; "recordId"; "fields" ];
     additionalProperties := false |}.

Definition replaceRecordSchema : InputSchema :=
  {| properties := [ ("baseId", TString); ("tableId", TString);
                     ("recordId", TString); ("fields", TObject) ];
     required := [ "baseId"; "tableId"; "recordId"; "fields" ];
     additionalProperties := false |}.

Definition deleteRecordSchema : InputSchema :=
  {| properties := [ ("baseId", TString); ("tableId", TString);
                     ("recordId", TString) ];
     required := [ "baseId"; "tableId"; "recordId" ];
     additionalProperties := false |}.

Definition batchCreateRecordsSchema : InputSchema :=
  {| properties := [ ("baseId", TString); ("tableId", TString);
                     ("records", TArray) ];
     required := [ "baseId"; "tableId"; "records" ];
     additionalProperties := false |}.

Definition batchUpdateRecordsSchema : InputSchema :=
  {| properties := [ ("baseId", TString); ("tableId", TString);
                     ("records", TArray) ];
     required := [ "baseId"; "tableId"; "records" ];
     additionalProperties := false |}.

Definition batchDeleteRecordsSchema : InputSchema :=
  {| properties := [ ("baseId", TString); ("tableId", TString);
                     ("recordIds", TArray) ];
     required := [ "baseId"; "tableId"; "recordIds" ];
     additionalProperties := false |}.

Definition queryRecordsSchema : InputSchema :=
  {| properties := [ ("baseId", TString); ("tableId", TString);
                     ("filterByFormula", TString); ("view", TString);
                     ("maxRecords", TNumber); ("sort", TArray);
                     ("fields", TArray) ];
     required := [ "baseId"; "tableId" ];
     additionalProperties := false |}.

Definition getViewRecordsSchema : InputSchema :=
  {| properties := [ ("baseId", TString); ("tableId", TString);
                     ("viewId", TString); ("maxRecords", TNumber) ];
     required := [ "baseId"; "tableId"; "viewId" ];
     additionalProperties := false |}.

Definition uploadAttachmentSchema : InputSchema :=
  {| properties := [ ("baseId", TString); ("tableId", TString);
                     ("recordId", TString); ("fieldName", TString);
                     ("url", TString); ("filename", TString) ];
     required := [ "baseId"; "tableId"; "recordId"; "fieldName"; "url" ];
     additionalProperties := false |}.

Definition listAttachmentsSchema : InputSchema :=
  {| properties := [ ("baseId", TString); ("tableId", TString);
                     ("recordId", TString); ("fieldName", TString) ];
     required := [ "baseId"; "tableId"; "recordId"; "fieldName" ];
     additionalProperties := false |}.

Definition getCommentsSchema : InputSchema :=
  {| properties := [ ("baseId", TString); ("tableId", TString);
                     ("recordId", TString) ];
     required := [ "baseId"; "tableId"; "recordId" ];
     additionalProperties := false |}.

Definition createCommentSchema : InputSchema :=
  {| properties := [ ("baseId", TString); ("tableId", TString);
                     ("recordId", TString); ("text", TString) ];
     required := [ "baseId"; "tableId"; "recordId"; "text" ];
     additionalProperties := false |}.

Definition upsertRecordSchema : InputSchema :=
  {| properties := [ ("baseId", TString); ("tableId", TString);
                     ("fields", TObject); ("typecast", TBoolean);
                     ("uniqueField", TString); ("uniqueValue", TString) ];
     required := [ "baseId"; "tableId"; "fields"; "uniqueField";
                   "uniqueValue" ];
     additionalProperties := false |}.

Definition validateSchemaCompatibilitySchema : InputSchema :=
  {| properties := [ ("baseId", TString); ("tableId", TString);
                     ("fields", TObject) ];
     required := [ "baseId"; "tableId"; "fields" ];
     additionalProperties := false |}.

(** The [tools] array with what each entry declares besides its name and
    description: the input schema, the widget whose metadata it carries and
    the annotations. *)
Definition catalog : list Tool :=
  [
    {| name := "list_bases"; inputSchema := listBasesSchema;
       boundWidget := None;
       destructiveHint := false; openWorldHint := false; readOnlyHint := true |};
    {| name := "get_base_schema"; inputSchema := getBaseSchemaSchema;
       boundWidget := None;
       destructiveHint := false; openWorldHint := false; readOnlyHint := true |};
    {| name := "list_tables"; inputSchema := listTablesSchema;
       boundWidget := None;
       destructiveHint := false; openWorldHint := false; readOnlyHint := true |};
    {| name := "list_fields"; inputSchema := listFieldsSchema;
       boundWidget := None;
       destructiveHint := false; openWorldHint := false; readOnlyHint := true |};
    {| name := "list_views"; inputSchema := listViewsSchema;
       boundWidget := None;
       destructiveHint := false; openWorldHint := false; readOnlyHint := true |};
    {| name := "list_records"; inputSchema := listRecordsSchema;
       boundWidget := Some "list-records";
       destructiveHint := false; openWorldHint := false; readOnlyHint := true |};
    {| name := "get_record"; inputSchema := getRecordSchema;
       boundWidget := Some "get-record";
       destructiveHint := false; openWorldHint := false; readOnlyHint := true |};
    {| name := "create_record"; inputSchema := createRecordSchema;
       boundWidget := Some "create-records";
       destructiveHint := false; openWorldHint := false; readOnlyHint := false |};
    {| name := "update_record"; inputSchema := updateRecordSchema;
       boundWidget := Some "update-record";
       destructiveHint := false; openWorldHint := false; readOnlyHint := false |};
    {| name := "replace_record"; inputSchema := replaceRecordSchema;
       boundWidget := None;
       destructiveHint := true; openWorldHint := false; readOnlyHint := false |};
    {| name := "delete_record"; inputSchema := deleteRecordSchema;
       boundWidget := None;
       destructiveHint := true; openWorldHint := false; readOnlyHint := false |};
    {| name := "batch_create_records"; inputSchema := batchCreateRecordsSchema;
       boundWidget := None;
       destructiveHint := false; openWorldHint := false; readOnlyHint := false |};
    {| name := "batch_update_records"; inputSchema := batchUpdateRecordsSchema;
       boundWidget := None;
       destructiveHint := false; openWorldHint := false; readOnlyHint := false |};
    {| name := "batch_delete_records"; inputSchema := batchDeleteRecordsSchema;
       boundWidget := None;
       destructiveHint := true; openWorldHint := false; readOnlyHint := false |};
    {| name := "query_records"; inputSchema := queryRecordsSchema;
       boundWidget := None;
       destructiveHint := false; openWorldHint := false; readOnlyHint := true |};
    {| name := "get_view_records"; inputSchema := getViewRecordsSchema;
       boundWidget := None;
       destructiveHint := false; openWorldHint := false; readOnlyHint := true |};
    {| name := "upload_attachment"; inputSchema := uploadAttachmentSchema;
       boundWidget := None;
       destructiveHint := false; openWorldHint := false; readOnlyHint := false |};
    {| name := "list_attachments"; inputSchema := listAttachmentsSchema;
       boundWidget := None;
       destructiveHint := false; openWorldHint := false; readOnlyHint := true |};
    {| name := "get_comments"; inputSchema := getCommentsSchema;
       boundWidget := None;
       destructiveHint := false; openWorldHint := false; readOnlyHint := true |};
    {| name := "create_comment"; inputSchema := createCommentSchema;
       boundWidget := Some "create-comment";
       destructiveHint := false; openWorldHint := false; readOnlyHint := false |};
    {| name := "upsert_record"; inputSchema := upsertRecordSchema;
       boundWidget := None;
       destructiveHint := false; openWorldHint := false; readOnlyHint := false |};
    {| name := "validate_schema_compatibility"; inputSchema := validateSchemaCompatibilitySchema;
       boundWidget := None;
       destructiveHint := false; openWorldHint := false; readOnlyHint := true |} ].

(** The parser each tool is declared with; every case of the switch other
    than [list_bases] starts by applying its parser to the arguments. *)
Definition parsers : list (string * ZodType) :=
  [ ("list_bases", listBasesParser);
    ("get_base_schema", getBaseSchemaParser);
    ("list_tables", listTablesParser); ("list_fields", listFieldsParser);
    ("list_views", listViewsParser); ("list_records", listRecordsParser);
    ("get_record", getRecordParser); ("create_record", createRecordParser);
    ("update_record", updateRecordParser);
    ("replace_record", replaceRecordParser);
    ("delete_record", deleteRecordParser);
    ("batch_create_records", batchCreateRecordsParser);
    ("batch_update_records", batchUpdateRecordsParser);
    ("batch_delete_records", batchDeleteRecordsParser);
    ("query_records", queryRecordsParser);
    ("get_view_records", getViewRecordsParser);
    ("upload_attachment", uploadAttachmentParser);
    ("list_attachments", listAttachmentsParser);
    ("get_comments", getCommentsParser);
    ("create_comment", createCommentParser);
    ("upsert_record", upsertRecordParser);
    ("validate_schema_compatibility", validateSchemaCompatibilityParser) ].

(** A value is of a JSON type. *)
Definition has_type (t : JsonType) (v : JSON) : Prop :=
  match t, v with
  | TString, JStr _ | TNumber, JNum _ | TBoolean, JBool _
  | TArray, JArr _ | TObject, JObj _ => True
  | _, _ => False
  end.

(** The JSON type of the values a parser lets through. *)
Fixpoint json_type (t : ZodType) : JsonType :=
  match t with
  | z_string | z_enum _ => TString
  | z_number_max _ => TNumber
  | z_boolean => TBoolean
  | z_record_unknown | z_object _ => TObject
  | z_array _ _ => TArray
  | z_optional inner => json_type inner
  end.

Definition is_optional (t : ZodType) : bool :=
  match t with z_optional _ => true | _ => false end.

(** The result of checking one declared field of an object. *)
Definition check_field (path : string) (fs : list (string * JSON)) (kt : string * ZodType)
    : list string + (string * option JSON) :=
  match Zod.check kt.2 (Zod.sub_path path kt.1) (Js.field kt.1 fs) with
  | inr v' => inr (kt.1, v')
  | inl issues => inl issues
  end.

(** The top level of an object parser, as a schema would declare it. *)
Definition declared_properties (shape : list (string * ZodType)) : list (string * JsonType) :=
  map (fun kt => (kt.1, json_type kt.2)) shape.

Definition declared_required (shape : list (string * ZodType)) : list string :=
  map fst (List.filter (fun kt => negb (is_optional kt.2)) shape).

(** The tools that cap a batch, with the argument that holds it. *)
Definition batch_arguments : list (string * string) :=
  [ ("batch_create_records", "records"); ("batch_update_records", "records");
    ("batch_delete_records", "recordIds") ].

(** The tools that cap a number of records, with the argument that holds it. *)
Definition capped_arguments : list (string * string) :=
  [ ("list_records", "maxRecords"); ("list_records", "pageSize");
    ("query_records", "maxRecords"); ("get_view_records", "maxRecords") ].

(* ===================================================================== *)
(** * Frames and results                                                  *)
(* ===================================================================== *)

(** A computation relates every world to the world it leaves. *)
Definition keeps {A} (R : World -> World -> Prop) (m : M A) : Prop :=
  forall w : World, R w (m w).2.

(** What a tool call of session [sid] that may issue the state [st] leaves
    alone: the token state of every other session, every other pending
    state, the transport registry, the cached headers and the files; the
    clock does not run backwards. *)
Record confined_to (sid st : string) (w w' : World) : Prop := {
  other_tokens : forall sid', sid' <> sid -> authSessions w' !! sid' = authSessions w !! sid';
  other_states : forall st', st' <> st -> pendingAuthStates w' !! st' = pendingAuthStates w !! st';
  same_sessions : sessions w' = sessions w;
  same_headers : sessionAuthHeaders w' = sessionAuthHeaders w;
  same_bindings : transportToSessionId w' = transportToSessionId w;
  same_files : files w' = files w;
  clock_forward : clock w <= clock w'
}.

(** The log grew by requests that all satisfy [P]. *)
Definition appended (P : NetRequest -> Prop) (w w' : World) : Prop :=
  exists new, netlog w' = netlog w ++ new /\ Forall P new.

(** A request to the backend API satisfies [P]; requests to the token
    endpoint are not constrained. *)
Definition api_request (P : ApiRequest -> Prop) (r : NetRequest) : Prop :=
  match r with
  | ApiCall req => P req
  | TokenRequest _ => True
  end.

(** A backend request carries the credential [token], and the text of its
    URL begins with [AIRTABLE_API_BASE]. *)
Definition authorized_by (token : string) (req : ApiRequest) : Prop :=
  bearer req = token /\ Text.startsWith (url req) AIRTABLE_API_BASE = true.

(** Every value a computation returns satisfies [Q]. *)
Definition yields {A} (Q : A -> Prop) (m : M A) : Prop :=
  forall (w : World) a w', m w = (Return a, w') -> Q a.

(** The value of [widgetMeta(widget)]. *)
Definition widget_meta (widget : AirtableWidget) : JSON :=
  JObj [ ("openai/outputTemplate", JStr (templateUri widget));
         ("openai/toolInvocation/invoking", JStr (invoking widget));
         ("openai/toolInvocation/invoked", JStr (invoked widget));
         ("openai/widgetAccessible", JBool true);
         ("openai/resultCanProduceWidget", JBool true) ].

(** The [_meta] of a catalog entry. *)
Definition declared_meta (tool : Tool) : option JSON :=
  id ← boundWidget tool; widget ← widgetsById !! id; Some (widget_meta widget).

(** Every token the endpoint grants has a positive lifetime. *)
Definition positive_lifetimes (net : Network) : Prop :=
  forall n form status text data,
    token_endpoint net n form = Http status text (Some data) -> 0 < expires_in data.

(** The [try] block of [handleAuthCallback] with its [catch]: what runs
    once the state has been found and the store swept. *)
Definition exchange_and_install (cfg : Config) (net : Network) (code state : string)
    (pendingAuth : PendingAuth) : M ServerResponse :=
  try_catch
    (tokenData ← exchangeCodeForToken cfg net code;
     now' ← Date_now;
     modify (with_authSessions
               (insert (sessionId pendingAuth)
                       {| accessToken := access_token tokenData;
                          refreshToken := refresh_token tokenData;
                          expiresAt := now' + expires_in tokenData * 1000 |}));;
     modify (with_pendingAuthStates (delete state));;
     mret (Page 200 "Successfully Connected to Airtable!"
                "You can now close this window and return to your chat."))
    (fun error => mret (Page 500 "Authentication Error" (message_of error))).

(* ===================================================================== *)
(** * More sample data                                                    *)
(* ===================================================================== *)

(** A backend that answers every request with one record; the token
    endpoint grants as [granting_net] does. *)
Definition serving_net : Network :=
  {| token_endpoint := token_endpoint granting_net;
     api_endpoint := fun _ _ =>
       Http 200 "" (Some (JObj [ ("id", JStr "recR"); ("fields", JObj []) ]));
     latency := fun _ => 7%N |}.

(** A session whose transport delivered a bearer token. *)
Definition delegated_world : World :=
  with_sessionAuthHeaders (insert "s1" "Bearer pat") (empty_world 0).

(** Two entries of the catalog. *)
Definition get_record_tool : Tool :=
  {| name := "get_record"; inputSchema := getRecordSchema;
     boundWidget := Some "get-record";
     destructiveHint := false; openWorldHint := false; readOnlyHint := true |}.

Definition create_record_tool : Tool :=
  {| name := "create_record"; inputSchema := createRecordSchema;
     boundWidget := Some "create-records";
     destructiveHint := false; openWorldHint := false; readOnlyHint := false |}.

(** A world with one pending authorization, issued at [issued] for the
    session [s1], and one for another session that is older. *)
Definition pending_world (issued now : Z) : World :=
  with_pendingAuthStates
    (fun _ => list_to_map [ ("61626364", {| sessionId := "s1"; createdAt := issued |});
                            ("0a0b0c0d", {| sessionId := "s2"; createdAt := 0 |}) ])
    (empty_world now).

(** An asset directory with two versioned builds of one widget. *)
Definition versioned_world : World :=
  with_files (fun _ => list_to_map [ ("/app/assets", Dir);
                                     ("/app/assets/get-record-2d2e.html", File "<p>old</p>");
                                     ("/app/assets/get-record-9f3a.html", File "<p>new</p>") ])
             (empty_world 0).

(* ===================================================================== *)
(** * Properties                                                          *)
(* ===================================================================== *)

(** Unfold the monadic plumbing of a handler run. *)
Ltac run :=
  unfold mbind, mret, M_bind, M_ret, bind, ret, throw, try_catch, modify,
    get_world, Date_now in *; cbn beta iota in *.

(** ** The primitives on examples *)

Example hex_of_bytes : Text.to_hex ["000"; "a"; "255"]%char = "0061ff".
Proof. reflexivity. Qed.

Example form_encoding :
  Text.search_params [ ("sort[]", "a b"); ("q", "x&y=z") ] = "sort%5B%5D=a+b&q=x%26y%3Dz".
Proof. reflexivity. Qed.

Example join_keeps_the_trailing_slash :
  Path.join ["/app/assets"; "a//b/./c/"] = "/app/assets/a/b/c/".
Proof. reflexivity. Qed.

Example resolve_drops_the_trailing_slash :
  Path.resolve "/srv" ["/app/assets/a/b/c/"] = "/app/assets/a/b/c".
Proof. reflexivity. Qed.

Example assets_dir_of_the_sample : ASSETS_DIR sample_cfg = "/app/assets".
Proof. reflexivity. Qed.

Example direct_match_comes_first :
  (readWidgetHtml sample_cfg "widget"
     (with_files (fun _ => list_to_map [ ("/app/assets", Dir);
                                         ("/app/assets/widget.html", File "direct");
                                         ("/app/assets/widget-aaa.html", File "aaa");
                                         ("/app/assets/widget-bbb.html", File "bbb") ])
                 (empty_world 0))).1 = Return "direct".
Proof. vm_compute. reflexivity. Qed.

Example last_version_wins :
  (readWidgetHtml sample_cfg "widget"
     (with_files (fun _ => list_to_map [ ("/app/assets", Dir);
                                         ("/app/assets/widget-bbb.html", File "bbb");
                                         ("/app/assets/widget-aaa.html", File "aaa") ])
                 (empty_world 0))).1 = Return "bbb".
Proof. vm_compute. reflexivity. Qed.

Example nothing_to_serve_is_a_placeholder :
  (readWidgetHtml sample_cfg "widget"
     (with_files (fun _ => {[ "/app/assets" := Dir ]}) (empty_world 0))).1
  = Return (widget_not_found "widget").
Proof. vm_compute. reflexivity. Qed.

(** ** The authorization gate *)

Lemma resolve_credential_none cfg net sid w :
  authSessions w !! sid = None ->
  sessionAuthHeaders w !! sid = None ->
  resolve_credential cfg net sid w = (Return None, w).
Proof.
  intros Hauth Hhdr. unfold resolve_credential. run.
  rewrite Hauth, Hhdr. reflexivity.
Qed.

(** C1.  A tool call for a session that has neither an entry in
    [authSessions] nor a cached [Authorization] header returns normally,
    whatever the tool name and the arguments: the result is the single text
    item that asks the user to authenticate and ends with the authorization
    URL built for a freshly issued state, and the only write is the
    registration of that state for the session.  Nothing is thrown. *)
Theorem missing_auth_yields_authorization_url
    cfg net sid toolName arguments rnd (w : World) :
  authSessions w !! sid = None ->
  sessionAuthHeaders w !! sid = None ->
  callTool cfg net sid toolName arguments rnd w =
    (Return (text_only ("Please authenticate with Airtable to use this feature. Visit: "
                          +:+ "https://airtable.com/oauth2/v1/authorize?"
                          +:+ Text.search_params
                                [ ("client_id", AIRTABLE_CLIENT_ID cfg);
                                  ("redirect_uri", AIRTABLE_REDIRECT_URI cfg);
                                  ("response_type", "code");
                                  ("state", Text.to_hex rnd);
                                  ("scope", Text.join " " scopes) ])),
     with_pendingAuthStates
       (insert (Text.to_hex rnd) {| sessionId := sid; createdAt := clock w |}) w).
Proof.
  intros Hauth Hhdr. unfold callTool.
  unfold mbind at 1, M_bind, bind.
  rewrite (resolve_credential_none _ _ _ _ Hauth Hhdr).
  reflexivity.
Qed.

(** ** The token store *)

(** C2.  For a session with a stored token: while the clock is more than
    five minutes before the expiry, [getValidAccessToken] returns the stored
    access token and leaves the world as it is, so no request is sent; once
    fewer than five minutes remain it sends exactly one request, the refresh
    of the stored refresh token, and when the token endpoint grants it the
    new access token is returned and stored together with an expiry counted
    from the moment the answer arrived. *)
Theorem acquire_refresh_policy cfg net sid (w : World) session :
  authSessions w !! sid = Some session ->
  (clock w < expiresAt session - 5 * 60 * 1000 ->
   getValidAccessToken cfg net sid w = (Return (accessToken session), w))
  /\ (expiresAt session - clock w < 5 * 60 * 1000 ->
   let form := refresh_form cfg (refreshToken session) in
   let w1 := after_request net (TokenRequest form) w in
   netlog (getValidAccessToken cfg net sid w).2 = netlog w ++ [TokenRequest form]
   /\ forall status text data,
     token_endpoint net (length (netlog w)) form = Http status text (Some data) ->
     ok status = true ->
     getValidAccessToken cfg net sid w =
       (Return (access_token data),
        with_authSessions
          (insert sid {| accessToken := access_token data;
                         refreshToken := refreshToken session;
                         expiresAt := clock w1 + expires_in data * 1000 |}) w1)).
Proof.
  intros Hs. split.
  - intros Hearly. unfold getValidAccessToken. run. rewrite Hs.
    destruct (Z.geb_spec (clock w) (expiresAt session - 5 * 60 * 1000)); [lia|done].
  - intros Hlate form w1.
    unfold getValidAccessToken, refreshAccessToken, fetch_token, token_response. run.
    rewrite Hs.
    destruct (Z.geb_spec (clock w) (expiresAt session - 5 * 60 * 1000)); [|lia].
    fold form. split.
    + destruct (token_endpoint net (length (netlog w)) form) as [|status text [data|]];
        cbn; [done| |]; destruct (ok status); cbn; done.
    + intros status text data -> Hok. cbn. rewrite Hok. cbn. reflexivity.
Qed.

Lemma acquire_refresh_policy_witness :
  getValidAccessToken sample_cfg granting_net "s1"
    (with_authSessions (insert "s1" (sample_session 1000000)) (empty_world 900000))
  = (Return "fresh",
     with_authSessions
       (insert "s1" {| accessToken := "fresh"; refreshToken := "refresh-1";
                       expiresAt := 900007 + 3600 * 1000 |})
       (after_request granting_net (TokenRequest (refresh_form sample_cfg "refresh-1"))
          (with_authSessions (insert "s1" (sample_session 1000000)) (empty_world 900000)))).
Proof.
  pose proof (acquire_refresh_policy sample_cfg granting_net "s1"
                (with_authSessions (insert "s1" (sample_session 1000000))
                   (empty_world 900000))
                (sample_session 1000000) eq_refl) as [_ Hlate].
  destruct (Hlate ltac:(cbn; lia)) as [_ Hgrant].
  exact (Hgrant 200 "" _ eq_refl eq_refl).
Defined.

Lemma missing_auth_yields_authorization_url_witness :
  (callTool sample_cfg refusing_net "s1" "list_bases" None sample_bytes (empty_world 5)).1
  = Return (text_only ("Please authenticate with Airtable to use this feature. Visit: "
      +:+ "https://airtable.com/oauth2/v1/authorize?client_id=client"
      +:+ "&redirect_uri=http%3A%2F%2Flocalhost%3A8006%2Fauth%2Fcallback"
      +:+ "&response_type=code&state=61626364"
      +:+ "&scope=data.records%3Aread+data.records%3Awrite+data.recordComments%3Aread"
      +:+ "+data.recordComments%3Awrite+schema.bases%3Aread+webhook%3Amanage")).
Proof.
  rewrite (missing_auth_yields_authorization_url sample_cfg refusing_net "s1"
             "list_bases" None sample_bytes (empty_world 5) eq_refl eq_refl).
  reflexivity.
Defined.

(** ** The transport registry *)

Lemma handleSseRequest_registers sessionId authHeader inp (w : World) :
  randomBytes inp <> [] ->
  exists sid,
    registered (handleSseRequest sessionId authHeader inp w).2 (transportId inp) sid.
Proof.
  intros Hrnd.
  exists (default (Text.to_hex (randomBytes inp)) (present sessionId)).
  assert (default (Text.to_hex (randomBytes inp)) (present sessionId) <> "") as Hne.
  { unfold present. destruct sessionId as [[|c s]|]; cbn; try done.
    all: destruct (randomBytes inp) as [|b bs]; [done|]; cbn; discriminate. }
  split; [|exact Hne].
  unfold handleSseRequest. run.
  destruct (present authHeader), (sdk inp); cbn; apply lookup_insert_eq.
Qed.




(** ** The message endpoint *)

(** C7 as amended.  A POST to the message endpoint is answered 400 when
    the [sessionId] parameter is missing or empty, and 404 when it is
    non-empty and no transport is registered under it; in both cases the
    world is untouched. *)
Theorem post_message_status cfg net req url inp (w : World) :
  req_method req = "POST" ->
  req_url req = Some url ->
  pathname url = postPath ->
  ((searchParams_get "sessionId" (searchParams url) = None \/
    searchParams_get "sessionId" (searchParams url) = Some "") ->
   httpServer cfg net req inp w =
     (Return (Plain 400 "Missing sessionId query parameter"), w))
  /\
  (forall sid,
     searchParams_get "sessionId" (searchParams url) = Some sid ->
     sid <> "" ->
     sessions w !! sid = None ->
     httpServer cfg net req inp w = (Return (Plain 404 "Unknown session"), w)).
Proof.
  intros Hm Hu Hp.
  assert (httpServer cfg net req inp w = handlePostMessage req url inp w) as ->.
  { unfold httpServer. rewrite Hu, Hm, Hp. reflexivity. }
  unfold handlePostMessage. split.
  - intros [-> | ->]; reflexivity.
  - intros sid -> Hne Hs.
    assert (present (Some sid) = Some sid) as ->.
    { destruct sid; [done|reflexivity]. }
    run. rewrite Hs. reflexivity.
Qed.

Lemma post_message_status_witness :
  httpServer sample_cfg refusing_net
    (post_request {| pathname := postPath; searchParams := [ ("sessionId", "gone") ] |})
    sample_inputs (empty_world 0)
  = (Return (Plain 404 "Unknown session"), empty_world 0).
Proof.
  refine (proj2 (post_message_status sample_cfg refusing_net
                   (post_request {| pathname := postPath;
                                    searchParams := [ ("sessionId", "gone") ] |})
                   {| pathname := postPath; searchParams := [ ("sessionId", "gone") ] |}
                   sample_inputs (empty_world 0) eq_refl eq_refl eq_refl)
                "gone" eq_refl _ eq_refl).
  discriminate.
Defined.

(** C7 as stated fails: the parameter is present, it names no registered
    transport, and the answer is 400, not 404. *)
Lemma empty_session_id_is_400 :
  let url := {| pathname := postPath; searchParams := [ ("sessionId", "") ] |} in
  let w := empty_world 0 in
  let r := (httpServer sample_cfg refusing_net (post_request url) sample_inputs w).1 in
  searchParams_get "sessionId" (searchParams url) = Some "" /\
  sessions w !! "" = None /\
  r = Return (Plain 400 "Missing sessionId query parameter") /\
  r <> Return (Plain 404 "Unknown session").
Proof. cbn. repeat split; discriminate. Qed.

(** ** Unknown tools *)

Lemma delegated_header_is_adopted cfg net sid token (w : World) :
  authSessions w !! sid = None ->
  sessionAuthHeaders w !! sid = Some ("Bearer " +:+ token) ->
  resolve_credential cfg net sid w =
    (Return (Some token),
     with_authSessions (insert sid {| accessToken := token; refreshToken := "";
                                      expiresAt := clock w + 3600000 |}) w).
Proof.
  intros Hauth Hhdr. unfold resolve_credential. run. rewrite Hauth, Hhdr.
  unfold String.append. cbn. reflexivity.
Qed.

Lemma cases_are_the_catalog cfg net sid token arguments :
  map fst (cases cfg net sid token arguments) = tools.
Proof. reflexivity. Qed.

Lemma find_case_none {A} name (cs : list (string * A)) :
  name ∉ map fst cs -> find_case name cs = None.
Proof.
  induction cs as [|[label body] cs IH]; cbn; [done|].
  intros Hnot. destruct (decide (name = label)) as [->|Hne].
  - exfalso. apply Hnot. left.
  - apply IH. intros Hin. apply Hnot. right. exact Hin.
Qed.

Lemma switch_unknown cfg net sid toolName token arguments (w : World) :
  toolName ∉ tools ->
  switch cfg net sid toolName token arguments w =
    (Throw (Error ("Unknown tool: " +:+ toolName)), w).
Proof.
  intros Hnot. unfold switch. rewrite find_case_none; [reflexivity|].
  rewrite cases_are_the_catalog. exact Hnot.
Qed.

(** C6 as amended.  A call that names a tool outside the catalog, made
    for a session whose gate yields a credential, throws
    [Error("Unknown tool: <name>")]; the world is the one the gate left. *)
Theorem unknown_tool_is_rejected_after_gate
    cfg net sid toolName arguments rnd (w w1 : World) token :
  toolName ∉ tools ->
  resolve_credential cfg net sid w = (Return (Some token), w1) ->
  token <> "" ->
  callTool cfg net sid toolName arguments rnd w =
    (Throw (Error ("Unknown tool: " +:+ toolName)), w1).
Proof.
  intros Hnot Hgate Hne. unfold callTool.
  unfold mbind at 1, M_bind, bind. rewrite Hgate.
  destruct token as [|c token]; [done|]. cbn.
  apply switch_unknown. exact Hnot.
Qed.

Lemma unknown_tool_is_rejected_after_gate_witness :
  (callTool sample_cfg refusing_net "s1" "drop_base" None sample_bytes
     (with_sessionAuthHeaders (insert "s1" "Bearer pat") (empty_world 0))).1
  = Throw (Error "Unknown tool: drop_base").
Proof.
  erewrite (unknown_tool_is_rejected_after_gate sample_cfg refusing_net "s1" "drop_base"
              None sample_bytes _ _ "pat").
  - reflexivity.
  - intros H. repeat (apply elem_of_cons in H as [H|H]; [discriminate H|]).
    by apply elem_of_nil in H.
  - apply (delegated_header_is_adopted _ _ _ "pat"); reflexivity.
  - discriminate.
Defined.

(** C6 as stated fails: with no credential for the session, a call that
    names an unknown tool returns the authentication prompt; it throws
    nothing. *)
Lemma unknown_tool_without_credential_is_prompted :
  let r := (callTool sample_cfg refusing_net "s1" "drop_base" None sample_bytes
              (empty_world 0)).1 in
  ("drop_base" ∉ tools) /\
  r = Return (text_only ("Please authenticate with Airtable to use this feature. Visit: "
                           +:+ generateAuthUrl sample_cfg "61626364")) /\
  r <> Throw (Error "Unknown tool: drop_base").
Proof.
  cbn zeta. split; [|split; [reflexivity|discriminate]].
  intros H. repeat (apply elem_of_cons in H as [H|H]; [discriminate H|]).
  by apply elem_of_nil in H.
Qed.

(** ** Delegated credentials *)

Lemma getValidAccessToken_refused cfg net sid (w : World) session :
  authSessions w !! sid = Some session ->
  clock w >= expiresAt session - 5 * 60 * 1000 ->
  grants (token_endpoint net (length (netlog w))
            (refresh_form cfg (refreshToken session))) = false ->
  exists e,
    getValidAccessToken cfg net sid w =
      (Throw e, after_request net (TokenRequest (refresh_form cfg (refreshToken session))) w).
Proof.
  intros Hs Hlate Hrefuse.
  unfold getValidAccessToken, refreshAccessToken, fetch_token, token_response. run.
  rewrite Hs.
  destruct (Z.geb_spec (clock w) (expiresAt session - 5 * 60 * 1000)); [|lia].
  destruct (token_endpoint net (length (netlog w))
              (refresh_form cfg (refreshToken session)))
    as [|status text [data|]]; cbn in *.
  - eexists; reflexivity.
  - rewrite Hrefuse. cbn. eexists; reflexivity.
  - destruct (ok status); cbn; eexists; reflexivity.
Qed.

Lemma getValidAccessToken_sends_refresh cfg net sid (w : World) session :
  authSessions w !! sid = Some session ->
  clock w >= expiresAt session - 5 * 60 * 1000 ->
  netlog (getValidAccessToken cfg net sid w).2 =
    netlog w ++ [TokenRequest (refresh_form cfg (refreshToken session))].
Proof.
  intros Hs Hlate.
  unfold getValidAccessToken, refreshAccessToken, fetch_token, token_response. run.
  rewrite Hs.
  destruct (Z.geb_spec (clock w) (expiresAt session - 5 * 60 * 1000)); [|lia].
  destruct (token_endpoint net _ _) as [|status text [data|]]; cbn;
    [reflexivity| |]; destruct (ok status); reflexivity.
Qed.

(** C10.  Once the token state of a session holds an empty refresh token
    (the state written when a delegated bearer value is adopted), the gate
    of a tool call made five minutes before its expiry or later sends the
    refresh request with the empty refresh token, and only that; when the
    token endpoint does not grant that request the call throws, and the
    token state stays as it was.  This holds whatever [Authorization]
    header is cached for the session at that moment: the header is not
    read. *)
Theorem stale_delegated_token_is_not_readopted
    cfg net sid toolName arguments rnd (w : World) session header :
  authSessions w !! sid = Some session ->
  refreshToken session = "" ->
  clock w >= expiresAt session - 5 * 60 * 1000 ->
  let w0 := with_sessionAuthHeaders (insert sid header) w in
  netlog (resolve_credential cfg net sid w0).2 =
    netlog w ++ [TokenRequest (refresh_form cfg "")]
  /\
  (grants (token_endpoint net (length (netlog w)) (refresh_form cfg "")) = false ->
   exists e,
     callTool cfg net sid toolName arguments rnd w0 =
       (Throw e, after_request net (TokenRequest (refresh_form cfg "")) w0)).
Proof.
  intros Hs Hrt Hlate w0. split.
  - pose proof (getValidAccessToken_sends_refresh cfg net sid w0 session Hs Hlate) as Hlog.
    rewrite Hrt in Hlog. unfold resolve_credential. run.
    change (authSessions w0) with (authSessions w). rewrite Hs.
    destruct (getValidAccessToken cfg net sid w0) as [[token|e] w']; exact Hlog.
  - intros Hrefuse.
    destruct (getValidAccessToken_refused cfg net sid w0 session Hs Hlate) as [e He].
    { rewrite Hrt. exact Hrefuse. }
    exists e. unfold callTool, resolve_credential. run.
    change (authSessions w0) with (authSessions w). rewrite Hs.
    rewrite He, Hrt. reflexivity.
Qed.

Lemma stale_delegated_token_is_not_readopted_witness :
  let adopted := (callTool sample_cfg refusing_net "s1" "list_bases" None sample_bytes
                    (with_sessionAuthHeaders (insert "s1" "Bearer pat") (empty_world 0))).2 in
  let later := with_files (fun fs => fs) adopted in
  authSessions adopted !! "s1" =
    Some {| accessToken := "pat"; refreshToken := ""; expiresAt := 3600000 |} /\
  exists e w',
    callTool sample_cfg refusing_net "s1" "list_bases" None sample_bytes
      (with_sessionAuthHeaders (insert "s1" "Bearer newer")
         {| authSessions := authSessions adopted;
            pendingAuthStates := pendingAuthStates adopted;
            sessions := sessions adopted;
            sessionAuthHeaders := sessionAuthHeaders adopted;
            transportToSessionId := transportToSessionId adopted;
            clock := 3300000; netlog := netlog adopted; files := files adopted |})
    = (Throw e, w').
Proof.
  intros adopted later. split; [reflexivity|].
  destruct (stale_delegated_token_is_not_readopted sample_cfg refusing_net "s1"
              "list_bases" None sample_bytes
              {| authSessions := authSessions adopted;
                 pendingAuthStates := pendingAuthStates adopted;
                 sessions := sessions adopted;
                 sessionAuthHeaders := sessionAuthHeaders adopted;
                 transportToSessionId := transportToSessionId adopted;
                 clock := 3300000; netlog := netlog adopted; files := files adopted |}
              {| accessToken := "pat"; refreshToken := ""; expiresAt := 3600000 |}
              "Bearer newer" eq_refl eq_refl ltac:(cbn; lia)) as [_ Hthrows].
  destruct (Hthrows eq_refl) as [e He].
  exists e. eexists. exact He.
Defined.

(** ** The pending-authorization store *)

(** C3, on the code.  A state is issued to session [s1] at time 0 by a
    tool call without credentials.  The callback that presents it arrives
    one millisecond after the ten minutes have passed, and no other
    callback ran in between: the state is found, the code is exchanged, the
    token is installed for [s1] and the answer is the success page. *)
Lemma expired_state_is_still_consumed :
  let issued := (callTool sample_cfg granting_net "s1" "list_bases" None sample_bytes
                   (empty_world 0)).2 in
  let late := with_clock (0 + 10 * 60 * 1000 + 1) issued in
  let r := httpServer sample_cfg granting_net
             (get_request (callback_url "code-1" "61626364")) sample_inputs late in
  pendingAuthStates issued !! "61626364" = Some {| sessionId := "s1"; createdAt := 0 |} /\
  r.1 = Return (Page 200 "Successfully Connected to Airtable!"
                     "You can now close this window and return to your chat.") /\
  authSessions r.2 !! "s1" =
    Some {| accessToken := "fresh"; refreshToken := "again";
            expiresAt := 600001 + 7 + 3600 * 1000 |} /\
  r.1 <> Return (Plain 400 "Invalid or expired state parameter").
Proof. vm_compute. repeat split; discriminate. Qed.

(** The age of a state plays no part in the lookup: whenever the state is
    in the store and the token endpoint grants the exchange, the callback
    succeeds for the session that owns the state. *)
Lemma callback_accepts_any_stored_state cfg net code state (w : World) owner status text data :
  code <> "" -> state <> "" ->
  pendingAuthStates w !! state = Some owner ->
  token_endpoint net (length (netlog w)) (exchange_form cfg code)
    = Http status text (Some data) ->
  ok status = true ->
  exists w',
    handleAuthCallback cfg net (callback_url code state) w =
      (Return (Page 200 "Successfully Connected to Airtable!"
                    "You can now close this window and return to your chat."), w') /\
    authSessions w' !! sessionId owner =
      Some {| accessToken := access_token data;
              refreshToken := refresh_token data;
              expiresAt := clock w' + expires_in data * 1000 |} /\
    pendingAuthStates w' !! state = None.
Proof.
  intros Hc Hs Hpending Hreply Hok.
  unfold handleAuthCallback, callback_url. cbn [searchParams].
  change (searchParams_get "error" _) with (@None string).
  change (searchParams_get "code" _) with (Some code).
  change (searchParams_get "state" _) with (Some state).
  cbn [present].
  destruct code as [|c code]; [done|]. destruct state as [|s state]; [done|].
  cbn [Text.is_empty].
  unfold exchangeCodeForToken, fetch_token, token_response. run.
  rewrite Hpending. cbn. rewrite Hreply. cbn. rewrite Hok. cbn.
  eexists. split; [reflexivity|]. cbn. split.
  - apply lookup_insert_eq.
  - apply lookup_delete_eq.
Qed.

(** ** Widget markup *)

Lemma lookup_foldl_insert {A} (key : A -> string) (l : list A) (m : gmap string A) k v :
  foldl (fun m x => <[key x := x]> m) m l !! k = Some v ->
  v ∈ l \/ m !! k = Some v.
Proof.
  revert m. induction l as [|x l IH]; intros m; cbn; [auto|].
  intros H. destruct (IH _ H) as [Hin|Hm].
  - left. by right.
  - destruct (decide (key x = k)) as [<-|Hne].
    + rewrite lookup_insert_eq in Hm. injection Hm as ->. left. left.
    + rewrite lookup_insert_ne in Hm by done. by right.
Qed.

Lemma no_widget_carries_markup uri widget :
  widgetsByUri !! uri = Some widget -> html widget = "".
Proof.
  intros H. apply lookup_foldl_insert in H as [Hin|Hempty].
  - unfold widgets in Hin.
    repeat (apply elem_of_cons in Hin as [->|Hin]; [reflexivity|]).
    by apply elem_of_nil in Hin.
  - by rewrite lookup_empty in Hempty.
Qed.

Lemma readWidgetHtml_reads_only cfg componentName (w : World) :
  (readWidgetHtml cfg componentName w).2 = w.
Proof.
  unfold readWidgetHtml. run.
  destruct (negb (Fs.existsSync (files w) (ASSETS_DIR cfg))); [reflexivity|].
  destruct (Fs.existsSync (files w) _).
  - destruct (Fs.readFileSync _ _) as [contents|]; [|reflexivity].
    destruct (Text.is_empty contents); reflexivity.
  - destruct (default None _) as [contents|]; [|reflexivity].
    destruct (Text.is_empty contents); reflexivity.
Qed.

(** C4 as amended.  No widget of the table carries markup, and a resource
    read writes nothing: every read of a known resource, the first and any
    later one, returns what [readWidgetHtml] finds in the file system at
    that moment, or throws what it throws. *)
Theorem resource_read_follows_the_file_system cfg uri widget (w : World) :
  widgetsByUri !! uri = Some widget ->
  html widget = "" /\
  (readResource cfg uri w).2 = w /\
  (forall markup,
     (readWidgetHtml cfg (wid widget) w).1 = Return markup ->
     exists c, (readResource cfg uri w).1 = Return c /\
               rc_uri c = templateUri widget /\ rc_text c = markup) /\
  (forall e,
     (readWidgetHtml cfg (wid widget) w).1 = Throw e ->
     (readResource cfg uri w).1 = Throw e).
Proof.
  intros Hw. pose proof (no_widget_carries_markup _ _ Hw) as Hhtml.
  split; [exact Hhtml|].
  pose proof (readWidgetHtml_reads_only cfg (wid widget) w) as Hsame.
  unfold readResource. rewrite Hw, Hhtml. cbn [Text.is_empty].
  unfold mbind at 1 3 5, M_bind, bind.
  destruct (readWidgetHtml cfg (wid widget) w) as [[markup|e] w'] eqn:E; cbn in Hsame |- *.
  - subst w'. repeat split; [|discriminate].
    intros ? [= <-]. eexists. repeat split.
  - subst w'. repeat split; [discriminate|]. by intros ? [= <-].
Qed.

Lemma resource_read_follows_the_file_system_witness :
  exists c,
    (readResource sample_cfg "ui://widget/list-records.html" (built_world "<p>v1</p>")).1
      = Return c /\
    rc_uri c = "ui://widget/list-records.html" /\ rc_text c = "<p>v1</p>".
Proof.
  destruct (resource_read_follows_the_file_system sample_cfg
              "ui://widget/list-records.html"
              {| wid := "list-records"; title := "List Records";
                 templateUri := "ui://widget/list-records.html";
                 invoking := "Loading Airtable records"; invoked := "Loaded Airtable records";
                 html := ""; responseText := "Found Airtable records" |}
              (built_world "<p>v1</p>") eq_refl) as (_ & _ & Hret & _).
  exact (Hret "<p>v1</p>" eq_refl).
Defined.

(** C4 as stated fails: the markup is loaded, the file is rebuilt, and the
    next read of the same resource returns the new file, not what was
    loaded before. *)
Lemma resource_is_read_again :
  let uri := "ui://widget/list-records.html" in
  let first := readResource sample_cfg uri (built_world "<p>v1</p>") in
  let rebuilt := with_files (insert "/app/assets/list-records.html" (File "<p>v2</p>"))
                            first.2 in
  let second := readResource sample_cfg uri rebuilt in
  exists c1 c2,
    first.1 = Return c1 /\ rc_text c1 = "<p>v1</p>" /\
    second.1 = Return c2 /\ rc_text c2 = "<p>v2</p>" /\
    rc_text c2 <> rc_text c1.
Proof.
  cbn zeta. eexists. eexists.
  split; [vm_compute; reflexivity|]. split; [reflexivity|].
  split; [vm_compute; reflexivity|]. split; [reflexivity|]. discriminate.
Qed.

(** ** Upstream errors *)

Create HintDb quiet discriminated.

Lemma silent_ret {A} (a : A) : silent (mret a).
Proof. intros w. reflexivity. Qed.

Lemma silent_throw {A} e : silent (@throw A e).
Proof. intros w. reflexivity. Qed.

Lemma silent_bind {A B} (m : M A) (k : A -> M B) :
  silent m -> (forall a, silent (k a)) -> silent (m ≫= k).
Proof.
  intros Hm Hk w. unfold mbind, M_bind, bind.
  specialize (Hm w). destruct (m w) as [[a|e] w1]; cbn in *; subst w1.
  - apply Hk.
  - reflexivity.
Qed.

Lemma silent_read v k : silent (read v k).
Proof. intros w. unfold read. destruct v as [[| | | | |]|]; reflexivity. Qed.

Lemma silent_parse t v : silent (Zod.parse t v).
Proof.
  intros w. unfold Zod.parse. destruct (Zod.check t "" (Some v)) as [|[|]]; reflexivity.
Qed.

Lemma silent_widgetMeta widget : silent (widgetMeta widget).
Proof. intros w. destruct widget; reflexivity. Qed.

Lemma silent_spread v : silent (spread v).
Proof. intros w. unfold spread. destruct v as [[| | | | |]|]; reflexivity. Qed.

Lemma silent_mapM {A B} (f : A -> M B) (l : list A) :
  (forall a, silent (f a)) -> silent (mapM f l).
Proof.
  intros Hf. induction l as [|a l IH]; cbn.
  - apply silent_ret.
  - apply silent_bind; [apply Hf|]. intros b.
    apply silent_bind; [apply IH|]. intros l'. apply silent_ret.
Qed.

#[export] Hint Resolve silent_ret silent_throw silent_read silent_parse
  silent_widgetMeta silent_spread : quiet.

Ltac quiet :=
  repeat first
    [ solve [auto with quiet]
    | apply silent_mapM; intros
    | apply silent_bind; [|intros]
    | match goal with
      | |- silent (match ?x with _ => _ end) => destruct x
      | |- silent (if ?b then _ else _) => destruct b
      | |- silent (array_map _ _) => unfold array_map
      end ].

Lemma propagates_silent {A} net (m : M A) : silent m -> propagates net m.
Proof.
  intros Hm w. rewrite Hm. split.
  - exists []. by rewrite app_nil_r.
  - intros i status text Hi (req & json & Hlook & _).
    apply lookup_lt_Some in Hlook. lia.
Qed.

Lemma propagates_bind {A B} net (m : M A) (k : A -> M B) :
  propagates net m -> (forall a, propagates net (k a)) -> propagates net (m ≫= k).
Proof.
  intros Hm Hk w. unfold mbind, M_bind, bind.
  destruct (Hm w) as [[new1 Hlog1] Hthrow1].
  destruct (m w) as [[a|e] w1] eqn:Em; cbn in *;
    [|split; [by exists new1|];
      intros i status text Hi Hr; by injection (Hthrow1 i status text Hi Hr) as ->].
  destruct (Hk a w1) as [[new2 Hlog2] Hthrow2]. split.
  - exists (new1 ++ new2). by rewrite Hlog2, Hlog1, app_assoc.
  - intros i status text Hi Hrefused.
    destruct (decide (i < length (netlog w1))%nat) as [Hlt|Hge].
    + exfalso. destruct Hrefused as (req & json & Hlook & Hreply & Hok).
      rewrite Hlog2, lookup_app_l in Hlook by done.
      specialize (Hthrow1 i status text Hi). discriminate Hthrow1.
      by exists req, json.
    + apply (Hthrow2 i); [lia|exact Hrefused].
Qed.

Lemma api_sends_one_request cfg net sid c token endpoint method body (w : World) :
  (api cfg net sid (String c token) endpoint method body w).2 =
    after_request net
      (ApiCall {| url := AIRTABLE_API_BASE +:+ endpoint; method := method;
                  bearer := String c token; body := body |}) w.
Proof.
  unfold api, airtableApiRequest, fetch_api. cbn [Text.is_empty]. run.
  destruct (api_endpoint net _ _) as [|status text json]; cbn; [done|].
  destruct (ok status); cbn; [|done].
  destruct (status =? 204); [done|]. destruct json; done.
Qed.

Lemma api_refused cfg net sid c token endpoint method body (w : World) status text json :
  api_endpoint net (length (netlog w))
    {| url := AIRTABLE_API_BASE +:+ endpoint; method := method;
       bearer := String c token; body := body |} = Http status text json ->
  ok status = false ->
  (api cfg net sid (String c token) endpoint method body w).1 =
    Throw (upstream_error status text).
Proof.
  intros Hreply Hok.
  unfold api, airtableApiRequest, fetch_api. cbn [Text.is_empty]. run.
  rewrite Hreply. cbn. rewrite Hok. reflexivity.
Qed.

Lemma propagates_api cfg net sid token endpoint method body :
  token <> "" ->
  propagates net (api cfg net sid token endpoint method body).
Proof.
  intros Hne w. destruct token as [|c token]; [done|].
  rewrite api_sends_one_request. cbn [netlog after_request]. split.
  - eexists. reflexivity.
  - intros i status text Hi (req & json & Hlook & Hreply & Hok).
    assert (i = length (netlog w)) as ->.
    { apply lookup_lt_Some in Hlook. rewrite length_app in Hlook. cbn in Hlook. lia. }
    rewrite lookup_app_r, Nat.sub_diag in Hlook by done.
    injection Hlook as <-. by eapply api_refused.
Qed.

Ltac propagate :=
  repeat first
    [ apply propagates_api; assumption
    | apply propagates_silent; solve [quiet]
    | apply propagates_bind; [|intros]
    | match goal with
      | |- propagates _ (match ?x with _ => _ end) => destruct x
      | |- propagates _ (if ?b then _ else _) => destruct b
      end ].

Lemma switch_propagates cfg net sid toolName token arguments :
  toolName <> "get_comments" ->
  toolName <> "create_comment" ->
  token <> "" ->
  propagates net (switch cfg net sid toolName token arguments).
Proof.
  intros Hgc Hcc Hne. unfold switch, cases. cbn [find_case].
  repeat (case_decide;
          [ first [ congruence
                  | unfold case_list_bases, case_get_base_schema, case_list_tables,
                      case_list_fields, case_list_views, case_list_records,
                      case_get_record, case_create_record, case_update_record,
                      case_replace_record, case_delete_record, case_batch_create_records,
                      case_batch_update_records, case_batch_delete_records,
                      case_query_records, case_get_view_records, case_upload_attachment,
                      case_list_attachments, case_upsert_record,
                      case_validate_schema_compatibility;
                    solve [propagate] ]
          | ]).
  apply propagates_silent, silent_throw.
Qed.

Lemma propagates_no_request {A} net (m : M A) :
  (forall w : World, netlog (m w).2 = netlog w) -> propagates net m.
Proof.
  intros Hm w. rewrite Hm. split.
  - exists []. by rewrite app_nil_r.
  - intros i status text Hi (req & json & Hlook & _).
    apply lookup_lt_Some in Hlook. lia.
Qed.

Lemma getValidAccessToken_propagates cfg net sid :
  propagates net (getValidAccessToken cfg net sid).
Proof.
  intros w.
  assert (netlog (getValidAccessToken cfg net sid w).2 = netlog w \/
          exists form, netlog (getValidAccessToken cfg net sid w).2
                       = netlog w ++ [TokenRequest form]) as Hlog.
  { unfold getValidAccessToken, refreshAccessToken, fetch_token, token_response. run.
    destruct (authSessions w !! sid) as [session|]; [|by left].
    destruct (clock w >=? _); [|by left]. right. eexists.
    destruct (token_endpoint net _ _) as [|status text [data|]]; cbn;
      [reflexivity| |]; destruct (ok status); reflexivity. }
  split.
  - destruct Hlog as [->|[form ->]]; [exists []; by rewrite app_nil_r|by eexists].
  - intros i status text Hi (req & json & Hlook & _). exfalso.
    destruct Hlog as [Hlog|[form Hlog]]; rewrite Hlog in Hlook.
    + apply lookup_lt_Some in Hlook. lia.
    + assert (i = length (netlog w)) as ->.
      { apply lookup_lt_Some in Hlook. rewrite length_app in Hlook. cbn in Hlook. lia. }
      rewrite lookup_app_r, Nat.sub_diag in Hlook by done. discriminate.
Qed.

Lemma callTool_propagates cfg net sid toolName arguments rnd :
  toolName <> "get_comments" ->
  toolName <> "create_comment" ->
  propagates net (callTool cfg net sid toolName arguments rnd).
Proof.
  intros Hgc Hcc. unfold callTool.
  assert (propagates net (request_authorization cfg sid rnd)) as Hprompt.
  { apply propagates_no_request. intros w. reflexivity. }
  apply propagates_bind.
  - unfold resolve_credential. apply propagates_bind.
    + apply propagates_silent. intros w. reflexivity.
    + intros w. destruct (authSessions w !! sid).
      * apply propagates_bind; [apply getValidAccessToken_propagates|].
        intros token. apply propagates_silent, silent_ret.
      * apply propagates_no_request. intros w'.
        destruct (sessionAuthHeaders w !! sid) as [h|]; [|reflexivity].
        destruct (_ && _); reflexivity.
  - intros [[|c token]|]; cbn [Text.is_empty]; [exact Hprompt| |exact Hprompt].
    by apply switch_propagates.
Qed.

(** C5 as amended.  For every tool of the catalog other than
    [get_comments] and [create_comment]: whenever a request that the call
    sends to the backend API is answered with a non-success status, the
    call throws [Error("Airtable API error: <status> <body>")] with the
    status and the body of that answer. *)
Theorem upstream_errors_propagate
    cfg net sid toolName arguments rnd (w : World) i status text :
  toolName ∈ tools ->
  toolName <> "get_comments" ->
  toolName <> "create_comment" ->
  (length (netlog w) <= i)%nat ->
  refused_at net (netlog (callTool cfg net sid toolName arguments rnd w).2) i status text ->
  (callTool cfg net sid toolName arguments rnd w).1 =
    Throw (Error ("Airtable API error: " +:+ pretty status +:+ " " +:+ text)).
Proof.
  intros _ Hgc Hcc Hi Hrefused.
  exact (proj2 (callTool_propagates cfg net sid toolName arguments rnd Hgc Hcc w)
               i status text Hi Hrefused).
Qed.

Lemma upstream_errors_propagate_witness :
  (callTool sample_cfg refusing_net "s1" "get_record" (Some record_args) sample_bytes
     (with_sessionAuthHeaders (insert "s1" "Bearer pat") (empty_world 0))).1
  = Throw (Error "Airtable API error: 404 NOT_FOUND").
Proof.
  refine (upstream_errors_propagate sample_cfg refusing_net "s1" "get_record"
            (Some record_args) sample_bytes
            (with_sessionAuthHeaders (insert "s1" "Bearer pat") (empty_world 0))
            0%nat 404 "NOT_FOUND" _ _ _ _ _).
  - do 6 right. left.
  - discriminate.
  - discriminate.
  - cbn. lia.
  - eexists. exists None. split; [vm_compute; reflexivity|]. split; reflexivity.
Defined.

(** C5 as stated fails: the backend answers the request of [get_comments]
    with 404 and the call returns an ordinary text result that quotes the
    error; nothing is thrown. *)
Lemma refused_comments_request_is_swallowed :
  let w := with_sessionAuthHeaders (insert "s1" "Bearer pat") (empty_world 0) in
  let r := callTool sample_cfg refusing_net "s1" "get_comments" (Some record_args)
             sample_bytes w in
  ("get_comments" ∈ tools) /\
  refused_at refusing_net (netlog r.2) 0 404 "NOT_FOUND" /\
  r.1 = Return (text_only ("Comments API not available or record does not support comments: "
                             +:+ "Airtable API error: 404 NOT_FOUND")) /\
  r.1 <> Throw (upstream_error 404 "NOT_FOUND").
Proof.
  cbn zeta. split; [do 18 right; left|]. split.
  - eexists. exists None. split; [vm_compute; reflexivity|]. split; reflexivity.
  - split; [vm_compute; reflexivity|]. vm_compute. discriminate.
Qed.

(** Both comment tools answer in band: once their arguments parse, they
    return a result whatever the backend does. *)
Lemma comment_tools_never_throw cfg net sid token arguments (w : World) :
  (forall args, Zod.parse getCommentsParser arguments w = (Return args, w) ->
     exists r w', case_get_comments cfg net sid token arguments w = (Return r, w')) /\
  (forall args, Zod.parse createCommentParser arguments w = (Return args, w) ->
     exists r w', case_create_comment cfg net sid token arguments w = (Return r, w')).
Proof.
  split; intros args Hparse.
  - unfold case_get_comments. unfold mbind at 1, M_bind, bind. rewrite Hparse.
    unfold try_catch.
    match goal with |- context [match ?x with _ => _ end] => destruct x as [[r|e] w'] end;
      eexists; eexists; reflexivity.
  - unfold case_create_comment. unfold mbind at 1, M_bind, bind. rewrite Hparse.
    unfold try_catch.
    match goal with |- context [match ?x with _ => _ end] => destruct x as [[r|e] w'] end;
      eexists; eexists; reflexivity.
Qed.

(** ** Static assets *)

Lemma app_cons c s t : String c s +:+ t = String c (s +:+ t).
Proof. reflexivity. Qed.

Lemma app_nil_l' t : "" +:+ t = t.
Proof. reflexivity. Qed.


Lemma str_app_assoc s t u : (s +:+ t) +:+ u = s +:+ (t +:+ u).
Proof. induction s as [|c s IH]; [done|]. by rewrite !app_cons, IH. Qed.

Lemma startsWith_app p s : Text.startsWith (p +:+ s) p = true.
Proof.
  induction p as [|c p IH]; [by destruct s|].
  rewrite app_cons. cbn. by rewrite Ascii.eqb_refl.
Qed.





























Lemma serveStatic_guard cfg url (w : World) :
  Text.startsWith (resolvedPath cfg url) (Path.resolve (cwd cfg) [ASSETS_DIR cfg]) = false ->
  serveStatic cfg url w = (Return (Plain 403 "Forbidden"), w).
Proof. intros H. unfold serveStatic. run. by rewrite H. Qed.




(** The guard of [serveStatic] by itself: a location that does not begin
    with the text of the asset directory is answered 403. *)
Lemma location_without_root_prefix_is_forbidden cfg url (w : World) :
  Text.startsWith (resolvedPath cfg url) (Path.resolve (cwd cfg) [ASSETS_DIR cfg]) = false ->
  (serveStatic cfg url w).1 = Return (Plain 403 "Forbidden").
Proof. intros H. by rewrite serveStatic_guard. Qed.


(** ** Frames: what a handler leaves alone *)

#[export] Instance confined_refl sid st : Reflexive (confined_to sid st).
Proof. intros w. split; auto. lia. Qed.

#[export] Instance confined_trans sid st : Transitive (confined_to sid st).
Proof.
  intros w1 w2 w3 H12 H23. split.
  - intros sid' ?. by rewrite (other_tokens _ _ _ _ H23), (other_tokens _ _ _ _ H12).
  - intros st' ?. by rewrite (other_states _ _ _ _ H23), (other_states _ _ _ _ H12).
  - by rewrite (same_sessions _ _ _ _ H23), (same_sessions _ _ _ _ H12).
  - by rewrite (same_headers _ _ _ _ H23), (same_headers _ _ _ _ H12).
  - by rewrite (same_bindings _ _ _ _ H23), (same_bindings _ _ _ _ H12).
  - by rewrite (same_files _ _ _ _ H23), (same_files _ _ _ _ H12).
  - pose proof (clock_forward _ _ _ _ H12). pose proof (clock_forward _ _ _ _ H23). lia.
Qed.

#[export] Instance appended_refl P : Reflexive (appended P).
Proof. intros w. exists []. by rewrite app_nil_r. Qed.

#[export] Instance appended_trans P : Transitive (appended P).
Proof.
  intros w1 w2 w3 (n1 & E1 & F1) (n2 & E2 & F2). exists (n1 ++ n2). split.
  - by rewrite E2, E1, app_assoc.
  - by apply Forall_app.
Qed.

Lemma keeps_silent {A} R `{!Reflexive R} (m : M A) : silent m -> keeps R m.
Proof. intros Hm w. by rewrite Hm. Qed.

Lemma keeps_bind {A B} R `{!Transitive R} (m : M A) (k : A -> M B) :
  keeps R m -> (forall a, keeps R (k a)) -> keeps R (m ≫= k).
Proof.
  intros Hm Hk w. unfold mbind, M_bind, bind. specialize (Hm w).
  destruct (m w) as [[a|e] w1]; cbn in *; [|done].
  etrans; [exact Hm|apply Hk].
Qed.

Lemma keeps_try_catch {A} R `{!Transitive R} (m : M A) (h : Exception -> M A) :
  keeps R m -> (forall e, keeps R (h e)) -> keeps R (try_catch m h).
Proof.
  intros Hm Hh w. unfold try_catch. specialize (Hm w).
  destruct (m w) as [[a|e] w1]; cbn in *; [done|].
  etrans; [exact Hm|apply Hh].
Qed.

Lemma keeps_api R cfg net sid token endpoint method body :
  token <> "" ->
  (forall w, R w (after_request net
                    (ApiCall {| url := AIRTABLE_API_BASE +:+ endpoint; method := method;
                                bearer := token; body := body |}) w)) ->
  keeps R (api cfg net sid token endpoint method body).
Proof.
  intros Hne HR w. destruct token as [|c token]; [done|].
  rewrite api_sends_one_request. apply HR.
Qed.

(** Walk a handler: [side] proves that one request to the API is within
    the relation. *)
Ltac keep side :=
  repeat first
    [ apply keeps_api; [assumption|intros; side]
    | apply keeps_silent; [try apply _ ..]; solve [quiet]
    | apply keeps_try_catch; [try apply _ ..| |intros]
    | apply keeps_bind; [try apply _ ..| |intros]
    | match goal with
      | |- keeps _ (match ?x with _ => _ end) => destruct x
      | |- keeps _ (if ?b then _ else _) => destruct b
      end ].

Ltac unfold_cases :=
  unfold case_list_bases, case_get_base_schema, case_list_tables,
    case_list_fields, case_list_views, case_list_records,
    case_get_record, case_create_record, case_update_record,
    case_replace_record, case_delete_record, case_batch_create_records,
    case_batch_update_records, case_batch_delete_records,
    case_query_records, case_get_view_records, case_upload_attachment,
    case_list_attachments, case_get_comments, case_create_comment,
    case_upsert_record, case_validate_schema_compatibility.

Lemma after_request_confined sid st net r w :
  confined_to sid st w (after_request net r w).
Proof. split; auto. cbn. lia. Qed.

Lemma switch_confined cfg net sid st toolName token arguments :
  token <> "" ->
  keeps (confined_to sid st) (switch cfg net sid toolName token arguments).
Proof.
  intros Hne. unfold switch, cases. cbn [find_case].
  repeat (case_decide; [unfold_cases; solve [keep ltac:(apply after_request_confined)]|]).
  apply keeps_silent; [apply _|apply silent_throw].
Qed.

(** ** The catalog and the parsers *)

Lemma catalog_names : map name catalog = tools.
Proof. reflexivity. Qed.

Lemma parsers_names : map fst parsers = tools.
Proof. reflexivity. Qed.

Lemma check_type t path v v' :
  Zod.check t path v = inr (Some v') -> has_type (json_type t) v'.
Proof.
  revert path v v'. induction t; intros path v v'; cbn.
  - destruct v as [[]|]; intros [= <-]; done.
  - destruct v as [[| |n| | |]|]; try done. destruct (n <=? bound); intros [= <-]; done.
  - destruct v as [[]|]; intros [= <-]; done.
  - destruct v as [[| | |s| |]|]; try done. case_bool_decide; intros [= <-]; done.
  - destruct v as [[]|]; intros [= <-]; done.
  - destruct v; [apply IHt|done].
  - destruct v as [[| | | |items|]|]; try done.
    destruct (Zod.collect _), max as [m|]; try case_decide; intros [= <-]; done.
  - destruct v as [[| | | | |fs]|]; try done.
    destruct (Zod.collect _); intros [= <-]; done.
Qed.


Lemma check_object shape path fs :
  Zod.check (z_object shape) path (Some (JObj fs)) =
    match Zod.collect (map (check_field path fs) shape) with
    | inr kvs => inr (Some (Js.obj kvs))
    | inl issues => inl issues
    end.
Proof.
  cbn. match goal with |- match Zod.collect ?l with _ => _ end = _ =>
         assert (l = map (check_field path fs) shape) as -> end; [|done].
  induction shape as [|[k t] shape IH]; [done|]. cbn. by rewrite IH.
Qed.

Lemma collect_inr {A} (rs : list (list string + A)) l :
  Zod.collect rs = inr l -> rs = map inr l.
Proof.
  revert l. induction rs as [|[issues|a] rs IH]; intros l; cbn.
  - by intros [= <-].
  - by destruct (Zod.collect rs).
  - destruct (Zod.collect rs) as [|l']; [done|]. intros [= <-]. cbn. by rewrite (IH l').
Qed.

Lemma collect_inl {A} (rs : list (list string + A)) found :
  inl found ∈ rs ->
  exists issues, Zod.collect rs = inl issues /\ found ⊆ issues.
Proof.
  induction rs as [|r rs IH]; [by intros ?%elem_of_nil|].
  intros [<-|Hin]%elem_of_cons; cbn.
  - destruct (Zod.collect rs) as [issues|l]; eexists; (split; [done|]).
    + by apply list_subseteq_app_l.
    + done.
  - destruct (IH Hin) as (issues & -> & Hsub).
    destruct r as [issues'|a]; eexists; (split; [done|]).
    + by apply list_subseteq_app_r.
    + done.
Qed.

Lemma field_elem k fs v : Js.field k fs = Some v -> (k, v) ∈ fs.
Proof.
  induction fs as [|[k' v'] fs IH]; cbn; [done|].
  destruct (Js.field k fs) as [v0|].
  - intros [= <-]. right. by apply IH.
  - case_decide; [|done]. intros [= <-]. subst. left.
Qed.

Lemma elem_field k fs v : (k, v) ∈ fs -> is_Some (Js.field k fs).
Proof.
  induction fs as [|[k' v'] fs IH]; [by intros ?%elem_of_nil|].
  intros [[= <- <-]|Hin]%elem_of_cons; cbn.
  - destruct (Js.field k fs); [by eexists|]. rewrite decide_True by done. by eexists.
  - destruct (IH Hin) as [v0 ->]. by eexists.
Qed.

Lemma obj_elem k kvs v : Js.prop (Js.obj kvs) k = Some v -> (k, Some v) ∈ kvs.
Proof.
  unfold Js.obj. cbn. intros H%field_elem.
  apply list_elem_of_omap in H as ([k' [v'|]] & Hin & Heq); cbn in Heq; [|done].
  by injection Heq as -> ->.
Qed.

Lemma elem_obj k kvs v : (k, Some v) ∈ kvs -> is_Some (Js.prop (Js.obj kvs) k).
Proof.
  intros Hin. unfold Js.obj. cbn. apply (elem_field k _ v).
  apply list_elem_of_omap. by exists (k, Some v).
Qed.

(** What the parser of an object lets through: every field that is not
    optional is there, and whatever is there was declared and is of the
    type its parser admits. *)
Lemma parsed_object shape path fs out :
  Zod.check (z_object shape) path (Some (JObj fs)) = inr (Some out) ->
  (forall k t, (k, t) ∈ shape -> is_optional t = false -> is_Some (Js.prop out k)) /\
  (forall k v, Js.prop out k = Some v ->
     exists t, (k, t) ∈ shape /\ has_type (json_type t) v).
Proof.
  rewrite check_object.
  destruct (Zod.collect _) as [|kvs] eqn:E; [done|]. intros [= <-].
  apply collect_inr in E. split.
  - intros k t Hin Hreq.
    assert (check_field path fs (k, t) ∈ map inr kvs) as Hres.
    { rewrite <- E. by apply list_elem_of_fmap_2. }
    apply list_elem_of_fmap in Hres as ([k' v'] & Hres & Hin').
    unfold check_field in Hres. cbn in Hres.
    destruct (Zod.check t _ _) as [|[v|]] eqn:Ec; [done| |].
    + injection Hres as <- <-. by apply (elem_obj k kvs v).
    + exfalso. destruct t; try done; cbn in Ec;
        repeat (match type of Ec with
                | context [match ?x with _ => _ end] => destruct x
                end; try done).
  - intros k v Hin%obj_elem.
    assert (inr (k, Some v) ∈ map (check_field path fs) shape) as Hres.
    { rewrite E. by apply list_elem_of_fmap_2. }
    apply list_elem_of_fmap in Hres as ([k' t] & Hres & Hin').
    unfold check_field in Hres. cbn in Hres.
    destruct (Zod.check t _ _) as [|v'] eqn:Ec; [done|].
    injection Hres as <- <-. exists t. split; [done|]. by eapply check_type.
Qed.


Lemma catalog_agrees_with_parsers :
  Forall (fun tool =>
            exists shape,
              find_case (name tool) parsers = Some (z_object shape) /\
              properties (inputSchema tool) = declared_properties shape /\
              required (inputSchema tool) = declared_required shape)
         catalog.
Proof. repeat constructor; eexists; repeat split; reflexivity. Qed.

Lemma parse_checks t v (w : World) :
  Zod.parse t v w =
    (match Zod.check t "" (Some v) with
     | inr (Some parsed) => Return parsed
     | inr None => Return JNull
     | inl issues => Throw (ZodError issues)
     end, w).
Proof. unfold Zod.parse. by destruct (Zod.check t "" (Some v)) as [|[|]]. Qed.

(** X1.  Arguments accepted by a tool's parser conform to the input schema the
    catalog advertises for the tool: each required name is present, and each
    property of the parsed arguments is declared with the JSON type its value
    has. *)
Theorem parsed_arguments_conform tool parser arguments args (w w' : World) :
  tool ∈ catalog ->
  find_case (name tool) parsers = Some parser ->
  Zod.parse parser arguments w = (Return args, w') ->
  (forall k, k ∈ required (inputSchema tool) -> is_Some (Js.prop args k)) /\
  (forall k v, Js.prop args k = Some v ->
     exists t, (k, t) ∈ properties (inputSchema tool) /\ has_type t v).
Proof.
  intros Htool Hparser Hparse.
  pose proof catalog_agrees_with_parsers as Hall. rewrite Forall_forall in Hall.
  destruct (Hall tool Htool) as (shape & Hshape & Hprops & Hreq).
  rewrite Hparser in Hshape. injection Hshape as ->.
  rewrite parse_checks in Hparse.
  destruct arguments as [| | | | |fs];
    try (cbn in Hparse; discriminate Hparse).
  destruct (Zod.check (z_object shape) "" (Some (JObj fs))) as [|[out|]] eqn:E;
    [done| |].
  2:{ rewrite check_object in E. by destruct (Zod.collect _). }
  injection Hparse as -> _.
  destruct (parsed_object shape "" fs args E) as [Hpresent Htyped]. split.
  - intros k Hk. rewrite Hreq in Hk. unfold declared_required in Hk.
    apply list_elem_of_fmap in Hk as ([k' t] & -> & Hin).
    apply list_elem_of_In, filter_In in Hin as [Hin Hopt].
    apply (Hpresent k' t); [by apply list_elem_of_In|by apply negb_true_iff].
  - intros k v Hv. destruct (Htyped k v Hv) as (t & Hin & Hty).
    exists (json_type t). split; [|done]. rewrite Hprops.
    unfold declared_properties. by apply (list_elem_of_fmap_2' _ _ (k, t)).
Qed.

Lemma parsed_arguments_conform_witness :
  is_Some (Js.prop record_args "recordId") /\
  exists t, (("recordId", t) ∈ properties getRecordSchema) /\ has_type t (JStr "recR").
Proof.
  destruct (parsed_arguments_conform get_record_tool getRecordParser record_args
              record_args (empty_world 0) (empty_world 0)) as [Hrequired Htyped].
  - unfold catalog. do 6 right. left.
  - reflexivity.
  - reflexivity.
  - split.
    + apply Hrequired. cbn. do 2 right. left.
    + apply Htyped. reflexivity.
Defined.

Lemma object_field_fails shape path fs k t found :
  (k, t) ∈ shape ->
  Zod.check t (Zod.sub_path path k) (Js.field k fs) = inl found ->
  exists issues,
    Zod.check (z_object shape) path (Some (JObj fs)) = inl issues /\ found ⊆ issues.
Proof.
  intros Hin Hfail. rewrite check_object.
  destruct (collect_inl (map (check_field path fs) shape) found) as (issues & -> & Hsub).
  - apply list_elem_of_fmap. exists (k, t). split; [|done].
    unfold check_field. cbn. by rewrite Hfail.
  - by exists issues.
Qed.

Lemma array_too_long element m path items :
  (m < length items)%nat ->
  exists issues,
    Zod.check (z_array element (Some m)) path (Some (JArr items)) = inl issues /\
    path ∈ issues.
Proof.
  intros Hlong. cbn. rewrite decide_False by lia.
  destruct (Zod.collect _); eexists; (split; [done|]).
  - apply elem_of_app. left. left.
  - left.
Qed.

(** Select the case of a [switch] on a literal name. *)
Ltac pick_case :=
  unfold switch;
  match goal with
  | |- context [find_case ?n ?c] =>
      let r := eval hnf in (find_case n c) in change (find_case n c) with r
  end; cbn match.

Lemma find_case_elem {A} name0 (cs : list (string * A)) body :
  find_case name0 cs = Some body -> (name0, body) ∈ cs.
Proof.
  induction cs as [|[label b] cs IH]; cbn; [done|].
  case_decide; [intros [= <-]; subst; left|intros Hrest; right; by apply IH].
Qed.

Lemma cases_parse_first :
  Forall (fun entry =>
            entry.1 <> "list_bases" ->
            forall cfg net sid token arguments (w : World) issues,
              Zod.check entry.2 "" (Some arguments) = inl issues ->
              switch cfg net sid entry.1 token arguments w = (Throw (ZodError issues), w))
         parsers.
Proof.
  repeat constructor; cbn [fst snd]; intros Hname cfg net sid token arguments w issues Hfail;
    try (by destruct Hname); pick_case; unfold_cases;
    unfold mbind at 1, M_bind, bind; rewrite parse_checks, Hfail; reflexivity.
Qed.

Lemma switch_rejects_invalid cfg net sid toolName parser token arguments (w : World) issues :
  find_case toolName parsers = Some parser ->
  toolName <> "list_bases" ->
  Zod.check parser "" (Some arguments) = inl issues ->
  switch cfg net sid toolName token arguments w = (Throw (ZodError issues), w).
Proof.
  intros Hparser Hname Hfail.
  pose proof cases_parse_first as Hall. rewrite Forall_forall in Hall.
  exact (Hall (toolName, parser) (find_case_elem _ _ _ Hparser) Hname
           cfg net sid token _ w issues Hfail).
Qed.

Lemma callTool_after_gate cfg net sid toolName arguments rnd (w w1 : World) token :
  resolve_credential cfg net sid w = (Return (Some token), w1) ->
  token <> "" ->
  callTool cfg net sid toolName arguments rnd w =
    switch cfg net sid toolName token (arguments_or_empty arguments) w1.
Proof.
  intros Hgate Hne. unfold callTool. unfold mbind at 1, M_bind, bind. rewrite Hgate.
  by destruct token.
Qed.

(** X2.  When the gate yields a credential and the parser of the tool rejects the
    arguments, the call throws the [ZodError] of the parser and leaves the
    world as the gate left it: parsing comes before every request. *)
Theorem invalid_arguments_are_rejected_before_any_request
    cfg net sid toolName parser arguments rnd (w w1 : World) token issues :
  find_case toolName parsers = Some parser ->
  toolName <> "list_bases" ->
  resolve_credential cfg net sid w = (Return (Some token), w1) ->
  token <> "" ->
  Zod.check parser "" (Some (arguments_or_empty arguments)) = inl issues ->
  callTool cfg net sid toolName arguments rnd w = (Throw (ZodError issues), w1).
Proof.
  intros Hparser Hname Hgate Hne Hfail.
  rewrite (callTool_after_gate _ _ _ _ _ _ _ _ _ Hgate Hne).
  by apply (switch_rejects_invalid _ _ _ _ parser).
Qed.

Lemma invalid_arguments_are_rejected_before_any_request_witness :
  (callTool sample_cfg serving_net "s1" "get_record"
     (Some (JObj [ ("baseId", JStr "appB"); ("recordId", JNum 7) ])) sample_bytes
     delegated_world).1
  = Throw (ZodError ["tableId"; "recordId"]).
Proof.
  erewrite (invalid_arguments_are_rejected_before_any_request sample_cfg serving_net "s1"
              "get_record" getRecordParser _ sample_bytes delegated_world _ "pat").
  - reflexivity.
  - reflexivity.
  - discriminate.
  - apply (delegated_header_is_adopted _ _ _ "pat"); reflexivity.
  - discriminate.
  - reflexivity.
Defined.

(** X3.  The three batch tools refuse more than ten entries: the call throws a
    [ZodError] with an issue at the array argument, before any request. *)
Theorem oversized_batch_is_rejected
    cfg net sid toolName key arguments fs items rnd (w w1 : World) token :
  (toolName, key) ∈ batch_arguments ->
  resolve_credential cfg net sid w = (Return (Some token), w1) ->
  token <> "" ->
  arguments = Some (JObj fs) ->
  Js.field key fs = Some (JArr items) ->
  (10 < length items)%nat ->
  exists issues,
    key ∈ issues /\
    callTool cfg net sid toolName arguments rnd w = (Throw (ZodError issues), w1).
Proof.
  intros Hbatch Hgate Hne -> Hfield Hlong.
  assert (exists element rest parser,
            find_case toolName parsers = Some parser /\
            toolName <> "list_bases" /\
            parser = z_object (baseId_tableId ++ (key, z_array element (Some 10%nat)) :: rest))
    as (element & rest & parser & Hparser & Hname & ->).
  { unfold batch_arguments in Hbatch.
    repeat (apply elem_of_cons in Hbatch as [[= -> ->]|Hbatch];
            [eexists _, [], _; split; [reflexivity|split; [discriminate|reflexivity]]|]).
    by apply elem_of_nil in Hbatch. }
  destruct (array_too_long element 10 (Zod.sub_path "" key) items Hlong)
    as (found & Hfound & Hkey).
  destruct (object_field_fails
              (baseId_tableId ++ (key, z_array element (Some 10%nat)) :: rest)
              "" fs key (z_array element (Some 10%nat)) found) as (issues & Hfail & Hsub).
  { apply elem_of_app. right. left. }
  { by rewrite Hfield. }
  exists issues. split; [by apply Hsub|].
  rewrite (callTool_after_gate _ _ _ _ _ _ _ _ _ Hgate Hne).
  by eapply switch_rejects_invalid.
Qed.

Lemma oversized_batch_is_rejected_witness :
  exists issues,
    "recordIds" ∈ issues /\
    callTool sample_cfg serving_net "s1" "batch_delete_records"
      (Some (JObj [ ("baseId", JStr "appB"); ("tableId", JStr "tblT");
                    ("recordIds", JArr (replicate 11 (JStr "recR"))) ]))
      sample_bytes delegated_world
    = (Throw (ZodError issues),
       with_authSessions (insert "s1" {| accessToken := "pat"; refreshToken := "";
                                         expiresAt := 3600000 |}) delegated_world).
Proof.
  eapply (oversized_batch_is_rejected sample_cfg serving_net "s1" "batch_delete_records"
           "recordIds" _ _ (replicate 11 (JStr "recR")) sample_bytes delegated_world _ "pat").
  - unfold batch_arguments. do 2 right. left.
  - apply (delegated_header_is_adopted _ _ _ "pat"); reflexivity.
  - discriminate.
  - reflexivity.
  - reflexivity.
  - cbn. lia.
Defined.

(** ** Tool calls: confinement and credentials *)

Lemma getValidAccessToken_confined cfg net sid st :
  keeps (confined_to sid st) (getValidAccessToken cfg net sid).
Proof.
  intros w.
  unfold getValidAccessToken, refreshAccessToken, fetch_token, token_response. run.
  destruct (authSessions w !! sid) as [session|]; [|reflexivity].
  destruct (clock w >=? _); [|reflexivity].
  destruct (token_endpoint net _ _) as [|status text [data|]]; cbn;
    try apply after_request_confined;
    destruct (ok status); cbn; try apply after_request_confined.
  split; cbn; auto; try lia.
  intros sid' Hne. apply lookup_insert_ne. congruence.
Qed.

Lemma resolve_credential_confined cfg net sid st :
  keeps (confined_to sid st) (resolve_credential cfg net sid).
Proof.
  intros w. unfold resolve_credential. run.
  destruct (authSessions w !! sid).
  - pose proof (getValidAccessToken_confined cfg net sid st w) as H.
    by destruct (getValidAccessToken cfg net sid w) as [[token|e] w1].
  - destruct (sessionAuthHeaders w !! sid) as [h|]; [|reflexivity].
    destruct (_ && _); [|reflexivity]. cbn.
    split; cbn; auto; try lia. intros sid' Hne. apply lookup_insert_ne. congruence.
Qed.

Lemma request_authorization_confined cfg sid rnd :
  keeps (confined_to sid (Text.to_hex rnd)) (request_authorization cfg sid rnd).
Proof.
  intros w. unfold request_authorization. run.
  split; cbn; auto; try lia. intros st' Hne. apply lookup_insert_ne. congruence.
Qed.

(** X5.  A tool call of a session touches the token entry of that session and the
    pending state it issues, and nothing else: the token entries of other
    sessions, the other pending states, the registry of transports, the
    cached headers and the files are as before. *)
Theorem tool_call_is_confined_to_its_session cfg net sid toolName arguments rnd (w : World) :
  confined_to sid (Text.to_hex rnd) w (callTool cfg net sid toolName arguments rnd w).2.
Proof.
  revert w. change (keeps (confined_to sid (Text.to_hex rnd))
                      (callTool cfg net sid toolName arguments rnd)).
  unfold callTool. apply keeps_bind; [apply _|apply resolve_credential_confined|].
  intros [[|c token]|]; cbn [Text.is_empty];
    [apply request_authorization_confined| |apply request_authorization_confined].
  by apply switch_confined.
Qed.


Lemma after_request_appended P net r (w : World) :
  P r -> appended P w (after_request net r w).
Proof. intros HP. exists [r]. split; [done|]. by repeat constructor. Qed.

Lemma switch_authorized cfg net sid toolName token arguments :
  token <> "" ->
  keeps (appended (api_request (authorized_by token)))
        (switch cfg net sid toolName token arguments).
Proof.
  intros Hne. unfold switch, cases. cbn [find_case].
  repeat (case_decide;
          [unfold_cases;
           solve [keep ltac:(apply after_request_appended; split;
                             [reflexivity|apply startsWith_app])]|]).
  apply keeps_silent; [apply _|apply silent_throw].
Qed.

Lemma getValidAccessToken_sends_no_api_request cfg net sid P :
  keeps (appended (api_request P)) (getValidAccessToken cfg net sid).
Proof.
  intros w.
  unfold getValidAccessToken, refreshAccessToken, fetch_token, token_response. run.
  destruct (authSessions w !! sid) as [session|]; [|reflexivity].
  destruct (Z.geb _ _); [|reflexivity].
  exists [TokenRequest (refresh_form cfg (refreshToken session))].
  split; [|by repeat constructor].
  destruct (token_endpoint net _ _) as [|status text [data|]]; cbn;
    [reflexivity| |]; destruct (ok status); reflexivity.
Qed.

Lemma gate_sends_no_api_request cfg net sid P :
  keeps (appended (api_request P)) (resolve_credential cfg net sid).
Proof.
  intros w. unfold resolve_credential. run.
  destruct (authSessions w !! sid).
  - pose proof (getValidAccessToken_sends_no_api_request cfg net sid P w) as H.
    by destruct (getValidAccessToken cfg net sid w) as [[token|e] w1].
  - destruct (sessionAuthHeaders w !! sid) as [h|]; [|reflexivity].
    destruct (_ && _); exists []; (split; [by rewrite app_nil_r|constructor]).
Qed.

(** X6.  A tool call only adds to the log of requests, and every request it
    sends to the backend carries, as its bearer token, the non-empty
    credential the gate resolved for the session at the start of the
    call. *)
Theorem backend_requests_carry_the_resolved_credential
    cfg net sid toolName arguments rnd (w : World) :
  exists new,
    netlog (callTool cfg net sid toolName arguments rnd w).2 = netlog w ++ new /\
    forall req, ApiCall req ∈ new ->
      bearer req <> "" /\
      (resolve_credential cfg net sid w).1 = Return (Some (bearer req)).
Proof.
  unfold callTool. unfold mbind at 1, M_bind, bind.
  destruct (gate_sends_no_api_request cfg net sid (fun _ => False) w) as (n1 & Hlog1 & Hn1).
  destruct (resolve_credential cfg net sid w) as [[[token|]|e] w1] eqn:Hgate; cbn in Hlog1.
  2,3: exists n1; split; [exact Hlog1|]; intros req Hin;
       rewrite Forall_forall in Hn1; by destruct (Hn1 _ Hin).
  destruct (decide (token = "")) as [->|Hne].
  { exists n1. split; [exact Hlog1|]. intros req Hin.
    rewrite Forall_forall in Hn1. by destruct (Hn1 _ Hin). }
  assert (Text.is_empty token = false) as -> by (by destruct token).
  destruct (switch_authorized cfg net sid toolName token (arguments_or_empty arguments)
              Hne w1) as (n2 & Hlog2 & Hn2).
  exists (n1 ++ n2). split; [by rewrite Hlog2, Hlog1, app_assoc|].
  intros req [Hin|Hin]%elem_of_app.
  - rewrite Forall_forall in Hn1. by destruct (Hn1 _ Hin).
  - rewrite Forall_forall in Hn2. destruct (Hn2 _ Hin) as [Hb Hu]. by rewrite Hb.
Qed.

(** Where the request goes is another matter.  The identifiers of the
    arguments are spliced into the URL as they are, so the text handed to
    [fetch] begins with [AIRTABLE_API_BASE] but need not stay below it once
    the dot segments are resolved. *)
Remark identifiers_are_spliced_unencoded :
  netlog (callTool sample_cfg serving_net "s1" "get_record"
            (Some (JObj [ ("baseId", JStr ".."); ("tableId", JStr "..");
                          ("recordId", JStr "evil") ]))
            sample_bytes delegated_world).2
  = [ ApiCall {| url := "https://api.airtable.com/v0/../../evil"; method := "GET";
                 bearer := "pat"; body := None |} ].
Proof. vm_compute. reflexivity. Qed.

(** ** Annotations and metadata *)

Lemma read_only_cases :
  Forall (fun tool =>
            readOnlyHint tool = true ->
            forall cfg net sid token arguments,
              token <> "" ->
              keeps (appended (api_request (fun req => method req = "GET")))
                    (switch cfg net sid (name tool) token arguments))
         catalog.
Proof.
  repeat constructor; cbn [readOnlyHint name];
    intros Hro cfg net sid token arguments Hne; try discriminate Hro;
    pick_case; unfold_cases; keep ltac:(by apply after_request_appended).
Qed.

(** X7.  A tool annotated [readOnlyHint: true] sends only [GET] requests to the
    backend. *)
Theorem read_only_tools_only_read
    tool cfg net sid arguments rnd (w : World) :
  tool ∈ catalog ->
  readOnlyHint tool = true ->
  exists new,
    netlog (callTool cfg net sid (name tool) arguments rnd w).2 = netlog w ++ new /\
    forall req, ApiCall req ∈ new -> method req = "GET".
Proof.
  intros Htool Hro.
  pose proof read_only_cases as Hall. rewrite Forall_forall in Hall.
  assert (keeps (appended (api_request (fun req => method req = "GET")))
                (callTool cfg net sid (name tool) arguments rnd)) as Hkeeps.
  { unfold callTool. apply keeps_bind; [apply _|apply gate_sends_no_api_request|].
    assert (keeps (appended (api_request (fun req => method req = "GET")))
                  (request_authorization cfg sid rnd)) as Hprompt.
    { intros w0. exists []. split; [by rewrite app_nil_r|constructor]. }
    intros [[|c token]|]; cbn [Text.is_empty]; [exact Hprompt| |exact Hprompt].
    by apply (Hall tool Htool Hro). }
  destruct (Hkeeps w) as (new & Hlog & Hnew). exists new. split; [exact Hlog|].
  intros req Hin. rewrite Forall_forall in Hnew. exact (Hnew _ Hin).
Qed.

Lemma read_only_tools_only_read_witness :
  exists new,
    netlog (callTool sample_cfg serving_net "s1" "get_record" (Some record_args)
              sample_bytes delegated_world).2 = [] ++ new /\
    forall req, ApiCall req ∈ new -> method req = "GET".
Proof.
  apply (read_only_tools_only_read get_record_tool sample_cfg serving_net "s1"
           (Some record_args) sample_bytes delegated_world).
  - unfold catalog. do 6 right. left.
  - reflexivity.
Defined.

Lemma yields_ret {A} (Q : A -> Prop) a : Q a -> yields Q (mret a).
Proof. intros HQ w a' w' [= <- _]. exact HQ. Qed.

Lemma yields_throw {A} (Q : A -> Prop) e : yields Q (throw e).
Proof. intros w a w' [=]. Qed.

Lemma yields_bind {A B} (Q : B -> Prop) (m : M A) (k : A -> M B) :
  (forall a, yields Q (k a)) -> yields Q (m ≫= k).
Proof.
  intros Hk w b w'. unfold mbind, M_bind, bind.
  destruct (m w) as [[a|e] w1]; [apply Hk|done].
Qed.

Lemma yields_try_catch {A} (Q : A -> Prop) (m : M A) h :
  yields Q m -> (forall e, yields Q (h e)) -> yields Q (try_catch m h).
Proof.
  intros Hm Hh w a w'. unfold try_catch.
  destruct (m w) as [[a'|e] w1] eqn:E; [intros [= <- _]; by eapply Hm|apply Hh].
Qed.

Lemma yields_widgetMeta {A} (Q : A -> Prop) widget (k : JSON -> M A) :
  yields Q (k (widget_meta widget)) -> yields Q (widgetMeta (Some widget) ≫= k).
Proof. intros Hk w a w'. exact (Hk w a w'). Qed.

(** Walk a handler down to the results it returns; [close] proves the
    property of one result. *)
Ltac yield close :=
  repeat first
    [ apply yields_ret; close
    | apply yields_throw
    | apply yields_widgetMeta
    | apply yields_try_catch; [|intros]
    | apply yields_bind; intros
    | match goal with
      | |- yields _ (match ?x with _ => _ end) => destruct x
      | |- yields _ (if ?b then _ else _) => destruct b
      end ].

Ltac know_widgets :=
  repeat match goal with
         | |- context [widgetsById !! ?id] =>
             let r := eval vm_compute in (widgetsById !! id) in
             change (widgetsById !! id) with r
         end.

Lemma cases_carry_declared_meta :
  Forall (fun tool =>
            forall cfg net sid token arguments,
              yields (fun r => forall meta, _meta r = Some meta ->
                                 declared_meta tool = Some meta)
                     (switch cfg net sid (name tool) token arguments))
         catalog.
Proof.
  repeat constructor; cbn [name]; intros cfg net sid token arguments;
    pick_case; unfold_cases; know_widgets;
    yield ltac:(intros meta Hm; cbn in Hm;
                first [discriminate Hm|injection Hm as <-; reflexivity]).
Qed.

(** X9.  The [_meta] of a returned result is the [_meta] that the catalog entry of
    the tool declares; a tool declared without a widget returns none. *)
Theorem result_metadata_is_the_declared_one
    tool cfg net sid arguments rnd (w w' : World) r meta :
  tool ∈ catalog ->
  callTool cfg net sid (name tool) arguments rnd w = (Return r, w') ->
  _meta r = Some meta ->
  declared_meta tool = Some meta.
Proof.
  intros Htool Hcall Hmeta.
  pose proof cases_carry_declared_meta as Hall. rewrite Forall_forall in Hall.
  revert Hcall. unfold callTool. unfold mbind at 1, M_bind, bind.
  destruct (resolve_credential cfg net sid w) as [[[[|c token]|]|e] w1]; cbn [Text.is_empty].
  - intros [= <- _]. done.
  - intros Hcall. exact (Hall tool Htool cfg net sid _ _ w1 r w' Hcall meta Hmeta).
  - intros [= <- _]. done.
  - done.
Qed.

Lemma result_metadata_is_the_declared_one_witness :
  declared_meta get_record_tool =
    Some (JObj [ ("openai/outputTemplate", JStr "ui://widget/get-record.html");
                 ("openai/toolInvocation/invoking", JStr "Loading Airtable record");
                 ("openai/toolInvocation/invoked", JStr "Loaded Airtable record");
                 ("openai/widgetAccessible", JBool true);
                 ("openai/resultCanProduceWidget", JBool true) ]).
Proof.
  eapply (result_metadata_is_the_declared_one get_record_tool sample_cfg serving_net "s1"
            (Some record_args) sample_bytes delegated_world).
  - unfold catalog. do 6 right. left.
  - vm_compute. reflexivity.
  - reflexivity.
Defined.

(** ** The token store and the callback, continued *)

Lemma missing_auth_yields_authorization_url_aux cfg net sid toolName arguments rnd (w : World) :
  authSessions w !! sid = None ->
  sessionAuthHeaders w !! sid = None ->
  callTool cfg net sid toolName arguments rnd w = request_authorization cfg sid rnd w.
Proof.
  intros Hauth Hhdr. unfold callTool. unfold mbind at 1, M_bind, bind.
  by rewrite (resolve_credential_none _ _ _ _ Hauth Hhdr).
Qed.

(** X11.  Provided granted tokens have a positive lifetime: the token that
    [getValidAccessToken] returns is the one stored for the session, and it
    has not expired at the moment of the return. *)
Theorem returned_token_is_not_expired cfg net sid (w w' : World) token :
  positive_lifetimes net ->
  getValidAccessToken cfg net sid w = (Return token, w') ->
  exists session,
    authSessions w' !! sid = Some session /\
    accessToken session = token /\
    clock w' < expiresAt session.
Proof.
  intros Hpos.
  unfold getValidAccessToken, refreshAccessToken, fetch_token, token_response. run.
  destruct (authSessions w !! sid) as [session|] eqn:Hs; [|done].
  destruct (Z.geb_spec (clock w) (expiresAt session - 5 * 60 * 1000)).
  - destruct (token_endpoint net _ _) as [|status text [data|]] eqn:Hreply; cbn; [done| |].
    + destruct (ok status); cbn; [|done]. intros [= <- <-].
      eexists. split; [apply lookup_insert_eq|]. cbn. split; [done|].
      pose proof (Hpos _ _ _ _ _ Hreply). lia.
    + by destruct (ok status).
  - intros [= <- <-]. exists session. split; [done|]. split; [done|]. lia.
Qed.

Lemma returned_token_is_not_expired_witness :
  exists session,
    authSessions
      (with_authSessions
         (insert "s1" {| accessToken := "fresh"; refreshToken := "refresh-1";
                         expiresAt := 900007 + 3600 * 1000 |})
         (after_request granting_net (TokenRequest (refresh_form sample_cfg "refresh-1"))
            (with_authSessions (insert "s1" (sample_session 1000000)) (empty_world 900000))))
      !! "s1" = Some session /\
    accessToken session = "fresh" /\
    900007 < expiresAt session.
Proof.
  apply (returned_token_is_not_expired sample_cfg granting_net "s1"
           (with_authSessions (insert "s1" (sample_session 1000000)) (empty_world 900000))).
  - intros n form status text data [= _ _ <-]. cbn. lia.
  - vm_compute. reflexivity.
Defined.

(** X12.  When [getValidAccessToken] throws, the token store, the pending states
    and the cached headers are as before; the stale entry stays. *)
Theorem failed_acquire_writes_nothing cfg net sid (w w' : World) e :
  getValidAccessToken cfg net sid w = (Throw e, w') ->
  authSessions w' = authSessions w /\
  pendingAuthStates w' = pendingAuthStates w /\
  sessionAuthHeaders w' = sessionAuthHeaders w.
Proof.
  unfold getValidAccessToken, refreshAccessToken, fetch_token, token_response. run.
  destruct (authSessions w !! sid) as [session|]; [|by intros [= _ <-]].
  destruct (Z.geb _ _); [|done].
  destruct (token_endpoint net _ _) as [|status text [data|]]; cbn.
  - by intros [= _ <-].
  - destruct (ok status); cbn; [done|]. by intros [= _ <-].
  - destruct (ok status); cbn; by intros [= _ <-].
Qed.

Lemma failed_acquire_writes_nothing_witness :
  let w := with_authSessions (insert "s1" (sample_session 1000000)) (empty_world 900000) in
  let w' := after_request refusing_net (TokenRequest (refresh_form sample_cfg "refresh-1")) w in
  authSessions w' = authSessions w /\
  pendingAuthStates w' = pendingAuthStates w /\
  sessionAuthHeaders w' = sessionAuthHeaders w.
Proof.
  intros w w'.
  eapply (failed_acquire_writes_nothing sample_cfg refusing_net "s1" w w').
  vm_compute. reflexivity.
Defined.

Lemma present_nonempty s : s <> "" -> present (Some s) = Some s.
Proof. by destruct s. Qed.

Lemma to_hex_nonempty bytes : bytes <> [] -> Text.to_hex bytes <> "".
Proof. destruct bytes as [|b bytes]; [done|]. cbn. discriminate. Qed.

Lemma sweep_lookup now (m : gmap string PendingAuth) k v :
  sweep now m !! k = Some v <-> m !! k = Some v /\ now - createdAt v <= 10 * 60 * 1000.
Proof.
  unfold sweep. rewrite map_lookup_filter_Some. cbn. split; intros [H1 H2]; (split; [done|lia]).
Qed.


Lemma callback_with_stored_state cfg net code state (w : World) owner :
  code <> "" -> state <> "" ->
  pendingAuthStates w !! state = Some owner ->
  handleAuthCallback cfg net (callback_url code state) w =
    exchange_and_install cfg net code state owner
      (with_pendingAuthStates (sweep (clock w)) w).
Proof.
  intros Hc Hs Hpending.
  unfold handleAuthCallback, callback_url. cbn [searchParams].
  change (searchParams_get "error" _) with (@None string).
  change (searchParams_get "code" _) with (Some code).
  change (searchParams_get "state" _) with (Some state).
  cbn [present].
  destruct code as [|c code]; [done|]. destruct state as [|s state]; [done|].
  cbn [Text.is_empty]. run. rewrite Hpending. reflexivity.
Qed.

(** The two ways the block ends. *)
Lemma exchange_and_install_cases cfg net code state owner (w : World) :
  let request := TokenRequest (exchange_form cfg code) in
  let w1 := after_request net request w in
  (exists detail,
     grants (token_endpoint net (length (netlog w)) (exchange_form cfg code)) = false /\
     exchange_and_install cfg net code state owner w =
       (Return (Page 500 "Authentication Error" detail), w1))
  \/
  (exists status text data,
     token_endpoint net (length (netlog w)) (exchange_form cfg code)
       = Http status text (Some data) /\ ok status = true /\
     exchange_and_install cfg net code state owner w =
       (Return (Page 200 "Successfully Connected to Airtable!"
                     "You can now close this window and return to your chat."),
        with_pendingAuthStates (delete state)
          (with_authSessions
             (insert (sessionId owner)
                     {| accessToken := access_token data;
                        refreshToken := refresh_token data;
                        expiresAt := clock w1 + expires_in data * 1000 |}) w1))).
Proof.
  intros request w1.
  unfold exchange_and_install, exchangeCodeForToken, fetch_token, token_response. run.
  destruct (token_endpoint net _ _) as [|status text [data|]] eqn:Hreply; cbn.
  - left. by eexists.
  - destruct (ok status) eqn:Hok; cbn.
    + right. by exists status, text, data.
    + left. by eexists.
  - left. destruct (ok status) eqn:Hok; cbn; by eexists.
Qed.



(** X14.  A callback whose code exchange is not granted answers 500, installs no
    token and consumes no state: the pending store is the swept one. *)
Theorem failed_exchange_installs_nothing cfg net code state (w : World) owner :
  code <> "" -> state <> "" ->
  pendingAuthStates w !! state = Some owner ->
  grants (token_endpoint net (length (netlog w)) (exchange_form cfg code)) = false ->
  exists detail w',
    handleAuthCallback cfg net (callback_url code state) w =
      (Return (Page 500 "Authentication Error" detail), w') /\
    authSessions w' = authSessions w /\
    pendingAuthStates w' = sweep (clock w) (pendingAuthStates w).
Proof.
  intros Hc Hs Hpending Hrefused.
  rewrite (callback_with_stored_state _ _ _ _ _ owner) by done.
  set (w0 := with_pendingAuthStates (sweep (clock w)) w).
  destruct (exchange_and_install_cases cfg net code state owner w0)
    as [(e & _ & ->)|(status & text & data & Hreply & Hok & _)].
  - by eexists _, _.
  - exfalso. change (netlog w0) with (netlog w) in Hreply.
    rewrite Hreply in Hrefused. cbn in Hrefused. congruence.
Qed.

Lemma failed_exchange_installs_nothing_witness :
  exists detail w',
    handleAuthCallback sample_cfg refusing_net (callback_url "code-1" "61626364")
      (pending_world 500000 700000)
    = (Return (Page 500 "Authentication Error" detail), w') /\
    authSessions w' = ∅ /\
    pendingAuthStates w' = sweep 700000 (pendingAuthStates (pending_world 500000 700000)).
Proof.
  apply (failed_exchange_installs_nothing sample_cfg refusing_net "code-1" "61626364"
           (pending_world 500000 700000) {| sessionId := "s1"; createdAt := 500000 |}).
  - discriminate.
  - discriminate.
  - vm_compute. reflexivity.
  - reflexivity.
Defined.

(** X15.  A callback with an [error] parameter, without a code or a state, or with
    a state the store does not hold is answered 400 and changes nothing: no
    request, no sweep, no token. *)
Theorem rejected_callback_touches_nothing cfg net url (w : World) :
  present (searchParams_get "error" (searchParams url)) <> None \/
  present (searchParams_get "code" (searchParams url)) = None \/
  present (searchParams_get "state" (searchParams url)) = None \/
  (exists state, present (searchParams_get "state" (searchParams url)) = Some state /\
                 pendingAuthStates w !! state = None) ->
  exists r, handleAuthCallback cfg net url w = (Return r, w) /\ status_of r = Some 400.
Proof.
  unfold handleAuthCallback.
  destruct (present (searchParams_get "error" _)) as [e|]; [by eexists|].
  destruct (present (searchParams_get "code" _)) as [code|];
    destruct (present (searchParams_get "state" _)) as [state|]; try (by eexists).
  intros [?|[?|[?|(state' & [= <-] & Hnone)]]]; try done.
  run. rewrite Hnone. by eexists.
Qed.

Lemma rejected_callback_touches_nothing_witness :
  exists r,
    handleAuthCallback sample_cfg granting_net (callback_url "code-1" "ffffffff")
      (pending_world 500000 700000)
    = (Return r, pending_world 500000 700000) /\ status_of r = Some 400.
Proof.
  apply (rejected_callback_touches_nothing sample_cfg granting_net).
  do 3 right. exists "ffffffff". split; [reflexivity|]. vm_compute. reflexivity.
Defined.

(** X16.  A state is consumed when its callback completes, not before.
    After a callback has exchanged its code, a later callback with the same
    state is answered 400 and changes nothing.  While the first callback
    awaits the exchange it has swept the store and written nothing else: a
    state that is not expired is still there, and a second callback that
    runs in that world with the same state is accepted and installs a token
    as well when the endpoint grants its code. *)
Theorem state_is_consumed_on_completion
    cfg net code code' state (w : World) owner status text data :
  code <> "" -> state <> "" ->
  pendingAuthStates w !! state = Some owner ->
  token_endpoint net (length (netlog w)) (exchange_form cfg code)
    = Http status text (Some data) ->
  ok status = true ->
  let completed := (handleAuthCallback cfg net (callback_url code state) w).2 in
  let suspended := with_pendingAuthStates (sweep (clock w)) w in
  handleAuthCallback cfg net (callback_url code' state) completed =
    (Return (Plain 400 (if Text.is_empty code' then "Missing code or state parameter"
                        else "Invalid or expired state parameter")), completed) /\
  (clock w - createdAt owner <= 10 * 60 * 1000 ->
   code' <> "" ->
   pendingAuthStates suspended !! state = Some owner /\
   forall status' text' data',
     token_endpoint net (length (netlog suspended)) (exchange_form cfg code')
       = Http status' text' (Some data') ->
     ok status' = true ->
     exists w',
       handleAuthCallback cfg net (callback_url code' state) suspended =
         (Return (Page 200 "Successfully Connected to Airtable!"
                       "You can now close this window and return to your chat."), w') /\
       authSessions w' !! sessionId owner =
         Some {| accessToken := access_token data';
                 refreshToken := refresh_token data';
                 expiresAt := clock w' + expires_in data' * 1000 |}).
Proof.
  intros Hc Hs Hpending Hreply Hok completed suspended. split.
  - destruct (callback_accepts_any_stored_state cfg net code state w owner status text data
                Hc Hs Hpending Hreply Hok) as (w1 & Hrun & _ & Hgone).
    subst completed. rewrite Hrun. cbn [snd].
    unfold handleAuthCallback, callback_url. cbn [searchParams].
    change (searchParams_get "error" _) with (@None string).
    change (searchParams_get "code" _) with (Some code').
    change (searchParams_get "state" _) with (Some state).
    cbn [present].
    destruct code' as [|c code']; [reflexivity|]. destruct state as [|s state]; [done|].
    cbn [Text.is_empty]. run. rewrite Hgone. reflexivity.
  - intros Hyoung Hc'.
    assert (pendingAuthStates suspended !! state = Some owner) as Hstill.
    { subst suspended. cbn. by apply sweep_lookup. }
    split; [exact Hstill|].
    intros status' text' data' Hreply' Hok'.
    destruct (callback_accepts_any_stored_state cfg net code' state suspended owner
                status' text' data' Hc' Hs Hstill Hreply' Hok') as (w' & Hrun & Htoken & _).
    by exists w'.
Qed.

Lemma state_is_consumed_on_completion_witness :
  let w := pending_world 500000 500100 in
  let completed := (handleAuthCallback sample_cfg granting_net
                      (callback_url "code-1" "61626364") w).2 in
  let suspended := with_pendingAuthStates (sweep 500100) w in
  handleAuthCallback sample_cfg granting_net (callback_url "code-2" "61626364") completed
    = (Return (Plain 400 "Invalid or expired state parameter"), completed) /\
  exists w',
    handleAuthCallback sample_cfg granting_net (callback_url "code-2" "61626364") suspended
      = (Return (Page 200 "Successfully Connected to Airtable!"
                      "You can now close this window and return to your chat."), w') /\
    authSessions w' !! "s1" =
      Some {| accessToken := "fresh"; refreshToken := "again";
              expiresAt := clock w' + 3600 * 1000 |}.
Proof.
  intros w completed suspended.
  destruct (state_is_consumed_on_completion sample_cfg granting_net "code-1" "code-2"
              "61626364" w {| sessionId := "s1"; createdAt := 500000 |}
              200 "" {| access_token := "fresh"; refresh_token := "again";
                        expires_in := 3600 |})
    as [Hafter Hduring].
  - discriminate.
  - discriminate.
  - vm_compute. reflexivity.
  - reflexivity.
  - reflexivity.
  - split; [exact Hafter|].
    destruct Hduring as [_ Haccepted]; [cbn; lia|discriminate|].
    exact (Haccepted 200 "" {| access_token := "fresh"; refresh_token := "again";
                               expires_in := 3600 |} eq_refl eq_refl).
Defined.

Lemma getValidAccessToken_fresh cfg net sid (w : World) session :
  authSessions w !! sid = Some session ->
  clock w < expiresAt session - 5 * 60 * 1000 ->
  getValidAccessToken cfg net sid w = (Return (accessToken session), w).
Proof.
  intros Hs Hfresh. unfold getValidAccessToken. run. rewrite Hs.
  destruct (Z.geb_spec (clock w) (expiresAt session - 5 * 60 * 1000)); [lia|reflexivity].
Qed.

(** X17.  The whole flow: a call without credentials issues a state; once
    the callback has exchanged a code under that state, the token is stored
    for the session with an expiry counted from the end of the exchange,
    and in every later world that still holds that entry, up to five
    minutes before the expiry, the gate of the session resolves the granted
    token, sends nothing and changes nothing. *)
Theorem authorization_flow_completes
    cfg net sid toolName arguments rnd code (w : World) status text data :
  authSessions w !! sid = None ->
  sessionAuthHeaders w !! sid = None ->
  rnd <> [] -> code <> "" ->
  let prompted := (callTool cfg net sid toolName arguments rnd w).2 in
  token_endpoint net (length (netlog prompted)) (exchange_form cfg code)
    = Http status text (Some data) ->
  ok status = true ->
  let connected :=
    (handleAuthCallback cfg net (callback_url code (Text.to_hex rnd)) prompted).2 in
  let expiry := clock connected + expires_in data * 1000 in
  authSessions connected !! sid =
    Some {| accessToken := access_token data; refreshToken := refresh_token data;
            expiresAt := expiry |} /\
  forall later : World,
    authSessions later !! sid = authSessions connected !! sid ->
    clock later < expiry - 5 * 60 * 1000 ->
    resolve_credential cfg net sid later = (Return (Some (access_token data)), later).
Proof.
  intros Hauth Hhdr Hrnd Hcode prompted Hreply Hok connected expiry.
  pose proof (to_hex_nonempty _ Hrnd) as Hstate.
  assert (pendingAuthStates prompted !! Text.to_hex rnd
          = Some {| sessionId := sid; createdAt := clock w |}) as Hpending.
  { unfold prompted.
    rewrite (missing_auth_yields_authorization_url_aux cfg net sid toolName arguments rnd w)
      by done. cbn. apply lookup_insert_eq. }
  destruct (callback_accepts_any_stored_state cfg net code (Text.to_hex rnd) prompted _
              status text data Hcode Hstate Hpending Hreply Hok)
    as (w2 & Hrun & Htoken & _).
  subst expiry connected. rewrite Hrun. cbn [snd]. cbn [sessionId] in Htoken.
  split; [exact Htoken|].
  intros later Hsame Hearly. rewrite Htoken in Hsame.
  unfold resolve_credential. unfold mbind at 1, M_bind, bind, get_world. rewrite Hsame.
  unfold mbind, M_bind, bind.
  rewrite (getValidAccessToken_fresh _ _ _ _ _ Hsame) by (cbn; lia). reflexivity.
Qed.

Lemma authorization_flow_completes_witness :
  let prompted := (callTool sample_cfg granting_net "s1" "list_bases" None sample_bytes
                     (empty_world 5)).2 in
  let connected := (handleAuthCallback sample_cfg granting_net
                      (callback_url "code-1" "61626364") prompted).2 in
  let later := with_clock 3000000 connected in
  resolve_credential sample_cfg granting_net "s1" later = (Return (Some "fresh"), later).
Proof.
  intros prompted connected later.
  destruct (authorization_flow_completes sample_cfg granting_net "s1" "list_bases" None
              sample_bytes "code-1" (empty_world 5) 200 ""
              {| access_token := "fresh"; refresh_token := "again"; expires_in := 3600 |})
    as [_ Hgate].
  - reflexivity.
  - reflexivity.
  - discriminate.
  - discriminate.
  - reflexivity.
  - reflexivity.
  - apply (Hgate later); [reflexivity|]. vm_compute. reflexivity.
Defined.

(** ** Numeric caps *)

Lemma capped_parsers toolName key :
  (toolName, key) ∈ capped_arguments ->
  exists shape,
    find_case toolName parsers = Some (z_object shape) /\
    toolName <> "list_bases" /\
    (key, z_optional (z_number_max 100)) ∈ shape.
Proof.
  unfold capped_arguments. intros Hin.
  repeat (apply elem_of_cons in Hin as [[= -> ->]|Hin];
          [eexists; split; [reflexivity|split; [discriminate|]];
           repeat first [by left | right] |]).
  by apply elem_of_nil in Hin.
Qed.

(** X4.  The record-listing tools refuse a [maxRecords] or [pageSize] above 100:
    the call throws a [ZodError] with an issue at that argument, before any
    request. *)
Theorem oversized_page_is_rejected
    cfg net sid toolName key arguments fs n rnd (w w1 : World) token :
  (toolName, key) ∈ capped_arguments ->
  resolve_credential cfg net sid w = (Return (Some token), w1) ->
  token <> "" ->
  arguments = Some (JObj fs) ->
  Js.field key fs = Some (JNum n) ->
  100 < n ->
  exists issues,
    key ∈ issues /\
    callTool cfg net sid toolName arguments rnd w = (Throw (ZodError issues), w1).
Proof.
  intros Hcap Hgate Hne -> Hfield Hbig.
  destruct (capped_parsers _ _ Hcap) as (shape & Hparser & Hname & Hin).
  destruct (object_field_fails shape "" fs key _ [key] Hin) as (issues & Hfail & Hsub).
  { rewrite Hfield. cbn. destruct (Z.leb_spec n 100); [lia|reflexivity]. }
  exists issues. split; [apply Hsub; left|].
  rewrite (callTool_after_gate _ _ _ _ _ _ _ _ _ Hgate Hne).
  by eapply switch_rejects_invalid.
Qed.

Lemma oversized_page_is_rejected_witness :
  exists issues,
    "maxRecords" ∈ issues /\
    callTool sample_cfg serving_net "s1" "list_records"
      (Some (JObj [ ("baseId", JStr "appB"); ("tableId", JStr "tblT");
                    ("maxRecords", JNum 101) ]))
      sample_bytes delegated_world
    = (Throw (ZodError issues),
       with_authSessions (insert "s1" {| accessToken := "pat"; refreshToken := "";
                                         expiresAt := 3600000 |}) delegated_world).
Proof.
  eapply (oversized_page_is_rejected sample_cfg serving_net "s1" "list_records"
           "maxRecords" _ _ 101 sample_bytes delegated_world _ "pat").
  - unfold capped_arguments. left.
  - apply (delegated_header_is_adopted _ _ _ "pat"); reflexivity.
  - discriminate.
  - reflexivity.
  - reflexivity.
  - lia.
Defined.

(** ** Markup, transports and the authorization URL *)

(** ** Widget markup *)

(** The four ways [readWidgetHtml] ends. *)
Lemma readWidgetHtml_cases cfg componentName (w : World) outcome :
  (readWidgetHtml cfg componentName w).1 = outcome ->
  outcome = Return assets_not_built \/
  outcome = Return (widget_not_found componentName) \/
  (exists p c contents,
     files w !! p = Some (File (String c contents)) /\
     outcome = Return (String c contents)) \/
  (files w !! Path.join [ASSETS_DIR cfg; componentName +:+ ".html"] = Some Dir /\
   outcome = Throw (Error "EISDIR: illegal operation on a directory, read")).
Proof.
  unfold readWidgetHtml. run.
  destruct (negb (Fs.existsSync (files w) (ASSETS_DIR cfg))); [intros <-; by left|].
  set (directPath := Path.join [ASSETS_DIR cfg; componentName +:+ ".html"]).
  unfold Fs.existsSync at 1, Fs.readFileSync at 1.
  destruct (files w !! directPath) as [[[|c contents]|]|] eqn:Hdirect; cbn.
  - intros <-. right. by left.
  - intros <-. do 2 right. left. by exists directPath, c, contents.
  - intros <-. by do 3 right.
  - unfold versioned_or_nested.
    destruct (Fs.readdirSync _ _) as [names|]; cbn; [|intros <-; right; by left].
    destruct (last (candidates componentName names)) as [fallback|].
    + unfold Fs.readFileSync.
      destruct (files w !! Path.join [ASSETS_DIR cfg; fallback])
        as [[[|c contents]|]|] eqn:Hfile; cbn; intros <-; try (right; by left).
      do 2 right. left. by eexists _, c, contents.
    + destruct (Fs.existsSync _ _); cbn; [|intros <-; right; by left].
      unfold Fs.readFileSync.
      destruct (files w !! Path.join [ASSETS_DIR cfg; "src"; "components";
                                       componentName +:+ ".html"])
        as [[[|c contents]|]|] eqn:Hfile; cbn; intros <-; try (right; by left).
      do 2 right. left. by eexists _, c, contents.
Qed.

(** X20.  [readWidgetHtml] never returns the empty string; it throws only when the
    direct path of the widget is a directory. *)
Theorem widget_markup_is_never_empty cfg componentName (w : World) :
  match (readWidgetHtml cfg componentName w).1 with
  | Return markup => markup <> ""
  | Throw e =>
      e = Error "EISDIR: illegal operation on a directory, read" /\
      files w !! Path.join [ASSETS_DIR cfg; componentName +:+ ".html"] = Some Dir
  end.
Proof.
  destruct (readWidgetHtml_cases cfg componentName w _ eq_refl)
    as [->|[->|[(p & c & contents & _ & ->)|[Hdir ->]]]].
  - discriminate.
  - discriminate.
  - discriminate.
  - by split.
Qed.

Lemma sort_key_involutive c : Text.sort_key (Text.sort_key c) = c.
Proof. destruct c as [[] [] [] [] [] [] [] []]; vm_compute; reflexivity. Qed.

Lemma sort_keys_involutive s : Text.sort_keys (Text.sort_keys s) = s.
Proof.
  induction s as [|c s IH]; [reflexivity|].
  cbn [Text.sort_keys]. by rewrite sort_key_involutive, IH.
Qed.

#[export] Instance code_unit_le_trans : Transitive Text.code_unit_le.
Proof. intros s t u. unfold Text.code_unit_le. apply transitivity. Qed.

#[export] Instance code_unit_le_total : Total Text.code_unit_le.
Proof. intros s t. unfold Text.code_unit_le. apply total, _. Qed.

#[export] Instance code_unit_le_anti_symm : AntiSymm eq Text.code_unit_le.
Proof.
  intros s t Hst Hts. unfold Text.code_unit_le in *.
  rewrite <- (sort_keys_involutive s), <- (sort_keys_involutive t).
  f_equal. by apply (anti_symm String.le).
Qed.

(** The two orders on an example: a name with a character outside the BMP
    ([U+1F600], bytes [F0 9F 98 80]) and one with [U+FF21] (bytes
    [EF BC A1]).  By bytes the second comes first; by code units
    ([D83D DE00] against [FF21]) it comes last, and that is the order of
    [sort()]. *)
Example code_units_are_not_bytes :
  let astral := String (ascii_of_N 240) (String (ascii_of_N 159)
                  (String (ascii_of_N 152) (String (ascii_of_N 128) ""))) in
  let fullwidth := String (ascii_of_N 239) (String (ascii_of_N 188)
                     (String (ascii_of_N 161) "")) in
  String.le fullwidth astral /\ ~ String.le astral fullwidth /\
  Text.code_unit_le astral fullwidth /\ ~ Text.code_unit_le fullwidth astral /\
  candidates "w" [ "w-" +:+ fullwidth +:+ ".html"; "w-" +:+ astral +:+ ".html" ]
    = [ "w-" +:+ astral +:+ ".html"; "w-" +:+ fullwidth +:+ ".html" ].
Proof. cbn zeta. repeat split; vm_compute; tauto. Qed.

Lemma last_of_sorted (l : list string) f greatest :
  f ∈ l ->
  (forall g, g ∈ l -> Text.code_unit_le g f) ->
  last (merge_sort Text.code_unit_le l) = Some greatest ->
  greatest = f.
Proof.
  intros Hin Hmax Hlast.
  pose proof (StronglySorted_merge_sort Text.code_unit_le l) as Hsorted.
  pose proof (merge_sort_Permutation Text.code_unit_le l) as Hperm.
  apply last_Some in Hlast as (front & Heq). rewrite Heq in Hsorted, Hperm.
  assert (greatest ∈ l) as Hg.
  { rewrite <- Hperm. apply elem_of_app. right. left. }
  assert (f ∈ front ++ [greatest]) as Hf by by rewrite Hperm.
  apply elem_of_app in Hf as [Hf|Hf].
  - apply (anti_symm Text.code_unit_le); [by apply Hmax|].
    clear -Hf Hsorted.
    induction front as [|x front IH]; [by apply elem_of_nil in Hf|].
    cbn in Hsorted. apply StronglySorted_inv in Hsorted as [Hrest Hall].
    apply elem_of_cons in Hf as [->|Hf]; [|by apply IH].
    rewrite Forall_forall in Hall. apply Hall. apply elem_of_app. right. left.
  - apply list_elem_of_singleton in Hf. done.
Qed.

Lemma elem_of_List_filter {A} (f : A -> bool) (l : list A) x :
  x ∈ List.filter f l <-> x ∈ l /\ f x = true.
Proof. rewrite !list_elem_of_In. apply filter_In. Qed.

(** X21.  Without a direct match, [readWidgetHtml] serves the versioned
    build whose name comes last, in the order of [sort()] (UTF-16 code
    units), among the entries [<name>-*.html] of the asset directory. *)
Theorem latest_version_is_served cfg componentName (w : World) names latest content :
  Fs.readdirSync (files w) (ASSETS_DIR cfg) = Some names ->
  files w !! Path.join [ASSETS_DIR cfg; componentName +:+ ".html"] = None ->
  latest ∈ names ->
  Text.startsWith latest (componentName +:+ "-") && Text.endsWith latest ".html" = true ->
  (forall other,
     other ∈ names ->
     Text.startsWith other (componentName +:+ "-") && Text.endsWith other ".html" = true ->
     Text.code_unit_le other latest) ->
  files w !! Path.join [ASSETS_DIR cfg; latest] = Some (File content) ->
  content <> "" ->
  readWidgetHtml cfg componentName w = (Return content, w).
Proof.
  intros Hnames Hdirect Hin Hversion Hmax Hfile Hcontent.
  assert (Fs.existsSync (files w) (ASSETS_DIR cfg) = true) as Hbuilt.
  { unfold Fs.readdirSync in Hnames. unfold Fs.existsSync.
    destruct (files w !! ASSETS_DIR cfg); [|done]. by apply bool_decide_eq_true_2. }
  unfold readWidgetHtml. run. rewrite Hbuilt. cbn [negb].
  unfold Fs.existsSync at 1. rewrite Hdirect.
  rewrite bool_decide_eq_false_2 by (by intros [? ?]).
  unfold versioned_or_nested. rewrite Hnames. cbn.
  destruct (last (candidates componentName names)) as [greatest|] eqn:Hlast.
  - apply last_of_sorted with (f := latest) in Hlast as ->.
    + unfold Fs.readFileSync. rewrite Hfile. cbn.
      destruct content; [done|reflexivity].
    + apply elem_of_List_filter. by split.
    + intros g Hg. apply elem_of_List_filter in Hg as [Hg1 Hg2]. by apply Hmax.
  - exfalso. apply last_None in Hlast.
    assert (latest ∈ candidates componentName names) as Habsurd.
    { unfold candidates. rewrite merge_sort_Permutation. apply elem_of_List_filter. by split. }
    rewrite Hlast in Habsurd. by apply elem_of_nil in Habsurd.
Qed.

Lemma latest_version_is_served_witness :
  readWidgetHtml sample_cfg "get-record" versioned_world
  = (Return "<p>new</p>", versioned_world).
Proof.
  apply (latest_version_is_served sample_cfg "get-record" versioned_world
           ["get-record-9f3a.html"; "get-record-2d2e.html"] "get-record-9f3a.html").
  - vm_compute. reflexivity.
  - vm_compute. reflexivity.
  - left.
  - vm_compute. reflexivity.
  - intros other Hin _.
    repeat (apply elem_of_cons in Hin as [->|Hin]; [vm_compute; exact I|]).
    by apply elem_of_nil in Hin.
  - vm_compute. reflexivity.
  - discriminate.
Defined.

(** ** The transport registry *)

(** X22.  Opening a session and closing its transport leaves no trace: when the
    transport id and the drawn session id were unused, the world after the
    close hook is the world before the request. *)
Theorem closing_undoes_opening authHeader inp (w : World) :
  randomBytes inp <> [] ->
  sessions w !! transportId inp = None ->
  transportToSessionId w !! transportId inp = None ->
  sessionAuthHeaders w !! Text.to_hex (randomBytes inp) = None ->
  let opened := (handleSseRequest None authHeader inp w).2 in
  onclose (transportId inp) opened = (Return tt, w).
Proof.
  intros Hrnd Hsessions Hbinding Hheader opened. subst opened.
  pose proof (present_nonempty _ (to_hex_nonempty _ Hrnd)) as Hpresent.
  set (hex := Text.to_hex (randomBytes inp)) in *.
  set (tid := transportId inp) in *.
  destruct w as [tokens pending open headers bindings now log fs].
  cbn [sessions sessionAuthHeaders transportToSessionId] in *.
  assert (forall x, delete tid (<[tid:=x]> open) = open) as Hopen
    by (intros; by apply delete_insert_id).
  assert (forall x, delete tid (<[tid:=x]> bindings) = bindings) as Hbind
    by (intros; by apply delete_insert_id).
  assert (forall x, delete hex (<[hex:=x]> headers) = headers) as Hhead
    by (intros; by apply delete_insert_id).
  assert (delete hex headers = headers) as Hhead' by by apply delete_id.
  assert (delete tid open = open) as Hopen' by by apply delete_id.
  unfold onclose, handleSseRequest. run. cbn [present default]. fold hex tid.
  destruct (present authHeader) as [h|], (sdk inp) as [|sent];
    unfold with_sessions, with_transportToSessionId, with_sessionAuthHeaders;
    cbn [fst snd authSessions pendingAuthStates sessions sessionAuthHeaders
         transportToSessionId clock netlog files];
    rewrite lookup_insert_eq, Hpresent;
    cbn [fst snd authSessions pendingAuthStates sessions sessionAuthHeaders
         transportToSessionId clock netlog files];
    rewrite ?Hopen, ?Hbind, ?Hhead, ?Hhead', ?Hopen'; reflexivity.
Qed.

Lemma closing_undoes_opening_witness :
  onclose "transport-1"
    (handleSseRequest None (Some "Bearer pat") sample_inputs (empty_world 0)).2
  = (Return tt, empty_world 0).
Proof.
  apply (closing_undoes_opening (Some "Bearer pat") sample_inputs (empty_world 0)).
  - discriminate.
  - reflexivity.
  - reflexivity.
  - reflexivity.
Defined.

(** X23.  The bearer token of a posted message is the credential of the session:
    after the post, the gate of the session the transport is bound to
    resolves that token, and sends nothing to do so. *)
Theorem posted_header_becomes_the_credential
    cfg net req url inp (w : World) tid sid session token :
  present (searchParams_get "sessionId" (searchParams url)) = Some tid ->
  sessions w !! tid = Some session ->
  registered w tid sid ->
  authorization req = Some ("Bearer " +:+ token) ->
  authSessions w !! sid = None ->
  let posted := (handlePostMessage req url inp w).2 in
  (resolve_credential cfg net sid posted).1 = Return (Some token) /\
  netlog (resolve_credential cfg net sid posted).2 = netlog w.
Proof.
  intros Hparam Hsession [Hbinding Hsid] Hauth Hnone posted.
  assert (authSessions posted !! sid = None /\
          sessionAuthHeaders posted !! sid = Some ("Bearer " +:+ token) /\
          netlog posted = netlog w) as (H1 & H2 & H3).
  { subst posted. unfold handlePostMessage. rewrite Hparam. run. rewrite Hsession, Hauth.
    unfold String.append. cbn [present Text.is_empty append]. cbn beta iota.
    rewrite Hbinding. destruct sid as [|c sid]; [done|]. cbn.
    destruct (sdk inp) as [|[]]; cbn; (split; [done|split; [apply lookup_insert_eq|done]]). }
  rewrite (delegated_header_is_adopted _ _ _ _ _ H1 H2). by cbn.
Qed.

Lemma posted_header_becomes_the_credential_witness :
  let opened := (handleSseRequest None None sample_inputs (empty_world 0)).2 in
  let url := {| pathname := postPath; searchParams := [ ("sessionId", "transport-1") ] |} in
  let req := {| req_method := "POST"; req_url := Some url;
                authorization := Some "Bearer pat" |} in
  let posted := (handlePostMessage req url sample_inputs opened).2 in
  (resolve_credential sample_cfg refusing_net "61626364" posted).1 = Return (Some "pat") /\
  netlog (resolve_credential sample_cfg refusing_net "61626364" posted).2 = [].
Proof.
  intros opened url req posted.
  apply (posted_header_becomes_the_credential sample_cfg refusing_net req url sample_inputs
           opened "transport-1" "61626364"
           {| server := "61626364"; authHeader := None |} "pat").
  - reflexivity.
  - vm_compute. reflexivity.
  - split; [vm_compute; reflexivity|discriminate].
  - reflexivity.
  - reflexivity.
Defined.

(** ** The callback *)

(** X18.  [handleAuthCallback] never throws: whatever the request and the token
    endpoint do, it answers, with status 200, 400 or 500. *)
Theorem callback_always_answers cfg net url (w : World) :
  exists response status,
    (handleAuthCallback cfg net url w).1 = Return response /\
    status_of response = Some status /\
    (status = 200 \/ status = 400 \/ status = 500).
Proof.
  unfold handleAuthCallback.
  destruct (present (searchParams_get "error" (searchParams url))) as [e|];
    [eexists _, _; cbn; eauto|].
  destruct (present (searchParams_get "code" (searchParams url))) as [code|];
    destruct (present (searchParams_get "state" (searchParams url))) as [state|];
    try (eexists _, _; cbn; eauto; fail).
  run. destruct (pendingAuthStates w !! state) as [owner|]; [|eexists _, _; cbn; eauto].
  change (exists response status,
            (exchange_and_install cfg net code state owner
               (with_pendingAuthStates (sweep (clock w)) w)).1 = Return response /\
            status_of response = Some status /\
            (status = 200 \/ status = 400 \/ status = 500)).
  destruct (exchange_and_install_cases cfg net code state owner
              (with_pendingAuthStates (sweep (clock w)) w))
    as [(detail & _ & ->)|(status & text & data & _ & _ & ->)];
    eexists _, _; cbn; eauto.
Qed.

(** ** The state in the authorization URL *)

Lemma hex_byte_is_safe b : Text.form_encode (Text.hex_byte false b) = Text.hex_byte false b.
Proof. destruct b as [[] [] [] [] [] [] [] []]; vm_compute; reflexivity. Qed.

Lemma form_encode_app s t :
  Text.form_encode (s +:+ t) = Text.form_encode s +:+ Text.form_encode t.
Proof.
  induction s as [|c s IH]; [reflexivity|].
  rewrite app_cons. cbn [Text.form_encode]. rewrite IH. by rewrite str_app_assoc.
Qed.

Lemma form_encode_hex bytes : Text.form_encode (Text.to_hex bytes) = Text.to_hex bytes.
Proof.
  induction bytes as [|b bytes IH]; [reflexivity|].
  cbn [Text.to_hex]. by rewrite form_encode_app, hex_byte_is_safe, IH.
Qed.

Lemma length_hex bytes : String.length (Text.to_hex bytes) = (2 * length bytes)%nat.
Proof.
  induction bytes as [|b bytes IH]; [reflexivity|].
  cbn [Text.to_hex Text.hex_byte]. unfold String.append. cbn. cbn in IH.
  fold (String.append (Text.to_hex bytes) ""). unfold String.append in *. rewrite IH. lia.
Qed.

(** X19.  The state of an authorization is in the URL as it is in the store: the
    hex rendering of the random bytes is left alone by the URL encoding and
    stands as the value of [state], two characters for each byte. *)
Theorem state_is_verbatim_in_the_authorization_url cfg bytes :
  generateAuthUrl cfg (Text.to_hex bytes) =
    "https://airtable.com/oauth2/v1/authorize?client_id="
    +:+ Text.form_encode (AIRTABLE_CLIENT_ID cfg)
    +:+ "&redirect_uri=" +:+ Text.form_encode (AIRTABLE_REDIRECT_URI cfg)
    +:+ "&response_type=code&state=" +:+ Text.to_hex bytes
    +:+ "&scope=" +:+ Text.form_encode (Text.join " " scopes)
  /\ String.length (Text.to_hex bytes) = (2 * length bytes)%nat.
Proof.
  split; [|apply length_hex].
  unfold generateAuthUrl, Text.search_params. cbn [map fst snd Text.join].
  rewrite form_encode_hex.
  change (Text.form_encode "client_id") with "client_id".
  change (Text.form_encode "redirect_uri") with "redirect_uri".
  change (Text.form_encode "response_type") with "response_type".
  change (Text.form_encode "code") with "code".
  change (Text.form_encode "state") with "state".
  change (Text.form_encode "scope") with "scope".
  rewrite !str_app_assoc, !app_cons, !app_nil_l'. reflexivity.
Qed.

(** ** Destructive tools and templates *)

Lemma gentle_cases :
  Forall (fun tool =>
            destructiveHint tool = false ->
            forall cfg net sid token arguments,
              token <> "" ->
              keeps (appended (api_request
                       (fun req => method req ∈ ["GET"; "POST"; "PATCH"])))
                    (switch cfg net sid (name tool) token arguments))
         catalog.
Proof.
  repeat constructor; cbn [destructiveHint name];
    intros Hgentle cfg net sid token arguments Hne; try discriminate Hgentle;
    pick_case; unfold_cases;
    keep ltac:(apply after_request_appended; cbn; repeat first [by left | right]).
Qed.

(** X8.  A tool annotated [destructiveHint: false] sends neither [DELETE] nor
    [PUT]: its requests to the backend are [GET], [POST] or [PATCH]. *)
Theorem only_destructive_tools_delete_or_replace
    tool cfg net sid arguments rnd (w : World) :
  tool ∈ catalog ->
  destructiveHint tool = false ->
  exists new,
    netlog (callTool cfg net sid (name tool) arguments rnd w).2 = netlog w ++ new /\
    forall req, ApiCall req ∈ new -> method req ∈ ["GET"; "POST"; "PATCH"].
Proof.
  intros Htool Hgentle.
  pose proof gentle_cases as Hall. rewrite Forall_forall in Hall.
  set (P := api_request (fun req => method req ∈ ["GET"; "POST"; "PATCH"])).
  assert (keeps (appended P) (callTool cfg net sid (name tool) arguments rnd)) as Hkeeps.
  { unfold callTool. apply keeps_bind; [apply _|apply gate_sends_no_api_request|].
    assert (keeps (appended P) (request_authorization cfg sid rnd)) as Hprompt.
    { intros w0. exists []. split; [by rewrite app_nil_r|constructor]. }
    intros [[|c token]|]; cbn [Text.is_empty]; [exact Hprompt| |exact Hprompt].
    by apply (Hall tool Htool Hgentle). }
  destruct (Hkeeps w) as (new & Hlog & Hnew). exists new. split; [exact Hlog|].
  intros req Hin. rewrite Forall_forall in Hnew. exact (Hnew _ Hin).
Qed.

Lemma only_destructive_tools_delete_or_replace_witness :
  exists new,
    netlog (callTool sample_cfg serving_net "s1" "create_record"
              (Some (JObj [ ("baseId", JStr "appB"); ("tableId", JStr "tblT");
                            ("fields", JObj []) ]))
              sample_bytes delegated_world).2 = [] ++ new /\
    forall req, ApiCall req ∈ new -> method req ∈ ["GET"; "POST"; "PATCH"].
Proof.
  apply (only_destructive_tools_delete_or_replace create_record_tool sample_cfg serving_net
           "s1" _ sample_bytes delegated_world).
  - unfold catalog. do 7 right. left.
  - reflexivity.
Defined.

Lemma widget_tables_agree :
  Forall (fun widget =>
            widgetsById !! wid widget = Some widget /\
            widgetsByUri !! templateUri widget = Some widget)
         widgets.
Proof. repeat constructor; vm_compute; reflexivity. Qed.

Lemma bound_widgets_exist :
  Forall (fun tool =>
            forall id, boundWidget tool = Some id ->
              exists widget, widget ∈ widgets /\ widgetsById !! id = Some widget)
         catalog.
Proof.
  repeat constructor; cbn [boundWidget]; intros id [= <-];
    eexists; (split; [|vm_compute; reflexivity]); unfold widgets;
    repeat first [by left | right].
Qed.

(** X10.  The output template a catalog entry advertises is a resource the read
    handler knows: reading it yields that URI, the skybridge MIME type and
    markup that is not empty, or the [EISDIR] error of a widget path that is
    a directory. *)
Theorem advertised_template_is_a_readable_resource cfg tool meta (w : World) :
  tool ∈ catalog ->
  declared_meta tool = Some meta ->
  exists uri,
    Js.field "openai/outputTemplate" (match meta with JObj fs => fs | _ => [] end)
      = Some (JStr uri) /\
    match (readResource cfg uri w).1 with
    | Return contents =>
        rc_uri contents = uri /\ rc_mimeType contents = "text/html+skybridge" /\
        rc_text contents <> ""
    | Throw e => e = Error "EISDIR: illegal operation on a directory, read"
    end.
Proof.
  intros Htool Hmeta. unfold declared_meta in Hmeta.
  destruct (boundWidget tool) as [id|] eqn:Hid; [|done].
  pose proof bound_widgets_exist as Hall. rewrite Forall_forall in Hall.
  destruct (Hall tool Htool id Hid) as (widget & Hin & Hwidget).
  unfold mbind, option_bind in Hmeta. rewrite Hwidget in Hmeta. injection Hmeta as <-.
  exists (templateUri widget). split; [reflexivity|].
  pose proof widget_tables_agree as Htables. rewrite Forall_forall in Htables.
  destruct (Htables widget Hin) as [_ Huri].
  unfold readResource. rewrite Huri, (no_widget_carries_markup _ _ Huri).
  cbn [Text.is_empty]. unfold mbind at 1, M_bind, bind.
  destruct (readWidgetHtml_cases cfg (wid widget) w _ eq_refl)
    as [Hread|[Hread|[(p & c & contents & _ & Hread)|[_ Hread]]]];
    destruct (readWidgetHtml cfg (wid widget) w) as [outcome w1];
    cbn in Hread; subst outcome; cbn; done.
Qed.

Lemma advertised_template_is_a_readable_resource_witness :
  exists uri,
    Js.field "openai/outputTemplate"
      [ ("openai/outputTemplate", JStr "ui://widget/get-record.html");
        ("openai/toolInvocation/invoking", JStr "Loading Airtable record");
        ("openai/toolInvocation/invoked", JStr "Loaded Airtable record");
        ("openai/widgetAccessible", JBool true);
        ("openai/resultCanProduceWidget", JBool true) ] = Some (JStr uri) /\
    match (readResource sample_cfg uri versioned_world).1 with
    | Return contents =>
        rc_uri contents = uri /\ rc_mimeType contents = "text/html+skybridge" /\
        rc_text contents <> ""
    | Throw e => e = Error "EISDIR: illegal operation on a directory, read"
    end.
Proof.
  apply (advertised_template_is_a_readable_resource sample_cfg get_record_tool
           (JObj _) versioned_world).
  - unfold catalog. do 6 right. left.
  - vm_compute. reflexivity.
Defined.
